(** * nextlevel flow editor: graph store and message propagation engine

    A shallow embedding of [js/flowEditor.js] (class [FlowEditor]) and of the
    node type catalogue [NODE_TYPES], followed by the properties of the graph
    store, of the per-type message handlers and of the network-data generator.

    Conventions of the embedding.
    - A JavaScript [Map] is an association list in insertion order
      ([Map.prototype.set] on a new key appends, on an old key replaces in
      place), because [exportFlow] and [importFlow] depend on that order.
    - JavaScript values are JSON-like trees ([value]); numbers are integers
      (node counters, port indices, row counts), except in the network-data
      generator, whose connectivity and link target are IEEE 754 doubles
      ([spec_float] of the Standard Library at precision 53); an object is
      the list of its
      own enumerable properties in enumeration order, and property reads do
      not see [Object.prototype] (the catalogue lookup [NODE_TYPES[type]] is
      the one place where inherited names are modelled, see [lookupType]).
      An object is identified with its contents.
    - A node object is identified by its [id]: [createNode] is the only
      producer of node objects and never hands out an id twice, so the
      reference comparisons [a === b] on nodes are comparisons of ids.
    - DOM/SVG calls, console output and notifications are not modelled.
    - The clock ([new Date()]), the pseudo random generator ([Math.random])
      and the text parsers of the host ([JSON.parse]) are inputs. *)

From Stdlib Require Import String Ascii List ZArith Lia Bool Arith PeanoNat.
From Stdlib Require Import DecimalString DecimalNat Floats.SpecFloat.
Import ListNotations.
Open Scope string_scope.
Set Warnings "-register-all".

(* ================================================================== *)
(** ** JavaScript values *)

Inductive value : Type :=
| VUndefined
| VNull
| VBool (b : bool)
| VNum (n : Z)
| VStr (s : string)
| VArr (items : list value)
| VObj (fields : list (string * value)).

(** Decimal rendering of a non-negative integer, as in a template literal. *)
Definition decimal (n : nat) : string := NilEmpty.string_of_uint (Nat.to_uint n).

Definition decimalZ (z : Z) : string := NilEmpty.string_of_int (Z.to_int z).

(** [if (v)], [!v], [a || b], [a && b]. *)
Definition truthy (v : value) : bool :=
  match v with
  | VUndefined | VNull => false
  | VBool b => b
  | VNum n => negb (n =? 0)%Z
  | VStr s => negb (s =? "")
  | VArr _ | VObj _ => true
  end.

Definition js_or (a b : value) : value := if truthy a then a else b.

(** [a === b].  On numbers, strings, booleans, [null] and [undefined] this
    is the comparison of JavaScript; an array or an object has no identity in
    the embedding and is compared by its contents, which is [===] on an
    object compared with itself. *)
Fixpoint strict_eq (a b : value) : bool :=
  match a, b with
  | VUndefined, VUndefined => true
  | VNull, VNull => true
  | VBool x, VBool y => Bool.eqb x y
  | VNum x, VNum y => (x =? y)%Z
  | VStr x, VStr y => (x =? y)
  | VArr xs, VArr ys =>
      (fix go (l1 l2 : list value) : bool :=
         match l1, l2 with
         | [], [] => true
         | u :: l1', w :: l2' => strict_eq u w && go l1' l2'
         | _, _ => false
         end) xs ys
  | VObj xs, VObj ys =>
      (fix go (l1 l2 : list (string * value)) : bool :=
         match l1, l2 with
         | [], [] => true
         | (k1, u) :: l1', (k2, w) :: l2' => (k1 =? k2) && strict_eq u w && go l1' l2'
         | _, _ => false
         end) xs ys
  | _, _ => false
  end.

(** [String(v)]: the conversion behind property keys and [parseInt].  An
    integer is written in decimal, as JavaScript writes it below [10 ^ 21]. *)
Fixpoint toString (v : value) : string :=
  match v with
  | VUndefined => "undefined"
  | VNull => "null"
  | VBool true => "true"
  | VBool false => "false"
  | VNum n => decimalZ n
  | VStr s => s
  | VArr items =>
      (fix join (l : list value) : string :=
         match l with
         | [] => ""
         | u :: l' =>
             let here := match u with VUndefined | VNull => "" | _ => toString u end in
             match l' with
             | [] => here
             | _ => here ++ "," ++ join l'
             end
         end) items
  | VObj _ => "[object Object]"
  end.

(** Own-property lookup in a property list. *)
Fixpoint assoc {A : Type} (k : string) (l : list (string * A)) : option A :=
  match l with
  | [] => None
  | (k', a) :: l' => if k' =? k then Some a else assoc k l'
  end.

(** The index [i] with [decimal i = key] and [i < n], if any. *)
Fixpoint arrayIndex (key : string) (n : nat) : option nat :=
  match n with
  | O => None
  | S m => match arrayIndex key m with
           | Some i => Some i
           | None => if decimal m =? key then Some m else None
           end
  end.

(** [v[key]]; [None] is the TypeError raised on [undefined] and [null]. *)
Definition getProp (v : value) (key : string) : option value :=
  match v with
  | VUndefined | VNull => None
  | VObj fields => Some (match assoc key fields with Some u => u | None => VUndefined end)
  | VArr items =>
      Some (if key =? "length" then VNum (Z.of_nat (List.length items))
            else match arrayIndex key (List.length items) with
                 | Some i => nth i items VUndefined
                 | None => VUndefined
                 end)
  | VStr s =>
      Some (if key =? "length" then VNum (Z.of_nat (String.length s))
            else match arrayIndex key (String.length s) with
                 | Some i => VStr (substring i 1 s)
                 | None => VUndefined
                 end)
  | VBool _ | VNum _ => Some VUndefined
  end.

(** [Object.keys(v)] for an object or an array. *)
Definition objectKeys (v : value) : list string :=
  match v with
  | VObj fields => map fst fields
  | VArr items => map decimal (seq 0 (List.length items))
  | VStr s => map decimal (seq 0 (String.length s))
  | _ => []
  end.

(** [typeof v === 'object' && v !== null]. *)
Definition isObject (v : value) : bool :=
  match v with
  | VArr _ | VObj _ => true
  | _ => false
  end.

Definition isArray (v : value) : bool :=
  match v with
  | VArr _ => true
  | _ => false
  end.

(** [{ ...a, ...b }] and [Object.assign(a, b)] on property lists. *)
Fixpoint setField (k : string) (u : value) (l : list (string * value)) : list (string * value) :=
  match l with
  | [] => [(k, u)]
  | (k', w) :: l' => if k' =? k then (k', u) :: l' else (k', w) :: setField k u l'
  end.

Definition spread (a b : list (string * value)) : list (string * value) :=
  fold_left (fun acc kv => setField (fst kv) (snd kv) acc) b (fold_left (fun acc kv => setField (fst kv) (snd kv) acc) a []).

(** *** [parseInt(v)] with no radix *)

Definition isWhite (c : ascii) : bool :=
  let n := nat_of_ascii c in
  (n =? 32)%nat || ((9 <=? n)%nat && (n <=? 13)%nat).

Fixpoint skipWhite (s : string) : string :=
  match s with
  | String c s' => if isWhite c then skipWhite s' else s
  | EmptyString => s
  end.

Definition digitValue (c : ascii) : option Z :=
  let n := nat_of_ascii c in
  if (48 <=? n)%nat && (n <=? 57)%nat then Some (Z.of_nat (n - 48))
  else if (97 <=? n)%nat && (n <=? 122)%nat then Some (Z.of_nat (n - 87))
  else if (65 <=? n)%nat && (n <=? 90)%nat then Some (Z.of_nat (n - 55))
  else None.

(** Value of the longest prefix of digits below [radix]; [None] when empty. *)
Fixpoint digitsPrefix (radix : Z) (acc : option Z) (s : string) : option Z :=
  match s with
  | EmptyString => acc
  | String c s' =>
      match digitValue c with
      | Some d =>
          if (d <? radix)%Z
          then digitsPrefix radix (Some (match acc with Some a => a * radix + d | None => d end)%Z) s'
          else acc
      | None => acc
      end
  end.

Definition parseIntString (s : string) : option Z :=
  let s1 := skipWhite s in
  let '(neg, s2) :=
    match s1 with
    | String "-" r => (true, r)
    | String "+" r => (false, r)
    | _ => (false, s1)
    end in
  let '(radix, s3) :=
    match s2 with
    | String "0" (String "x" r) => (16%Z, r)
    | String "0" (String "X" r) => (16%Z, r)
    | _ => (10%Z, s2)
    end in
  match digitsPrefix radix None s3 with
  | Some n => Some (if neg then (- n)%Z else n)
  | None => None
  end.

(** [None] is [NaN]. *)
Definition parseInt (v : value) : option Z := parseIntString (toString v).

(** [parseInt(v) || d]. *)
Definition parseIntOr (v : value) (d : Z) : Z :=
  match parseInt v with
  | Some n => if (n =? 0)%Z then d else n
  | None => d
  end.

(** [l.slice(start)]. *)
Definition sliceFrom {A : Type} (start : Z) (l : list A) : list A :=
  let len := Z.of_nat (List.length l) in
  let from := if (start <? 0)%Z then Z.max (len + start) 0 else Z.min start len in
  skipn (Z.to_nat from) l.

(* ================================================================== *)
(** ** Insertion-ordered maps ([Map]) *)

Section OrderedMap.
Context {A : Type}.

Definition Map := list (string * A).

Definition mapGet (m : Map) (k : string) : option A := assoc k m.

Fixpoint mapSet (m : Map) (k : string) (a : A) : Map :=
  match m with
  | [] => [(k, a)]
  | (k', a') :: m' => if k' =? k then (k', a) :: m' else (k', a') :: mapSet m' k a
  end.

Definition mapDelete (m : Map) (k : string) : Map :=
  filter (fun kv => negb (fst kv =? k)) m.

Definition mapValues (m : Map) : list A := map snd m.

Definition mapHas (m : Map) (k : string) : bool :=
  match mapGet m k with Some _ => true | None => false end.
End OrderedMap.
Arguments Map A : clear implicits.

(* ================================================================== *)
(** ** Node type registry ([NODE_TYPES]) *)

(** A catalogue entry as [createNode] reads it: [defaults], [inputs],
    [outputs].  The presentational fields (name, icon, color, category,
    configFields) are not modelled.  [None] is [undefined]. *)
Record nodeType : Type := {
  defaults : list (string * value);
  nt_inputs : option nat;
  nt_outputs : option nat
}.

(** The default payload text of [exampleData]; [dq] is the double quote. *)
Definition dq : string := String (ascii_of_nat 34) EmptyString.

Definition exampleDataPayload : string :=
  "{" ++ dq ++ "temperature" ++ dq ++ ": 23.5, " ++ dq ++ "humidity" ++ dq ++ ": 65, "
      ++ dq ++ "timestamp" ++ dq ++ ": " ++ dq ++ "2024-01-01T00:00:00Z" ++ dq ++ "}".

Definition descriptor (i o : nat) (d : list (string * value)) : nodeType :=
  {| defaults := d; nt_inputs := Some i; nt_outputs := Some o |}.

Definition NODE_TYPES : list (string * nodeType) :=
  [ ("input", descriptor 0 1 [("name", VStr ""); ("value", VStr "")]);
    ("trigger", descriptor 0 1
       [("name", VStr ""); ("interval", VStr "1000"); ("repeat", VBool true)]);
    ("exampleData", descriptor 0 1
       [("name", VStr ""); ("dataType", VStr "object");
        ("payload", VStr exampleDataPayload)]);
    ("function", descriptor 1 1 [("name", VStr ""); ("func", VStr "return msg;")]);
    ("filter", descriptor 1 1 [("name", VStr ""); ("condition", VStr "msg.payload > 0")]);
    ("transform", descriptor 1 1
       [("name", VStr ""); ("property", VStr "payload"); ("rules", VArr [])]);
    ("output", descriptor 1 0 [("name", VStr ""); ("target", VStr "console")]);
    ("debug", descriptor 1 0
       [("name", VStr ""); ("complete", VStr "payload"); ("console", VBool true)]);
    ("dataTable", descriptor 1 0
       [("name", VStr ""); ("maxRows", VNum 10); ("autoWidth", VBool true);
        ("showHeaders", VBool true); ("appendData", VBool false)]);
    ("chartNode", descriptor 1 0
       [("name", VStr ""); ("chartType", VStr "line"); ("xField", VStr "timestamp");
        ("yField", VStr "value"); ("maxPoints", VNum 50); ("autoScale", VBool true);
        ("showGrid", VBool true)]);
    ("graphViz", descriptor 1 0
       [("name", VStr ""); ("nodeIdField", VStr "id"); ("nodeLabelField", VStr "name");
        ("edgeSourceField", VStr "source"); ("edgeTargetField", VStr "target");
        ("nodeSize", VNum 15); ("showLabels", VBool true); ("layoutType", VStr "force")]);
    ("networkDataSim", descriptor 0 1
       (* connectivity is the number 0.3; numbers of the model are integers, so
          it is kept as its text: its one reader applies parseFloat to it *)
       [("name", VStr ""); ("networkType", VStr "social"); ("nodeCount", VNum 8);
        ("connectivity", VStr "0.3"); ("includeAttributes", VBool true)]) ].

(** Names every plain object inherits from [Object.prototype]: for these
    [NODE_TYPES[type]] is a function (or the prototype itself), hence truthy,
    with no [defaults], [inputs] or [outputs]. *)
Definition inheritedNames : list string :=
  [ "constructor"; "toString"; "toLocaleString"; "valueOf"; "hasOwnProperty";
    "isPrototypeOf"; "propertyIsEnumerable"; "__proto__"; "__defineGetter__";
    "__defineSetter__"; "__lookupGetter__"; "__lookupSetter__" ].

Definition inheritedEntry : nodeType :=
  {| defaults := []; nt_inputs := None; nt_outputs := None |}.

(** [NODE_TYPES[type]]; [None] when the result is [undefined]. *)
Definition lookupType (type : string) : option nodeType :=
  match assoc type NODE_TYPES with
  | Some d => Some d
  | None => if existsb (String.eqb type) inheritedNames then Some inheritedEntry else None
  end.

(* ================================================================== *)
(** ** Graph store *)

(** *** Messages and per-node auxiliary state *)

Record message : Type := {
  payload : value;
  topic : value;
  timestamp : string;
  source : option string;      (* absent on network-simulation messages *)
  _msgid : option string
}.

(** [data] of a debug entry: the payload or the whole message. *)
Inductive debugData : Type :=
| DataPayload (v : value)
| DataMessage (m : message).

Record debugEntry : Type := {
  de_timestamp : string;
  de_data : debugData;
  fullMessage : message
}.

(** The mini-graph of a graphViz node.  The coordinates [x], [y] of its
    nodes are random start positions relaxed by a floating-point layout;
    they are not modelled. *)
Record gvNode : Type := {
  gn_id : value;
  gn_label : value;
  gn_originalData : value
}.

Record gvEdge : Type := {
  ge_source : value;
  ge_target : value;
  ge_originalData : value
}.

Record networkGraph : Type := {
  ng_nodes : list gvNode;
  ng_edges : list gvEdge
}.

(** *** Nodes, links and the editor state *)

(** A node object; its [id] is [node_id].  The auxiliary fields are absent
    ([None]) until a handler creates them. *)
Record node : Type := {
  node_id : string;
  type : string;
  x : Z;
  y : Z;
  width : Z;
  height : Z;
  config : list (string * value);
  inputs : option nat;
  outputs : option nat;
  debugOutputs : option (list debugEntry);
  accumulatedData : option (list value);
  networkData : option networkGraph
}.

(** A link object; its [id], [source] and [target] are [link_id],
    [link_source] and [link_target]. *)
Record link : Type := {
  link_id : string;
  link_source : string;
  sourcePort : nat;
  link_target : string;
  targetPort : nat
}.

(** The state of a [FlowEditor]; the drag state, the zoom and the pan move
    and draw nodes only and are left out. *)
Record editor : Type := {
  nodes : Map node;
  links : Map link;
  selectedNode : option string;          (* the selected node object, by id *)
  selectedLink : option string;          (* the selected link object, by id *)
  isConnecting : bool;
  nodeCounter : nat;
  linkCounter : nat;
  connectionStart : option (option node * nat)
    (* { node, port }: the node object as of the mouse-down ([None] for
       [undefined]); only its id is read afterwards *)
}.

(** The state the constructor builds. *)
Definition newEditor : editor :=
  {| nodes := []; links := []; selectedNode := None; selectedLink := None;
     isConnecting := false; nodeCounter := 0; linkCounter := 0;
     connectionStart := None |}.

Definition withNodes (ed : editor) (ns : Map node) : editor :=
  {| nodes := ns; links := links ed; selectedNode := selectedNode ed;
     selectedLink := selectedLink ed; isConnecting := isConnecting ed;
     nodeCounter := nodeCounter ed; linkCounter := linkCounter ed;
     connectionStart := connectionStart ed |}.

Definition withLinks (ed : editor) (ls : Map link) : editor :=
  {| nodes := nodes ed; links := ls; selectedNode := selectedNode ed;
     selectedLink := selectedLink ed; isConnecting := isConnecting ed;
     nodeCounter := nodeCounter ed; linkCounter := linkCounter ed;
     connectionStart := connectionStart ed |}.

Definition withNodeCounter (ed : editor) (c : nat) : editor :=
  {| nodes := nodes ed; links := links ed; selectedNode := selectedNode ed;
     selectedLink := selectedLink ed; isConnecting := isConnecting ed;
     nodeCounter := c; linkCounter := linkCounter ed;
     connectionStart := connectionStart ed |}.

Definition withLinkCounter (ed : editor) (c : nat) : editor :=
  {| nodes := nodes ed; links := links ed; selectedNode := selectedNode ed;
     selectedLink := selectedLink ed; isConnecting := isConnecting ed;
     nodeCounter := nodeCounter ed; linkCounter := c;
     connectionStart := connectionStart ed |}.

Definition withSelection (ed : editor) (sn sl : option string) : editor :=
  {| nodes := nodes ed; links := links ed; selectedNode := sn;
     selectedLink := sl; isConnecting := isConnecting ed;
     nodeCounter := nodeCounter ed; linkCounter := linkCounter ed;
     connectionStart := connectionStart ed |}.

Definition withConnection (ed : editor) (b : bool) (cs : option (option node * nat)) : editor :=
  {| nodes := nodes ed; links := links ed; selectedNode := selectedNode ed;
     selectedLink := selectedLink ed; isConnecting := b;
     nodeCounter := nodeCounter ed; linkCounter := linkCounter ed;
     connectionStart := cs |}.

Definition optEqb (a b : option string) : bool :=
  match a, b with
  | Some u, Some w => u =? w
  | _, _ => false
  end.

(** *** Store operations *)

(** [clearSelection()]. *)
Definition clearSelection (ed : editor) : editor := withSelection ed None None.

(** [selectNode(node)], [selectLink(link)]. *)
Definition selectNode (ed : editor) (n : node) : editor :=
  withSelection (clearSelection ed) (Some (node_id n)) None.

Definition selectLink (ed : editor) (l : link) : editor :=
  withSelection (clearSelection ed) None (Some (link_id l)).

(** [createNode(type, x, y, config = {})]: the counter is advanced first, the
    type is validated second. *)
Definition createNode (ed : editor) (ty : string) (px py : Z) (cfg : list (string * value))
  : option node * editor :=
  let counter := S (nodeCounter ed) in
  let nodeId := "node_" ++ decimal counter in
  let ed1 := withNodeCounter ed counter in
  match lookupType ty with
  | None => (None, ed1)
  | Some nodeType =>
      let nodeConfig := spread (defaults nodeType) cfg in
      let n := {| node_id := nodeId; type := ty; x := px; y := py;
                  width := 120; height := 40; config := nodeConfig;
                  inputs := nt_inputs nodeType; outputs := nt_outputs nodeType;
                  debugOutputs := None; accumulatedData := None;
                  networkData := None |} in
      (Some n, withNodes ed1 (mapSet (nodes ed1) nodeId n))
  end.

(** [createConnection(sourceNode, sourcePort, targetNode, targetPort)]: the
    arguments are node objects; only their ids are read. *)
Definition createConnection (ed : editor) (sourceNode : node) (sp : nat)
           (targetNode : node) (tp : nat) : link * editor :=
  let counter := S (linkCounter ed) in
  let linkId := "link_" ++ decimal counter in
  let ed1 := withLinkCounter ed counter in
  let l := {| link_id := linkId; link_source := node_id sourceNode; sourcePort := sp;
              link_target := node_id targetNode; targetPort := tp |} in
  (l, withLinks ed1 (mapSet (links ed1) linkId l)).

(** [deleteLink(linkId)]. *)
Definition deleteLink (ed : editor) (linkId : string) : editor :=
  match mapGet (links ed) linkId with
  | None => ed
  | Some l =>
      let ed1 := withLinks ed (mapDelete (links ed) linkId) in
      if optEqb (selectedLink ed1) (Some (link_id l)) then clearSelection ed1 else ed1
  end.

(** [deleteNode(nodeId)].  The resets of the auxiliary state of the node
    object precede its removal from the map and are not visible in the store. *)
Definition deleteNode (ed : editor) (nodeId : string) : editor :=
  match mapGet (nodes ed) nodeId with
  | None => ed
  | Some n =>
      let linksToDelete :=
        map fst (filter (fun kl => (link_source (snd kl) =? nodeId)
                                   || (link_target (snd kl) =? nodeId)) (links ed)) in
      let ed1 := fold_left deleteLink linksToDelete ed in
      let ed2 := withNodes ed1 (mapDelete (nodes ed1) nodeId) in
      if optEqb (selectedNode ed2) (Some (node_id n)) then clearSelection ed2 else ed2
  end.

(** [moveNode(node, x, y)] on the node object stored under [nodeId]. *)
Definition moveNode (ed : editor) (nodeId : string) (px py : Z) : editor :=
  match mapGet (nodes ed) nodeId with
  | None => ed
  | Some n =>
      let n' := {| node_id := node_id n; type := type n; x := px; y := py;
                   width := width n; height := height n; config := config n;
                   inputs := inputs n; outputs := outputs n;
                   debugOutputs := debugOutputs n;
                   accumulatedData := accumulatedData n;
                   networkData := networkData n |} in
      withNodes ed (mapSet (nodes ed) nodeId n')
  end.

(** [clearAll()]: the two maps and the selection; the counters stay. *)
Definition clearAll (ed : editor) : editor :=
  clearSelection (withLinks (withNodes ed []) []).

(** *** Export and import *)

Record nodeData : Type := {
  nd_id : string;
  nd_type : string;
  nd_x : Z;
  nd_y : Z;
  nd_config : list (string * value)
}.

Record linkData : Type := {
  ld_source : string;
  ld_sourcePort : nat;
  ld_target : string;
  ld_targetPort : nat
}.

(** A parsed flow document.  [None] in a field: the property is missing or
    holds no array, so that calling [forEach] on it raises a TypeError. *)
Record flow : Type := {
  flow_nodes : option (list nodeData);
  flow_links : option (list linkData)
}.

(** The text handed to [importFlow], seen through [JSON.parse]: either it does
    not parse (SyntaxError) or it is the text of a document.  [JSON.stringify]
    followed by [JSON.parse] gives the document back (configurations hold
    JSON values). *)
Inductive flowText : Type :=
| Unparsable
| TextOf (f : flow).

Definition JSON_parse (t : flowText) : option flow :=
  match t with
  | Unparsable => None
  | TextOf f => Some f
  end.

Definition JSON_stringify (f : flow) : flowText := TextOf f.

(** [exportFlow()]. *)
Definition exportFlow (ed : editor) : flowText :=
  JSON_stringify
    {| flow_nodes := Some (map (fun n => {| nd_id := node_id n; nd_type := type n;
                                            nd_x := x n; nd_y := y n;
                                            nd_config := config n |})
                               (mapValues (nodes ed)));
       flow_links := Some (map (fun l => {| ld_source := link_source l;
                                            ld_sourcePort := sourcePort l;
                                            ld_target := link_target l;
                                            ld_targetPort := targetPort l |})
                               (mapValues (links ed))) |}.

(** The body of [flow.nodes.forEach] and of [flow.links.forEach]. *)
Definition importNode (ed : editor) (nd : nodeData) : editor :=
  snd (createNode ed (nd_type nd) (nd_x nd) (nd_y nd) (nd_config nd)).

Definition importLink (ed : editor) (ld : linkData) : editor :=
  let sourceNode := find (fun n => node_id n =? ld_source ld) (mapValues (nodes ed)) in
  let targetNode := find (fun n => node_id n =? ld_target ld) (mapValues (nodes ed)) in
  match sourceNode, targetNode with
  | Some sn, Some tn => snd (createConnection ed sn (ld_sourcePort ld) tn (ld_targetPort ld))
  | _, _ => ed
  end.

(** [importFlow(flowData)]: every exception is caught and logged, whatever
    had been done before it stays done. *)
Definition importFlow (ed : editor) (flowData : flowText) : editor :=
  match JSON_parse flowData with
  | None => ed
  | Some fl =>
      let ed1 := clearAll ed in
      match flow_nodes fl with
      | None => ed1
      | Some nds =>
          let ed2 := fold_left importNode nds ed1 in
          match flow_links fl with
          | None => ed2
          | Some lds => fold_left importLink lds ed2
          end
      end
  end.

(** *** The connect gesture *)

Inductive portType : Type := InputPort | OutputPort.

(** [endConnection()]. *)
Definition endConnection (ed : editor) : editor := withConnection ed false None.

(** [startConnection(sourceNode, outputIndex, e)]. *)
Definition startConnection (ed : editor) (sourceNode : option node) (outputIndex : nat) : editor :=
  withConnection ed true (Some (sourceNode, outputIndex)).

(** [onPortMouseDown(e)] on the port [portIndex] of kind [pt] of the node
    element carrying [data-node-id = nodeId]. *)
Definition onPortMouseDown (ed : editor) (nodeId : string) (pt : portType) (portIndex : nat) : editor :=
  match pt with
  | OutputPort => startConnection ed (mapGet (nodes ed) nodeId) portIndex
  | InputPort => ed
  end.

(** [onConnectionMouseUp(e)].  [target] is [Some (id, i)] when the mouse is
    released over input port [i] of the node element of [id], [None] over
    anything else.  An escaping TypeError ends the handler where it stands. *)
Definition onConnectionMouseUp (ed : editor) (target : option (string * nat)) : editor :=
  if isConnecting ed then
    match connectionStart ed with
    | None => ed
    | Some (startNode, startPort) =>
        match target with
        | Some (targetNodeId, targetPortIndex) =>
            match mapGet (nodes ed) targetNodeId with
            | Some targetNode =>
                match startNode with
                | Some sn =>
                    if negb (node_id targetNode =? node_id sn)
                    then endConnection (snd (createConnection ed sn startPort targetNode targetPortIndex))
                    else endConnection ed
                | None => withLinkCounter ed (S (linkCounter ed))
                end
            | None => endConnection ed
            end
        | None => endConnection ed
        end
    end
  else ed.

(** *** Sessions: sequences of store operations *)

Inductive op : Type :=
| CreateNode (ty : string) (px py : Z) (cfg : list (string * value))
| DeleteNode (nodeId : string)
| DeleteLink (linkId : string)
| MoveNode (nodeId : string) (px py : Z)
| ClearAll
| ImportFlow (flowData : flowText)
| PortMouseDown (nodeId : string) (pt : portType) (portIndex : nat)
| ConnectionMouseUp (target : option (string * nat)).

Definition step (ed : editor) (o : op) : editor :=
  match o with
  | CreateNode ty px py cfg => snd (createNode ed ty px py cfg)
  | DeleteNode nodeId => deleteNode ed nodeId
  | DeleteLink linkId => deleteLink ed linkId
  | MoveNode nodeId px py => moveNode ed nodeId px py
  | ClearAll => clearAll ed
  | ImportFlow flowData => importFlow ed flowData
  | PortMouseDown nodeId pt portIndex => onPortMouseDown ed nodeId pt portIndex
  | ConnectionMouseUp target => onConnectionMouseUp ed target
  end.

Definition run (ed : editor) (ops : list op) : editor := fold_left step ops ed.

(** The ids of the node objects [createNode] returned so far in a session,
    oldest first: the log is extended by every successful call, also by those
    [importFlow] makes. *)
Definition createdBy (ed : editor) (ty : string) (px py : Z) (cfg : list (string * value)) : list string :=
  match fst (createNode ed ty px py cfg) with
  | Some n => [node_id n]
  | None => []
  end.

Fixpoint createdByImport (ed : editor) (nds : list nodeData) : list string :=
  match nds with
  | [] => []
  | nd :: rest =>
      createdBy ed (nd_type nd) (nd_x nd) (nd_y nd) (nd_config nd)
        ++ createdByImport (importNode ed nd) rest
  end.

Definition produced (ed : editor) (o : op) : list string :=
  match o with
  | CreateNode ty px py cfg => createdBy ed ty px py cfg
  | ImportFlow flowData =>
      match JSON_parse flowData with
      | Some fl => match flow_nodes fl with
                   | Some nds => createdByImport (clearAll ed) nds
                   | None => []
                   end
      | None => []
      end
  | _ => []
  end.

Fixpoint producedIds (ed : editor) (ops : list op) : list string :=
  match ops with
  | [] => []
  | o :: rest => produced ed o ++ producedIds (step ed o) rest
  end.

(** The store invariant on links: both endpoints are keys of the node map. *)
Definition linkEndpointsPresent (ed : editor) : Prop :=
  forall l, In l (mapValues (links ed)) ->
    mapHas (nodes ed) (link_source l) = true /\ mapHas (nodes ed) (link_target l) = true.

(** A link scan: the links that mention [nodeId]. *)
Definition linksReferencing (ed : editor) (nodeId : string) : list link :=
  filter (fun l => (link_source l =? nodeId) || (link_target l =? nodeId)) (mapValues (links ed)).

(* ================================================================== *)
(** ** Message propagation engine *)

(** [node.config.<name>]. *)
Definition cfg (n : node) (name : string) : value :=
  match assoc name (config n) with
  | Some v => v
  | None => VUndefined
  end.

Definition setDebugOutputs (n : node) (d : option (list debugEntry)) : node :=
  {| node_id := node_id n; type := type n; x := x n; y := y n;
     width := width n; height := height n; config := config n;
     inputs := inputs n; outputs := outputs n;
     debugOutputs := d; accumulatedData := accumulatedData n;
     networkData := networkData n |}.

Definition setAccumulatedData (n : node) (d : option (list value)) : node :=
  {| node_id := node_id n; type := type n; x := x n; y := y n;
     width := width n; height := height n; config := config n;
     inputs := inputs n; outputs := outputs n;
     debugOutputs := debugOutputs n; accumulatedData := d;
     networkData := networkData n |}.

Definition setNetworkData (n : node) (d : option networkGraph) : node :=
  {| node_id := node_id n; type := type n; x := x n; y := y n;
     width := width n; height := height n; config := config n;
     inputs := inputs n; outputs := outputs n;
     debugOutputs := debugOutputs n; accumulatedData := accumulatedData n;
     networkData := d |}.

(** A pending timer of [sendMessage]: [receiveMessage(targetNode, message,
    link)] due 100 ms later.  The target node object and the link are named by
    their ids. *)
Record delivery : Type := {
  d_target : string;
  d_message : message;
  d_link : string
}.

(** [sendMessage(sourceNode, message)]: the deliveries it schedules, in order. *)
Definition sendMessage (ed : editor) (sourceNode : node) (m : message) : list delivery :=
  let outgoingLinks :=
    filter (fun l => link_source l =? node_id sourceNode) (mapValues (links ed)) in
  flat_map (fun l =>
              match mapGet (nodes ed) (link_target l) with
              | Some targetNode =>
                  [{| d_target := node_id targetNode; d_message := m; d_link := link_id l |}]
              | None => []
              end) outgoingLinks.

(** Lines 848-859 of [executeExampleDataNode(node)]: the message it builds and
    sends.  [parsed] is the outcome of the payload switch before them
    ([parseFloat], [JSON.parse]): [None] when it throws, and then nothing is
    sent.  [now] is [new Date().toISOString()]. *)
Definition executeExampleDataNode (ed : editor) (n : node) (parsed : option value) (now : string)
  : list delivery :=
  match parsed with
  | None => []
  | Some p =>
      let m := {| payload := p;
                  topic := js_or (cfg n "name") (VStr "exampleData");
                  timestamp := now;
                  source := Some (node_id n);
                  _msgid := None |} in
      sendMessage ed n m
  end.

(** [executeDebugNode(node, message)]; [now] is
    [new Date().toLocaleTimeString()]. *)
Definition executeDebugNode (n : node) (m : message) (now : string) : node :=
  let output :=
    if strict_eq (cfg n "complete") (VStr "payload")
    then DataPayload (payload m) else DataMessage m in
  let outs0 := match debugOutputs n with Some l => l | None => [] end in
  let debugEntry := {| de_timestamp := now; de_data := output; fullMessage := m |} in
  let outs1 := debugEntry :: outs0 in
  let outs2 := if (10 <? List.length outs1)%nat then firstn 10 outs1 else outs1 in
  setDebugOutputs n (Some outs2).

(** [executeFunctionNode(node, message)]: [{ ...message }] has the fields of
    [message]; the deliveries are those of [sendMessage(node, processedMessage)]. *)
Definition executeFunctionNode (ed : editor) (n : node) (m : message) : list delivery :=
  let processedMessage :=
    {| payload := payload m; topic := topic m; timestamp := timestamp m;
       source := source m; _msgid := _msgid m |} in
  sendMessage ed n processedMessage.

(** The payload normalisation of [executeDataTableNode]. *)
Definition normalizeRows (p : value) : list value :=
  match p with
  | VArr rows => rows
  | VObj _ => [p]
  | _ => [VObj [("value", p)]]
  end.

(** [executeDataTableNode(node, message)], up to the rendering. *)
Definition executeDataTableNode (n : node) (m : message) : node :=
  let newData := normalizeRows (payload m) in
  if truthy (cfg n "appendData") then
    let acc0 := match accumulatedData n with Some l => l | None => [] end in
    let acc1 := (acc0 ++ newData)%list in
    let maxRows := parseIntOr (cfg n "maxRows") 10 in
    let acc2 := if (maxRows <? Z.of_nat (List.length acc1))%Z
                then sliceFrom (- maxRows) acc1 else acc1 in
    setAccumulatedData n (Some acc2)
  else
    setAccumulatedData n (Some newData).

(** *** graphViz *)

Definition hasNode (g : networkGraph) (id : value) : bool :=
  existsb (fun gn => strict_eq (gn_id gn) id) (ng_nodes g).

Definition hasEdge (g : networkGraph) (s t : value) : bool :=
  existsb (fun e => strict_eq (ge_source e) s && strict_eq (ge_target e) t) (ng_edges g).

Definition pushNode (g : networkGraph) (gn : gvNode) : networkGraph :=
  {| ng_nodes := (ng_nodes g ++ [gn])%list; ng_edges := ng_edges g |}.

Definition pushEdge (g : networkGraph) (e : gvEdge) : networkGraph :=
  {| ng_nodes := ng_nodes g; ng_edges := (ng_edges g ++ [e])%list |}.

(** [item[key]] for an item that is an object or an array. *)
Definition prop (item : value) (key : string) : value :=
  match getProp item key with
  | Some v => v
  | None => VUndefined
  end.

(** The node pushed for an endpoint that is not yet in the mini-graph. *)
Definition ensureNode (nodeIdField : string) (g : networkGraph) (id : value) : networkGraph :=
  if hasNode g id then g
  else pushNode g {| gn_id := id; gn_label := id;
                     gn_originalData := VObj [(nodeIdField, id)] |}.

(** The body of [value.forEach(v => ...)] in the nested-relationship scan. *)
Definition arrayConnection (nodeIdField key : string) (nodeId : value)
           (g : networkGraph) (v : value) : networkGraph :=
  match v with
  | VStr _ | VNum _ =>
      if truthy nodeId && negb (strict_eq v nodeId) then
        if hasEdge g nodeId v then g
        else
          let g1 := pushEdge g {| ge_source := nodeId; ge_target := v;
                                  ge_originalData :=
                                    VObj [("type", VStr "array_connection");
                                          ("key", VStr key)] |} in
          ensureNode nodeIdField g1 v
      else g
  | _ => g
  end.

(** [processDataItem(node, item, nodeIdField, nodeLabelField, edgeSourceField,
    edgeTargetField)] on the mini-graph [g] of the node. *)
Definition processDataItem (g : networkGraph) (item : value)
           (nodeIdField nodeLabelField edgeSourceField edgeTargetField : string)
  : networkGraph :=
  let nodeId := prop item nodeIdField in
  let nodeLabel := js_or (prop item nodeLabelField) nodeId in
  let g1 :=
    if truthy nodeId then
      if hasNode g nodeId then g
      else pushNode g {| gn_id := nodeId; gn_label := nodeLabel; gn_originalData := item |}
    else g in
  let sourceId := prop item edgeSourceField in
  let targetId := prop item edgeTargetField in
  let g2 :=
    if truthy sourceId && truthy targetId then
      if hasEdge g1 sourceId targetId then g1
      else
        let g' := pushEdge g1 {| ge_source := sourceId; ge_target := targetId;
                                 ge_originalData := item |} in
        fold_left (ensureNode nodeIdField) [sourceId; targetId] g'
    else g1 in
  fold_left
    (fun g' key =>
       match prop item key with
       | VArr vs => fold_left (arrayConnection nodeIdField key nodeId) vs g'
       | _ => g'
       end)
    (objectKeys item) g2.

(** [xs.map(f)] for a callback that may throw. *)
Fixpoint mapThrowing {A B : Type} (f : A -> option B) (l : list A) : option (list B) :=
  match l with
  | [] => Some []
  | a :: l' =>
      match f a with
      | Some b => match mapThrowing f l' with
                  | Some bs => Some (b :: bs)
                  | None => None
                  end
      | None => None
      end
  end.

Definition emptyGraph : networkGraph := {| ng_nodes := []; ng_edges := [] |}.

(** [processNetworkData(node, data)]: the value of [node.networkData] when the
    call returns or throws.  The layout that follows moves nodes only. *)
Definition processNetworkData (n : node) (data : value) : networkGraph :=
  let nodeIdField := toString (js_or (cfg n "nodeIdField") (VStr "id")) in
  let nodeLabelField := toString (js_or (cfg n "nodeLabelField") (VStr "name")) in
  let edgeSourceField := toString (js_or (cfg n "edgeSourceField") (VStr "source")) in
  let edgeTargetField := toString (js_or (cfg n "edgeTargetField") (VStr "target")) in
  (* Clear existing data *)
  let g0 := emptyGraph in
  match data with
  | VArr items =>
      fold_left
        (fun g item =>
           if isObject item
           then processDataItem g item nodeIdField nodeLabelField edgeSourceField edgeTargetField
           else g)
        items g0
  | VObj _ =>
      if truthy (prop data "nodes") && truthy (prop data "edges") then
        let mkNode (v : value) : option gvNode :=
          match getProp v nodeIdField, getProp v nodeLabelField, getProp v "name", getProp v "id" with
          | Some byField, Some byLabel, Some name, Some id =>
              Some {| gn_id := js_or byField id;
                      gn_label := js_or (js_or byLabel name) id;
                      gn_originalData := v |}
          | _, _, _, _ => None
          end in
        let mkEdge (e : value) : option gvEdge :=
          match getProp e edgeSourceField, getProp e edgeTargetField,
                getProp e "source", getProp e "target" with
          | Some s, Some t, Some s', Some t' =>
              Some {| ge_source := js_or s s'; ge_target := js_or t t';
                      ge_originalData := e |}
          | _, _, _, _ => None
          end in
        match prop data "nodes" with
        | VArr ns =>
            match mapThrowing mkNode ns with
            | Some gns =>
                let g1 := {| ng_nodes := gns; ng_edges := [] |} in
                match prop data "edges" with
                | VArr es =>
                    match mapThrowing mkEdge es with
                    | Some ges => {| ng_nodes := gns; ng_edges := ges |}
                    | None => g1
                    end
                | _ => g1
                end
            | None => g0
            end
        | _ => g0
        end
      else
        processDataItem g0 data nodeIdField nodeLabelField edgeSourceField edgeTargetField
  | _ => g0
  end.

(** [executeGraphVizNode(node, message)], up to the rendering. *)
Definition executeGraphVizNode (n : node) (m : message) : node :=
  let data := payload m in
  let n1 := match networkData n with
            | Some _ => n
            | None => setNetworkData n (Some emptyGraph)
            end in
  setNetworkData n1 (Some (processNetworkData n1 data)).

(** [receiveMessage(node, message, link)]: the node object after the handler
    and the deliveries the handler schedules.  [executeChartNode] sends
    nothing; the points it pushes into [node.graphData] are floating-point
    values and are no part of the node record, so that for a chartNode the
    first component is the node apart from that buffer. *)
Definition receiveMessage (ed : editor) (n : node) (m : message) (now : string)
  : node * list delivery :=
  if type n =? "debug" then (executeDebugNode n m now, [])
  else if type n =? "output" then (n, [])
  else if type n =? "function" then (n, executeFunctionNode ed n m)
  else if type n =? "dataTable" then (executeDataTableNode n m, [])
  else if type n =? "chartNode" then (n, [])
  else if type n =? "graphViz" then (executeGraphVizNode n m, [])
  else (n, []).

(** A node receiving a sequence of messages, each with its clock reading. *)
Definition receiveAll (ed : editor) (n : node) (ms : list (message * string)) : node :=
  fold_left (fun n' mt => fst (receiveMessage ed n' (fst mt) (snd mt))) ms n.

(* ================================================================== *)
(** ** Network-data generator *)

(** A generated node and edge.  The random attributes added under
    [includeAttributes] (role, age, weight, ...) decorate them only and are
    not modelled. *)
Record simNode : Type := {
  sn_id : string;
  sn_label : string;
  sn_type : string
}.

Record simEdge : Type := {
  se_source : string;
  se_target : string
}.

Record simMetadata : Type := {
  md_networkType : string;
  md_nodeCount : nat;
  md_linkCount : nat;
  md_connectivity : spec_float
}.

Record simData : Type := {
  sim_nodes : list simNode;
  sim_edges : list simEdge;
  sim_metadata : simMetadata
}.

Definition socialNames : list string :=
  ["Alice"; "Bob"; "Charlie"; "Diana"; "Eve"; "Frank"; "Grace"; "Henry"; "Iris"; "Jack"].

Definition techTypes : list string :=
  ["Server"; "Database"; "API"; "Frontend"; "Gateway"; "Cache"; "Queue"; "Service"].

(** The node built at index [i] of the loop of each network type. *)
Definition simNodeAt (networkType : string) (i : nat) : simNode :=
  if networkType =? "social" then
    {| sn_id := "person_" ++ decimal i;
       sn_label := nth i socialNames ("Person " ++ decimal i);
       sn_type := "person" |}
  else if networkType =? "organizational" then
    {| sn_id := "emp_" ++ decimal i;
       sn_label := "Employee " ++ decimal (i + 1);
       sn_type := "employee" |}
  else if networkType =? "technical" then
    {| sn_id := "tech_" ++ decimal i;
       sn_label := nth (i mod List.length techTypes) techTypes "" ++ "-"
                     ++ decimal (i / List.length techTypes + 1);
       sn_type := "component" |}
  else
    {| sn_id := "node_" ++ decimal i;
       sn_label := "Node " ++ decimal (i + 1);
       sn_type := "generic" |}.

Definition simNodes (networkType : string) (nodeCount : nat) : list simNode :=
  map (simNodeAt networkType) (seq 0 nodeCount).

(** [`${Math.min(source, target)}-${Math.max(source, target)}`]. *)
Definition pairKey (source target : nat) : string :=
  decimal (Nat.min source target) ++ "-" ++ decimal (Nat.max source target).

(** [usedPairs.has(key)] on the set kept as the list of its elements. *)
Definition setHas (usedPairs : list string) (key : string) : bool :=
  existsb (String.eqb key) usedPairs.

(** The do-while loop of one edge.  [rnd k] is the value of the [k]-th
    evaluation of [Math.floor(Math.random() * nodeCount)]; [attempts] counts
    the pairs drawn so far and [budget] is [targetLinkCount * 2 - attempts],
    so after [attempts++] the [break] is taken exactly when [budget] is [0].
    The result is the last pair drawn, its key, the final value of
    [attempts] and the number of the next draw. *)
Fixpoint drawPair (rnd : nat -> nat) (usedPairs : list string) (budget attempts k : nat)
  : nat * nat * string * nat * nat :=
  let source := rnd k in
  let target := rnd (S k) in
  let key := pairKey source target in
  match budget with
  | O => (source, target, key, S attempts, S (S k))
  | S budget' =>
      if (source =? target)%nat || setHas usedPairs key
      then drawPair rnd usedPairs budget' (S attempts) (S (S k))
      else (source, target, key, S attempts, S (S k))
  end.

(** The for loop over the target number of links, [iters] rounds to go.
    Next to the edges it keeps, for each round in order, the value of
    [attempts] when the do-while loop of the round was left.  [None] is the
    TypeError of [nodes[source].id] on an index out of range. *)
Fixpoint linkLoop (rnd : nat -> nat) (simnodes : list simNode) (targetLinkCount iters : nat)
         (usedPairs : list string) (acc : list simEdge) (attemptsLog : list nat) (k : nat)
  : option (list simEdge * list nat) :=
  match iters with
  | O => Some (acc, attemptsLog)
  | S iters' =>
      let '(source, target, key, attempts, k') :=
        drawPair rnd usedPairs (targetLinkCount * 2) 0 k in
      if negb (source =? target)%nat && negb (setHas usedPairs key) then
        match nth_error simnodes source, nth_error simnodes target with
        | Some a, Some b =>
            linkLoop rnd simnodes targetLinkCount iters' (key :: usedPairs)
                     (acc ++ [{| se_source := sn_id a; se_target := sn_id b |}])%list
                     (attemptsLog ++ [attempts])%list k'
        | _, _ => None
        end
      else linkLoop rnd simnodes targetLinkCount iters' usedPairs acc
                    (attemptsLog ++ [attempts])%list k'
  end.

(** *** Double-precision arithmetic *)

(** The double of an integer, and [*], [-], [/] on doubles: binary64 is
    precision 53 with exponents below 1024. *)
Definition toDouble (z : Z) : spec_float := binary_normalize 53 1024 z 0 false.
Definition mulDouble : spec_float -> spec_float -> spec_float := SFmul 53 1024.
Definition subDouble : spec_float -> spec_float -> spec_float := SFsub 53 1024.
Definition divDouble : spec_float -> spec_float -> spec_float := SFdiv 53 1024.

(** The double a decimal literal with the value [a / b] denotes, for
    integers [a] and [b] that are doubles themselves: [0.3] is
    [ratio 3 10]. *)
Definition ratio (a b : Z) : spec_float := divDouble (toDouble a) (toDouble b).

(** The values of [Math.floor]: an integer, or the argument itself when it
    is infinite or not a number. *)
Inductive floored : Type :=
| Integer (z : Z)
| PlusInfinity
| MinusInfinity
| NotANumber.

(** [Math.floor(x)]; the finite double with mantissa [m] and exponent [e]
    is [m * 2 ^ e]. *)
Definition mathFloor (x : spec_float) : floored :=
  match x with
  | S754_zero _ => Integer 0
  | S754_infinity false => PlusInfinity
  | S754_infinity true => MinusInfinity
  | S754_nan => NotANumber
  | S754_finite s m e =>
      let z := if s then Z.neg m else Z.pos m in
      Integer (if (0 <=? e)%Z then z * 2 ^ e else z / 2 ^ (- e))%Z
  end.

(** [Math.floor(maxPossibleLinks * connectivity)] with
    [maxPossibleLinks = (nodeCount * (nodeCount - 1)) / 2]. *)
Definition targetLinkCount (nodeCount : nat) (connectivity : spec_float) : floored :=
  let n := toDouble (Z.of_nat nodeCount) in
  let maxPossibleLinks := divDouble (mulDouble n (subDouble n (toDouble 1))) (toDouble 2) in
  mathFloor (mulDouble maxPossibleLinks connectivity).

(** The number of rounds of [for (let i = 0; i < targetLinkCount; i++)]:
    none when the comparison fails at [i = 0], which it does against a
    target that is negative, zero or not a number.  The counters [i] and
    [attempts] are doubles and count exactly below [2 ^ 53]; [None] is a
    target from [2 ^ 52] on ([+Infinity] among them), where
    [targetLinkCount * 2] leaves that range and the loops are not
    modelled. *)
Definition rounds (targetLinkCount : floored) : option nat :=
  match targetLinkCount with
  | Integer z => if (z <? 2 ^ 52)%Z then Some (Z.to_nat z) else None
  | PlusInfinity => None
  | MinusInfinity => Some 0%nat
  | NotANumber => Some 0%nat
  end.

(** [generateNetworkData(networkType, nodeCount, connectivity,
    includeAttributes)] for a node count that is a natural number, together
    with the attempts of each round of its for loop.  [None]: the call
    returns no value. *)
Definition generateNetworkDataLog (rnd : nat -> nat) (networkType : string) (nodeCount : nat)
           (connectivity : spec_float) : option (simData * list nat) :=
  let simnodes := simNodes networkType nodeCount in
  match rounds (targetLinkCount nodeCount connectivity) with
  | Some target =>
      match linkLoop rnd simnodes target target [] [] [] 0 with
      | Some (edges, attemptsLog) =>
          Some ({| sim_nodes := simnodes;
                   sim_edges := edges;
                   sim_metadata := {| md_networkType := networkType;
                                      md_nodeCount := nodeCount;
                                      md_linkCount := List.length edges;
                                      md_connectivity := connectivity |} |},
                attemptsLog)
      | None => None
      end
  | None => None
  end.

(** [generateNetworkData(networkType, nodeCount, connectivity,
    includeAttributes)]. *)
Definition generateNetworkData (rnd : nat -> nat) (networkType : string) (nodeCount : nat)
           (connectivity : spec_float) : option simData :=
  option_map fst (generateNetworkDataLog rnd networkType nodeCount connectivity).

(** Two edges join the same unordered pair of nodes. *)
Definition samePair (e1 e2 : simEdge) : Prop :=
  (se_source e1 = se_source e2 /\ se_target e1 = se_target e2)
  \/ (se_source e1 = se_target e2 /\ se_target e1 = se_source e2).

(** No two edges of the list join the same unordered pair. *)
Fixpoint noDuplicatePair (es : list simEdge) : Prop :=
  match es with
  | [] => True
  | e :: rest => (forall e', In e' rest -> ~ samePair e e') /\ noDuplicatePair rest
  end.

(* ================================================================== *)
(** ** Vocabulary of the statements *)

(** The debug entries a node holds; none before the first message. *)
Definition retainedEntries (n : node) : list debugEntry :=
  match debugOutputs n with Some l => l | None => [] end.

(** The entry [executeDebugNode] records for a message received at [now]. *)
Definition entryFor (n : node) (mt : message * string) : debugEntry :=
  {| de_timestamp := snd mt;
     de_data := if strict_eq (cfg n "complete") (VStr "payload")
                then DataPayload (payload (fst mt)) else DataMessage (fst mt);
     fullMessage := fst mt |}.

(** The rows a dataTable node holds; none before the first message. *)
Definition accumulatedRows (n : node) : list value :=
  match accumulatedData n with Some l => l | None => [] end.

(** The last [k] elements of a list, in order. *)
Definition lastn {A : Type} (k : nat) (l : list A) : list A :=
  skipn (List.length l - k) l.

(* ================================================================== *)
(** ** Scenarios *)

(** The scenario of the specification: twelve messages into a fresh debug
    node. *)
Definition debugNode0 : node :=
  {| node_id := "node_1"; type := "debug"; x := 0; y := 0; width := 120; height := 40;
     config := [("name", VStr ""); ("complete", VStr "payload"); ("console", VBool true)];
     inputs := Some 1; outputs := Some 0;
     debugOutputs := None; accumulatedData := None; networkData := None |}.

Definition numbered (i : nat) : message * string :=
  ({| payload := VNum (Z.of_nat i); topic := VStr "exampleData";
      timestamp := decimal i; source := Some "node_0"; _msgid := None |}, decimal i).


Definition rowMessage (i : nat) : message * string :=
  ({| payload := VObj [("reading", VNum (Z.of_nat i))]; topic := VStr "exampleData";
      timestamp := decimal i; source := Some "node_0"; _msgid := None |}, decimal i).

(** The scenario of the specification: an exampleData node wired to a
    function node wired to a debug node. *)
Definition pipeline : editor :=
  run newEditor
      [ CreateNode "exampleData" 0 0 [("dataType", VStr "string"); ("payload", VStr "hello")];
        CreateNode "function" 200 0 [];
        CreateNode "debug" 400 0 [];
        PortMouseDown "node_1" OutputPort 0; ConnectionMouseUp (Some ("node_2", 0%nat));
        PortMouseDown "node_2" OutputPort 0; ConnectionMouseUp (Some ("node_3", 0%nat)) ].

(** Every edge of a mini-graph has both endpoints among its nodes. *)
Definition edgesClosed (g : networkGraph) : Prop :=
  forall e, In e (ng_edges g) ->
    hasNode g (ge_source e) = true /\ hasNode g (ge_target e) = true.

(** The scenario of the specification: a graphViz node with its default
    configuration, and a message holding an array of items. *)
Definition graphNode0 : node :=
  {| node_id := "node_1"; type := "graphViz"; x := 0; y := 0; width := 120; height := 40;
     config := [("name", VStr ""); ("nodeIdField", VStr "id"); ("nodeLabelField", VStr "name");
                ("edgeSourceField", VStr "source"); ("edgeTargetField", VStr "target");
                ("nodeSize", VNum 15); ("showLabels", VBool true); ("layoutType", VStr "force")];
     inputs := Some 1; outputs := Some 0;
     debugOutputs := None; accumulatedData := None; networkData := None |}.

Definition itemsMessage (items : list value) : message :=
  {| payload := VArr items; topic := VStr "exampleData";
     timestamp := "2024-01-01T12:00:00.000Z"; source := Some "node_0"; _msgid := None |}.


(** The pipeline after its first node was deleted: the nodes [node_2] and
    [node_3] joined by the link [link_2]. *)
Definition trimmedPipeline : editor := deleteNode pipeline "node_1".

(** Four nodes in a row, the two function nodes joined by a link, after the
    first node was deleted: [node_2] at x = 100 is linked to [node_3] at
    x = 200, and [node_4] at x = 300 is on its own. *)
Definition shiftedStore : editor :=
  run newEditor
      [ CreateNode "exampleData" 0 0 []; CreateNode "function" 100 0 [];
        CreateNode "function" 200 0 []; CreateNode "debug" 300 0 [];
        PortMouseDown "node_2" OutputPort 0; ConnectionMouseUp (Some ("node_3", 0%nat));
        DeleteNode "node_1" ].

(** The positions of the two ends of every link of a store, when both are
    stored. *)
Definition linkedPositions (ed : editor) : list (option Z * option Z) :=
  map (fun l => (option_map x (mapGet (nodes ed) (link_source l)),
                 option_map x (mapGet (nodes ed) (link_target l))))
      (mapValues (links ed)).

(** A document that parses and has a [nodes] array but no [links] array, and
    one that has neither. *)
Definition documentWithoutLinks : flowText :=
  TextOf {| flow_nodes := Some [{| nd_id := "node_1"; nd_type := "debug"; nd_x := 0; nd_y := 0;
                                   nd_config := [] |}];
            flow_links := None |}.

Definition emptyObjectDocument : flowText :=
  TextOf {| flow_nodes := None; flow_links := None |}.

(** A document whose one link joins a node to itself on ports beyond its
    arity. *)
Definition selfLinkDocument : flowText :=
  TextOf {| flow_nodes := Some [{| nd_id := "node_1"; nd_type := "function"; nd_x := 0; nd_y := 0;
                                   nd_config := [] |}];
            flow_links := Some [{| ld_source := "node_1"; ld_sourcePort := 9;
                                   ld_target := "node_1"; ld_targetPort := 9 |}] |}.

(** Every id of the list is [node_k] for a counter value [k] with
    [lo < k <= hi]. *)
Definition idsBetween (lo hi : nat) (ids : list string) : Prop :=
  forall id, In id ids -> exists k, id = "node_" ++ decimal k /\ (lo < k <= hi)%nat.

(** Every node object is stored under its own id. *)
Definition keysMatch (ed : editor) : Prop :=
  forall k n, In (k, n) (nodes ed) -> node_id n = k.

(** A connect gesture interrupted by a deletion: two nodes are created, the
    mouse goes down on the output port of [node_1], and [node_1] is deleted
    (Delete key on the selected node) before the mouse is released. *)
Definition interruptedGesture : editor :=
  run newEditor
      [ CreateNode "function" 0 0 []; CreateNode "debug" 200 0 [];
        PortMouseDown "node_1" OutputPort 0; DeleteNode "node_1" ].

(** The edge [generateNetworkData] builds between the nodes at two indices. *)
Definition edgeBetween (networkType : string) (source target : nat) : simEdge :=
  {| se_source := sn_id (simNodeAt networkType source);
     se_target := sn_id (simNodeAt networkType target) |}.

(** What the edge loop maintains: every edge joins two distinct nodes by
    their indices and its pair is recorded in [usedPairs]; no unordered pair
    occurs twice. *)
Definition edgesRecorded (networkType : string) (nodeCount : nat)
           (usedPairs : list string) (acc : list simEdge) : Prop :=
  (forall e, In e acc ->
     exists s t, (s < nodeCount)%nat /\ (t < nodeCount)%nat /\ s <> t
                 /\ e = edgeBetween networkType s t
                 /\ setHas usedPairs (pairKey s t) = true)
  /\ noDuplicatePair acc.

(** A source of draws for the scenario of the specification. *)
Definition sampleDraws (k : nat) : nat := (k * 5 + 3) mod 8.

(* ================================================================== *)
(** ** Further operations of the editor *)

(** [deleteSelected()]. *)
Definition deleteSelected (ed : editor) : editor :=
  match selectedNode ed with
  | Some nodeId => deleteNode ed nodeId
  | None =>
      match selectedLink ed with
      | Some linkId => deleteLink ed linkId
      | None => ed
      end
  end.

(** [onKeyDown(e)] for the key [e.key]. *)
Definition onKeyDown (ed : editor) (key : string) : editor :=
  if (key =? "Delete") || (key =? "Backspace") then deleteSelected ed
  else if key =? "Escape" then
    let ed1 := clearSelection ed in
    if isConnecting ed1 then endConnection ed1 else ed1
  else ed.

(** [onNodeMouseDown(e)] on the node element of [nodeId]: the node is
    selected.  The drag state it also arms belongs to the move gesture, whose
    positions are floating-point and which is not modelled. *)
Definition onNodeMouseDown (ed : editor) (nodeId : string) : editor :=
  match mapGet (nodes ed) nodeId with
  | None => ed
  | Some n => selectNode ed n
  end.

(** The click listener [createConnection] puts on the path of a link: it
    selects that link object.  The path of [linkId] exists as long as the
    link is stored. *)
Definition onLinkClick (ed : editor) (linkId : string) : editor :=
  match mapGet (links ed) linkId with
  | None => ed
  | Some l => selectLink ed l
  end.

(** [onCanvasClick(e)] and [onCanvasMouseDown(e)]; [onBackground] says that
    the target is the canvas itself or its background. *)
Definition onCanvasClick (ed : editor) (onBackground : bool) : editor :=
  if onBackground then clearSelection ed else ed.

Definition setConfig (n : node) (c : list (string * value)) : node :=
  {| node_id := node_id n; type := type n; x := x n; y := y n;
     width := width n; height := height n; config := c;
     inputs := inputs n; outputs := outputs n;
     debugOutputs := debugOutputs n; accumulatedData := accumulatedData n;
     networkData := networkData n |}.

(** [Object.assign(target, source)] on property lists. *)
Definition objectAssign (target source : list (string * value)) : list (string * value) :=
  fold_left (fun acc kv => setField (fst kv) (snd kv) acc) source target.

(** An element of the configuration dialog as [saveNodeConfig] reads it: its
    [name], [type], [checked] and [value] properties.  The elements are those
    [modal.querySelectorAll('[data-field]')] finds. *)
Record formField : Type := {
  ff_name : string;
  ff_type : string;
  ff_checked : bool;
  ff_value : string
}.

(** The element [showNodeConfig] writes for a configuration field of type
    [fieldType], holding what the user has entered: a [textarea], a checkbox
    [input], a [select] or an [input] of the type of the field.  The markup
    gives it the attributes class, data-field, type, value or checked, and no
    name attribute, so that its [name] is the empty string. *)
Definition dialogElement (fieldType : string) (checked : bool) (value : string) : formField :=
  {| ff_name := "";
     ff_type := if fieldType =? "textarea" then "textarea"
                else if fieldType =? "select" then "select-one"
                else fieldType;
     ff_checked := checked;
     ff_value := value |}.

(** [field.type === 'checkbox' ? field.checked : field.value]. *)
Definition fieldValue (field : formField) : value :=
  if ff_type field =? "checkbox" then VBool (ff_checked field) else VStr (ff_value field).

(** The object [saveNodeConfig] builds: [config[field.name] = value] for each
    field in document order. *)
Definition formConfig (fields : list formField) : list (string * value) :=
  fold_left (fun config field => setField (ff_name field) (fieldValue field) config) fields [].

(** [saveNodeConfig()].  The modal supplies its [data-node-type], its
    [data-node-id] ([None] when the attribute was deleted) and its fields;
    [cx], [cy] is the centre of the canvas, where a new node is put. *)
Definition saveNodeConfig (ed : editor) (modalNodeType : string) (modalNodeId : option string)
           (fields : list formField) (cx cy : Z) : editor :=
  match modalNodeId with
  | Some nodeId =>
      if nodeId =? "" then snd (createNode ed modalNodeType cx cy (formConfig fields))
      else
        match mapGet (nodes ed) nodeId with
        | Some n =>
            withNodes ed (mapSet (nodes ed) nodeId
                                 (setConfig n (objectAssign (config n) (formConfig fields))))
        | None => ed
        end
  | None => snd (createNode ed modalNodeType cx cy (formConfig fields))
  end.

(** [clearDebugOutput(nodeId)], [clearTableData(nodeId)],
    [clearNetworkData(nodeId)]. *)
Definition clearDebugOutput (ed : editor) (nodeId : string) : editor :=
  match mapGet (nodes ed) nodeId with
  | Some n =>
      match debugOutputs n with
      | Some _ => withNodes ed (mapSet (nodes ed) nodeId (setDebugOutputs n (Some [])))
      | None => ed
      end
  | None => ed
  end.

Definition clearTableData (ed : editor) (nodeId : string) : editor :=
  match mapGet (nodes ed) nodeId with
  | Some n => withNodes ed (mapSet (nodes ed) nodeId (setAccumulatedData n (Some [])))
  | None => ed
  end.

Definition clearNetworkData (ed : editor) (nodeId : string) : editor :=
  match mapGet (nodes ed) nodeId with
  | Some n => withNodes ed (mapSet (nodes ed) nodeId (setNetworkData n (Some emptyGraph)))
  | None => ed
  end.

(** *** The timers of [sendMessage] *)

(** A timer of [sendMessage] fires: [receiveMessage] runs on the target node
    object, which the handler updates in place, and schedules the deliveries
    of the handler.  A target deleted while its timer was pending is handled
    on a detached object that the store does not show; the model lets such a
    delivery lapse. *)
Definition deliver (ed : editor) (d : delivery) (now : string) : editor * list delivery :=
  match mapGet (nodes ed) (d_target d) with
  | Some n =>
      let r := receiveMessage ed n (d_message d) now in
      (withNodes ed (mapSet (nodes ed) (d_target d) (fst r)), snd r)
  | None => (ed, [])
  end.

(** The pending timers fire in the order they were set (all with the same
    delay); [clock t] is the clock reading at the [t]-th firing.  At most
    [fuel] timers are run. *)
Fixpoint runTimers (clock : nat -> string) (tick fuel : nat) (ed : editor)
         (pending : list delivery) : editor * list delivery :=
  match fuel with
  | O => (ed, pending)
  | S fuel' =>
      match pending with
      | [] => (ed, [])
      | d :: rest =>
          let r := deliver ed d (clock tick) in
          runTimers clock (S tick) fuel' (fst r) (rest ++ snd r)
      end
  end.

(** *** Events of a session *)

Inductive event : Type :=
| Store (o : op)
| NodeMouseDown (nodeId : string)
| LinkClick (linkId : string)
| CanvasClick (onBackground : bool)
| KeyDown (key : string)
| SaveNodeConfig (modalNodeType : string) (modalNodeId : option string)
                 (fields : list formField) (cx cy : Z)
| ClearDebugOutput (nodeId : string)
| ClearTableData (nodeId : string)
| ClearNetworkData (nodeId : string)
| TimerFires (d : delivery) (now : string).

Definition handle (ed : editor) (e : event) : editor :=
  match e with
  | Store o => step ed o
  | NodeMouseDown nodeId => onNodeMouseDown ed nodeId
  | LinkClick linkId => onLinkClick ed linkId
  | CanvasClick onBackground => onCanvasClick ed onBackground
  | KeyDown key => onKeyDown ed key
  | SaveNodeConfig ty nodeId form cx cy => saveNodeConfig ed ty nodeId form cx cy
  | ClearDebugOutput nodeId => clearDebugOutput ed nodeId
  | ClearTableData nodeId => clearTableData ed nodeId
  | ClearNetworkData nodeId => clearNetworkData ed nodeId
  | TimerFires d now => fst (deliver ed d now)
  end.

Definition handleAll (ed : editor) (es : list event) : editor := fold_left handle es ed.

(** The objects of the store sit under their own ids, no key occurs twice,
    and every id was handed out by the counter of its kind. *)
Definition nodesWellFormed (ed : editor) : Prop :=
  NoDup (map fst (nodes ed))
  /\ forall k n, In (k, n) (nodes ed) ->
       node_id n = k
       /\ exists i, k = "node_" ++ decimal i /\ (1 <= i <= nodeCounter ed)%nat.

Definition linksWellFormed (ed : editor) : Prop :=
  NoDup (map fst (links ed))
  /\ forall k l, In (k, l) (links ed) ->
       link_id l = k
       /\ exists i, k = "link_" ++ decimal i /\ (1 <= i <= linkCounter ed)%nat.

(** At most one object is selected, and it is in the store. *)
Definition selectionValid (ed : editor) : Prop :=
  match selectedNode ed, selectedLink ed with
  | Some _, Some _ => False
  | Some nodeId, None => mapHas (nodes ed) nodeId = true
  | None, Some linkId => mapHas (links ed) linkId = true
  | None, None => True
  end.

Definition wellFormed (ed : editor) : Prop :=
  nodesWellFormed ed /\ linksWellFormed ed /\ selectionValid ed.

(** The configuration of a node starts with the properties of the defaults
    of its type, in their order, and names no property twice: the shape
    [{ ...defaults, ...overrides }] gives it and later edits keep. *)
Definition configClosed (n : node) : Prop :=
  exists d rest,
    lookupType (type n) = Some d
    /\ NoDup (map fst (config n))
    /\ map fst (config n) = (map fst (objectAssign [] (defaults d)) ++ rest)%list.

Definition configsClosed (ed : editor) : Prop :=
  forall k n, In (k, n) (nodes ed) -> configClosed n.

(** The entry [exportFlow] writes for a node object and for a link. *)
Definition nodeDataOf (n : node) : nodeData :=
  {| nd_id := node_id n; nd_type := type n; nd_x := x n; nd_y := y n;
     nd_config := config n |}.

Definition linkDataOf (l : link) : linkData :=
  {| ld_source := link_source l; ld_sourcePort := sourcePort l;
     ld_target := link_target l; ld_targetPort := targetPort l |}.

(** The ids [createNode] gives to [length ids] nodes created in a row when
    the counter stands at [c]. *)
Definition numberedFrom (c : nat) (ids : list string) : Prop :=
  ids = map (fun i => "node_" ++ decimal (c + i)) (seq 1 (List.length ids)).

(* ================================================================== *)
(** ** Rendering of a data table *)

(** [l.slice(0, stop)]. *)
Definition sliceTo {A : Type} (stop : Z) (l : list A) : list A :=
  let len := Z.of_nat (List.length l) in
  let upto := if (stop <? 0)%Z then Z.max (len + stop) 0 else Z.min stop len in
  firstn (Z.to_nat upto) l.

(** [truncateText(text, maxWidth)]; a string is the sequence of its code
    units, [maxWidth] is an integer number of pixels. *)
Definition truncateText (text : value) (maxWidth : Z) : string :=
  match text with
  | VStr s =>
      let maxChars := (maxWidth / 6)%Z in
      if (Z.of_nat (String.length s) <=? maxChars)%Z then s
      else substring 0 (Z.to_nat (maxChars - 3)) s ++ "..."
  | _ => ""
  end.

(** [allKeys.add(key)] on a [Set] kept in insertion order. *)
Definition setAdd (allKeys : list string) (key : string) : list string :=
  if existsb (String.eqb key) allKeys then allKeys else (allKeys ++ [key])%list.

(** The column headers: the keys of the displayed rows that are objects, in
    order of first occurrence. *)
Definition tableColumns (displayData : list value) : list string :=
  fold_left (fun allKeys item =>
               if isObject item then fold_left setAdd (objectKeys item) allKeys
               else allKeys)
            displayData [].

(** What [renderDataTable] puts on the canvas: the column keys, the header
    texts (none when [showHeaders] is off), the cell texts row by row, the
    size of the background rectangle and the presence of the clear button.
    Positions, colours and fonts of the SVG elements are left out. *)
Record dataTable : Type := {
  dt_columns : list string;
  dt_headers : list string;
  dt_rows : list (list string);
  dt_width : Z;
  dt_height : Z;
  dt_clearButton : bool
}.

Inductive rendering : Type :=
| NothingRendered
| RenderingThrows
| Rendered (t : dataTable).

(** The rows [renderDataTable] displays. *)
Definition displayData (n : node) (data : list value) : list value :=
  sliceTo (parseIntOr (cfg n "maxRows") 10) data.

(** The text of one data cell; [None] is the TypeError of [item[column]]. *)
Definition cellText (cellWidth : Z) (item : value) (column : string) : option string :=
  match getProp item column with
  | None => None
  | Some v =>
      let displayValue := match v with
                          | VUndefined | VNull => ""
                          | _ => toString v
                          end in
      Some (truncateText (VStr displayValue) (cellWidth - 10))
  end.

(** [renderDataTable(node, data)]. *)
Definition renderDataTable (n : node) (data : list value) : rendering :=
  match data with
  | [] => NothingRendered
  | _ :: _ =>
      let shown := displayData n data in
      let columns := tableColumns shown in
      let cellWidth := if truthy (cfg n "autoWidth") then 120%Z else 100%Z in
      let cellHeight := 20%Z in
      let headerHeight := if truthy (cfg n "showHeaders") then cellHeight else 0%Z in
      let headers :=
        if truthy (cfg n "showHeaders")
        then map (fun column => truncateText (VStr column) (cellWidth - 10)) columns
        else [] in
      match mapThrowing (fun item => mapThrowing (cellText cellWidth item) columns) shown with
      | None => RenderingThrows
      | Some rows =>
          Rendered {| dt_columns := columns;
                      dt_headers := headers;
                      dt_rows := rows;
                      dt_width := Z.of_nat (List.length columns) * cellWidth;
                      dt_height := headerHeight + Z.of_nat (List.length shown) * cellHeight;
                      dt_clearButton := truthy (cfg n "appendData") |}
      end
  end.

(** The table [executeDataTableNode(node, message)] renders after it has
    updated the accumulator: [displayData] is the accumulator in append mode
    and the rows of the message, which it has just stored, in replace mode.
    An exception of the rendering is caught and logged; the table removed
    before the rendering stays removed. *)
Definition renderedTable (n : node) (m : message) : rendering :=
  let n' := executeDataTableNode n m in
  renderDataTable n' (match accumulatedData n' with Some l => l | None => [] end).

(* ================================================================== *)
(** ** Escaping of debug output *)

Definition doubleQuote : ascii := Eval cbv in ascii_of_nat 34.

(** [s.replace(/c/g, by)] for a single character [c]. *)
Fixpoint replaceAll (c : ascii) (by_ : string) (s : string) : string :=
  match s with
  | EmptyString => EmptyString
  | String a s' => if Ascii.eqb a c then by_ ++ replaceAll c by_ s'
                   else String a (replaceAll c by_ s')
  end.

(** [escapeHtml(unsafe)]. *)
Definition escapeHtml (unsafe : string) : string :=
  replaceAll "'" "&#039;"
    (replaceAll doubleQuote "&quot;"
       (replaceAll ">" "&gt;"
          (replaceAll "<" "&lt;"
             (replaceAll "&" "&amp;" unsafe)))).

(** The entity one character ends up as. *)
Definition escapeChar (a : ascii) : string :=
  if Ascii.eqb a "&" then "&amp;"
  else if Ascii.eqb a "<" then "&lt;"
  else if Ascii.eqb a ">" then "&gt;"
  else if Ascii.eqb a doubleQuote then "&quot;"
  else if Ascii.eqb a "'" then "&#039;"
  else String a EmptyString.

Fixpoint occurs (c : ascii) (s : string) : bool :=
  match s with
  | EmptyString => false
  | String a s' => Ascii.eqb a c || occurs c s'
  end.

(** Every link ends at a stored function node that has an outgoing link: the
    function nodes of the flow forward in circles. *)
Definition functionLoop (ed : editor) : Prop :=
  forall l, In l (mapValues (links ed)) ->
    exists n, mapGet (nodes ed) (link_target l) = Some n
              /\ node_id n = link_target l /\ type n = "function"
              /\ exists l', In l' (mapValues (links ed)) /\ link_source l' = link_target l.

(** Every pending delivery travels to the target of a stored link. *)
Definition alongLinks (ed : editor) (pending : list delivery) : Prop :=
  forall d, In d pending ->
    exists l, In l (mapValues (links ed)) /\ d_target d = link_target l.

(** An exampleData node feeding two function nodes wired in a circle. *)
Definition loopFlow : editor :=
  run newEditor
      [ CreateNode "exampleData" 0 0 [];
        CreateNode "function" 200 0 [];
        CreateNode "function" 400 0 [];
        PortMouseDown "node_1" OutputPort 0; ConnectionMouseUp (Some ("node_2", 0%nat));
        PortMouseDown "node_2" OutputPort 0; ConnectionMouseUp (Some ("node_3", 0%nat));
        PortMouseDown "node_3" OutputPort 0; ConnectionMouseUp (Some ("node_2", 0%nat)) ].

(* ================================================================== *)
(** ** Executing a node by a click *)

(** [executeNetworkDataSimNode(node)]: [networkData] is the outcome of
    [generateNetworkData] on the configuration of the node, [None] when it
    throws, and then nothing is sent; [now] is [new Date().toISOString()] and
    [msgid] the value of [generateMessageId()]. *)
Definition executeNetworkDataSimNode (ed : editor) (n : node) (networkData : option value)
           (now msgid : string) : list delivery :=
  match networkData with
  | None => []
  | Some p =>
      let m := {| payload := p;
                  topic := VStr "network-simulation";
                  timestamp := now;
                  source := None;
                  _msgid := Some msgid |} in
      sendMessage ed n m
  end.

(** [executeNode(node)]: the deliveries scheduled, in the order of their
    timers. *)
Definition executeNode (ed : editor) (n : node) (parsed networkData : option value)
           (now now' msgid : string) : list delivery :=
  if type n =? "exampleData"
  then (executeExampleDataNode ed n parsed now
          ++ executeNetworkDataSimNode ed n networkData now' msgid)%list
  else [].

(** [onCanvasMouseUp(e)]: [dragState] holds the node the mouse went down on
    and whether the mouse has moved since. *)
Definition onCanvasMouseUp (ed : editor) (dragState : option (node * bool))
           (parsed networkData : option value) (now now' msgid : string) : list delivery :=
  match dragState with
  | None => []
  | Some (n, hasMoved) =>
      if negb hasMoved && ((type n =? "exampleData") || (type n =? "networkDataSim"))
      then executeNode ed n parsed networkData now now' msgid
      else []
  end.

(** The delivery of [m] along the link [l]. *)
Definition deliveryAlong (m : message) (l : link) : delivery :=
  {| d_target := link_target l; d_message := m; d_link := link_id l |}.

(** The links that leave a node, in the order of the link map. *)
Definition outgoingLinks (ed : editor) (n : node) : list link :=
  filter (fun l => link_source l =? node_id n) (mapValues (links ed)).

(** No two nodes of a mini-graph have the same id, and no two edges the same
    source and target, under [===]. *)
Definition nodesDistinct (g : networkGraph) : Prop :=
  ForallOrdPairs (fun a b => strict_eq (gn_id a) (gn_id b) = false) (ng_nodes g).

Definition edgesDistinct (g : networkGraph) : Prop :=
  ForallOrdPairs (fun a b => strict_eq (ge_source a) (ge_source b)
                             && strict_eq (ge_target a) (ge_target b) = false)
                 (ng_edges g).

(* ================================================================== *)
(** ** The application around the editor *)

(** The page: the editor instance, the item [savedFlow] of the local storage
    ([None] when [getItem] returns [null] or the empty text, which the code
    treats alike) and the notifications shown so far, each with its type. *)
Record appState : Type := {
  flowEditor : editor;
  savedFlow : option flowText;
  notifications : list (string * string)
}.

Definition withEditor (a : appState) (ed : editor) : appState :=
  {| flowEditor := ed; savedFlow := savedFlow a; notifications := notifications a |}.

(** [showNotification(message, type)]. *)
Definition showNotification (a : appState) (message type : string) : appState :=
  {| flowEditor := flowEditor a; savedFlow := savedFlow a;
     notifications := (notifications a ++ [(message, type)])%list |}.

(** The handler of [DOMContentLoaded]: a page load starts with a new editor;
    the local storage outlives it. *)
Definition onDOMContentLoaded (a : appState) : appState :=
  {| flowEditor := newEditor; savedFlow := savedFlow a; notifications := [] |}.

(** The click handler of the save button. *)
Definition onSaveClick (a : appState) : appState :=
  let flow := exportFlow (flowEditor a) in
  showNotification
    {| flowEditor := flowEditor a; savedFlow := Some flow; notifications := notifications a |}
    "Flow saved to local storage!" "success".

(** [loadFlow()]. *)
Definition loadFlow (a : appState) : appState :=
  match savedFlow a with
  | Some saved =>
      showNotification (withEditor a (importFlow (flowEditor a) saved))
                       "Flow loaded from local storage!" "success"
  | None => a
  end.

(* ================================================================== *)
(** ** Dropping a palette entry on the canvas *)

(** [onCanvasDrop(e)]: [nodeType] is the text of the drag, [px] and [py] the
    canvas coordinates computed from the mouse position. *)
Definition onCanvasDrop (ed : editor) (nodeType : string) (px py : Z) : editor :=
  if negb (nodeType =? "")
     && match lookupType nodeType with Some _ => true | None => false end
  then snd (createNode ed nodeType px py [])
  else ed.

(* ================================================================== *)
(** ** Vocabulary of the merge of items into a mini-graph *)


















(* ================================================================== *)
(** * Properties *)

(** ** The embedding at work *)

Example decimal_examples :
  decimal 0 = "0" /\ decimal 12 = "12" /\ "node_" ++ decimal 3 = "node_3".
Proof. repeat split. Qed.

Example parseInt_examples :
  parseInt (VStr "3") = Some 3%Z
  /\ parseInt (VNum 10) = Some 10%Z
  /\ parseInt (VStr " 0x1F") = Some 31%Z
  /\ parseInt (VStr "-12px") = Some (-12)%Z
  /\ parseInt (VStr "rows") = None
  /\ parseIntOr (VStr "0") 10 = 10%Z
  /\ parseIntOr VUndefined 10 = 10%Z.
Proof. repeat split. Qed.

Example lookupType_examples :
  lookupType "debug" = assoc "debug" NODE_TYPES
  /\ lookupType "toString" = Some inheritedEntry
  /\ lookupType "widget" = None.
Proof. repeat split. Qed.

Example pipeline_store :
  map (fun kn => (fst kn, type (snd kn))) (nodes pipeline)
  = [("node_1", "exampleData"); ("node_2", "function"); ("node_3", "debug")]
  /\ map (fun l => (link_id l, link_source l, sourcePort l, link_target l, targetPort l))
         (mapValues (links pipeline))
     = [("link_1", "node_1", 0%nat, "node_2", 0%nat);
        ("link_2", "node_2", 0%nat, "node_3", 0%nat)]
  /\ nodeCounter pipeline = 3%nat /\ linkCounter pipeline = 2%nat
  /\ isConnecting pipeline = false.
Proof. repeat split. Qed.

(** The scenario of the specification: an exampleData node wired to a debug
    node; running the first leaves the second with one entry whose data is
    the parsed payload. *)
Example exampleData_reaches_debug :
  let ed := run newEditor
                [ CreateNode "exampleData" 0 0 []; CreateNode "debug" 200 0 [];
                  PortMouseDown "node_1" OutputPort 0;
                  ConnectionMouseUp (Some ("node_2", 0%nat)) ] in
  let parsed := VObj [("temperature", VNum 23); ("humidity", VNum 65)] in
  exists a b m,
    mapGet (nodes ed) "node_1" = Some a /\ mapGet (nodes ed) "node_2" = Some b
    /\ executeExampleDataNode ed a (Some parsed) "2024-01-01T12:00:00.000Z"
       = [{| d_target := "node_2"; d_message := m; d_link := "link_1" |}]
    /\ map de_data (retainedEntries (fst (receiveMessage ed b m "12:00:00")))
       = [DataPayload parsed].
Proof. cbv zeta. do 3 eexists. repeat split. Qed.

Example generateNetworkData_sample :
  option_map (fun d => map (fun e => (se_source e, se_target e)) (sim_edges d))
             (generateNetworkData sampleDraws "social" 8 (ratio 3 10))
  = Some [("person_3", "person_0"); ("person_5", "person_2");
          ("person_7", "person_4"); ("person_1", "person_6")].
Proof. reflexivity. Qed.

(** Targets of the generator: the product is rounded to a double before it
    is floored. *)
Example targetLinkCount_samples :
  targetLinkCount 8 (ratio 3 10) = Integer 8
  /\ targetLinkCount 25 (ratio 41 100) = Integer 122
  /\ targetLinkCount 5 (ratio 3 10) = Integer 3
  /\ targetLinkCount 3 (S754_infinity false) = PlusInfinity
  /\ targetLinkCount 1 (S754_infinity false) = NotANumber.
Proof. repeat split. Qed.

(** ** Strings and identifiers *)

Lemma decimal_inj (a b : nat) : decimal a = decimal b -> a = b.
Proof.
  unfold decimal. intros H.
  apply DecimalNat.Unsigned.to_uint_inj.
  assert (E : NilEmpty.uint_of_string (NilEmpty.string_of_uint (Nat.to_uint a))
              = NilEmpty.uint_of_string (NilEmpty.string_of_uint (Nat.to_uint b)))
    by (rewrite H; reflexivity).
  rewrite !NilEmpty.usu in E. congruence.
Qed.

Lemma append_inj_l (p s t : string) : (p ++ s = p ++ t) -> s = t.
Proof.
  induction p as [|c p IH]; simpl; intros H; [assumption|].
  injection H as H. auto.
Qed.

Lemma nodeId_inj (a b : nat) : "node_" ++ decimal a = "node_" ++ decimal b -> a = b.
Proof. intros H. apply decimal_inj, (append_inj_l _ _ _ H). Qed.

(** ** Insertion-ordered maps *)

Section MapFacts.
Context {A : Type}.
Implicit Types (m : Map A) (k j : string) (a b c : A).

Lemma mapGet_mapSet_same m k a : mapGet (mapSet m k a) k = Some a.
Proof.
  unfold mapGet. induction m as [|[k' a'] m IH]; simpl.
  - now rewrite String.eqb_refl.
  - destruct (k' =? k) eqn:E; simpl; rewrite E; auto.
Qed.

Lemma mapGet_mapSet_other m k k' a : k' <> k -> mapGet (mapSet m k a) k' = mapGet m k'.
Proof.
  intros N. unfold mapGet. induction m as [|[k0 a0] m IH]; simpl.
  - destruct (k =? k') eqn:E; [apply String.eqb_eq in E; congruence | reflexivity].
  - destruct (k0 =? k) eqn:E; simpl.
    + apply String.eqb_eq in E. subst k0.
      destruct (k =? k') eqn:E'; [apply String.eqb_eq in E'; congruence | reflexivity].
    + destruct (k0 =? k'); auto.
Qed.

Lemma mapHas_mapSet m k k' a : mapHas m k' = true -> mapHas (mapSet m k a) k' = true.
Proof.
  unfold mapHas. destruct (String.eqb_spec k' k) as [->|N].
  - now rewrite mapGet_mapSet_same.
  - now rewrite mapGet_mapSet_other.
Qed.

Lemma mapHas_mapSet_same m k a : mapHas (mapSet m k a) k = true.
Proof. unfold mapHas. now rewrite mapGet_mapSet_same. Qed.

Lemma mapGet_mapDelete_same m k : mapGet (mapDelete m k) k = None.
Proof.
  unfold mapGet, mapDelete. induction m as [|[k' a'] m IH]; simpl; auto.
  destruct (k' =? k) eqn:E; simpl; auto. now rewrite E.
Qed.

Lemma mapGet_mapDelete_other m k k' : k' <> k -> mapGet (mapDelete m k) k' = mapGet m k'.
Proof.
  intros N. unfold mapGet, mapDelete. induction m as [|[k0 a0] m IH]; simpl; auto.
  destruct (k0 =? k) eqn:E; simpl.
  - apply String.eqb_eq in E. subst k0.
    destruct (k =? k') eqn:E'; [apply String.eqb_eq in E'; congruence | auto].
  - destruct (k0 =? k'); auto.
Qed.

Lemma mapGet_None_mapDelete m k : mapGet m k = None -> mapDelete m k = m.
Proof.
  unfold mapGet, mapDelete. induction m as [|[k' a'] m IH]; simpl; auto.
  destruct (k' =? k) eqn:E; simpl; [discriminate|]. intros H. now rewrite IH.
Qed.

Lemma mapValues_mapSet_In m k a b :
  In b (mapValues (mapSet m k a)) -> b = a \/ In b (mapValues m).
Proof.
  unfold mapValues. induction m as [|[k' a'] m IH]; simpl.
  - intuition.
  - destruct (k' =? k); simpl; intuition.
Qed.

Lemma mapValues_mapDelete_In m k b :
  In b (mapValues (mapDelete m k)) -> In b (mapValues m).
Proof.
  unfold mapValues, mapDelete. intros H. apply in_map_iff in H as [[k' b'] [E H]].
  apply filter_In in H as [H _]. apply in_map_iff. now exists (k', b').
Qed.

Lemma mapGet_In m k a : mapGet m k = Some a -> In (k, a) m.
Proof.
  unfold mapGet. induction m as [|[k' a'] m IH]; simpl; [discriminate|].
  destruct (k' =? k) eqn:E.
  - apply String.eqb_eq in E. intros [= ->]. left. now subst.
  - auto.
Qed.

Lemma In_mapHas m k a : In (k, a) m -> mapHas m k = true.
Proof.
  unfold mapHas, mapGet. induction m as [|[k' a'] m IH]; simpl; [tauto|].
  intros [H|H].
  - injection H as -> ->. now rewrite String.eqb_refl.
  - destruct (k' =? k); auto.
Qed.
Lemma NoDup_keys_functional m k a b :
  NoDup (map fst m) -> In (k, a) m -> In (k, b) m -> a = b.
Proof.
  induction m as [|[k' c] m IH]; cbn [map fst In]; [tauto|].
  intros N Ha Hb. inversion N as [|? ? Nk N']; subst.
  destruct Ha as [Ha|Ha], Hb as [Hb|Hb].
  - congruence.
  - injection Ha as -> ->. exfalso. apply Nk. apply in_map_iff. now exists (k, b).
  - injection Hb as -> ->. exfalso. apply Nk. apply in_map_iff. now exists (k, a).
  - auto.
Qed.

Lemma mapValues_In m a :
  In a (mapValues m) <-> exists k, In (k, a) m.
Proof.
  unfold mapValues. rewrite in_map_iff. split.
  - intros ([k b] & E & H). cbn in E. subst. now exists k.
  - intros (k & H). now exists (k, a).
Qed.

Lemma mapHas_mapDelete_other m k k' :
  k' <> k -> mapHas (mapDelete m k) k' = mapHas m k'.
Proof. intros N. unfold mapHas. now rewrite mapGet_mapDelete_other. Qed.

Lemma mapSet_In m k j a c :
  In (j, c) (mapSet m k a) -> (j = k /\ c = a) \/ In (j, c) m.
Proof.
  induction m as [|[k' a'] m IH]; cbn [mapSet].
  - intros [[= <- <-]|[]]. now left.
  - destruct (k' =? k) eqn:E.
    + apply String.eqb_eq in E. intros [[= <- <-]|H]; [now left | right; now right].
    + intros [H|H]; [right; now left|]. destruct (IH H); [now left | right; now right].
Qed.

End MapFacts.

Create HintDb store.
#[local] Hint Resolve mapHas_mapSet mapHas_mapSet_same In_mapHas : store.

(** ** Debug nodes *)

Lemma firstn_cons_firstn {A : Type} (k : nat) (a : A) (l : list A) :
  firstn (S k) (a :: firstn (S k) l) = firstn (S k) (a :: l).
Proof.
  rewrite !firstn_cons. f_equal. rewrite firstn_firstn. f_equal. lia.
Qed.

Lemma executeDebugNode_outputs (n : node) (m : message) (now : string) :
  debugOutputs (executeDebugNode n m now)
  = Some (firstn 10 (entryFor n (m, now) :: retainedEntries n)).
Proof.
  unfold executeDebugNode, retainedEntries, entryFor. cbn [debugOutputs setDebugOutputs fst snd].
  set (l := _ :: _).
  destruct (10 <? List.length l)%nat eqn:E; [reflexivity|].
  apply Nat.ltb_ge in E. now rewrite firstn_all2.
Qed.

Lemma executeDebugNode_frame (n : node) (m : message) (now : string) :
  type (executeDebugNode n m now) = type n /\ config (executeDebugNode n m now) = config n.
Proof. split; reflexivity. Qed.

Lemma receiveMessage_debug (ed : editor) (n : node) (m : message) (now : string) :
  type n = "debug" -> fst (receiveMessage ed n m now) = executeDebugNode n m now.
Proof. intros T. unfold receiveMessage. rewrite T. reflexivity. Qed.

Lemma entryFor_config (n n' : node) mt : config n' = config n -> entryFor n' mt = entryFor n mt.
Proof. intros E. unfold entryFor, cfg. now rewrite E. Qed.

Lemma receiveAll_debug (ed : editor) (ms : list (message * string)) :
  forall (n : node) (mt : message * string),
    type n = "debug" ->
    let n' := receiveAll ed n (mt :: ms) in
    type n' = "debug" /\ config n' = config n /\
    debugOutputs n'
    = Some (firstn 10 (rev (map (entryFor n) (mt :: ms)) ++ retainedEntries n)).
Proof.
  induction ms as [|mt' ms IH] using rev_ind; intros n [m now] T.
  - cbn [receiveAll fold_left fst snd]. rewrite receiveMessage_debug by assumption.
    repeat split; auto. rewrite executeDebugNode_outputs. reflexivity.
  - cbn zeta. unfold receiveAll. rewrite app_comm_cons, fold_left_app.
    fold (receiveAll ed n ((m, now) :: ms)).
    destruct (IH n (m, now) T) as (T' & C' & O'). cbn zeta in *.
    set (n1 := receiveAll ed n ((m, now) :: ms)) in *.
    cbn [fold_left]. destruct mt' as [m' now']. cbn [fst snd].
    rewrite receiveMessage_debug by assumption.
    repeat split; auto.
    rewrite executeDebugNode_outputs. unfold retainedEntries at 1. rewrite O'.
    rewrite (entryFor_config n n1) by assumption.
    rewrite firstn_cons_firstn.
    rewrite map_app, rev_app_distr. reflexivity.
Qed.

(** C5. A debug node keeps its entries newest first in a buffer of capacity
    10: after a non-empty sequence of messages the retained list is the first
    10 of the new entries in reverse arrival order followed by the older ones;
    it never holds more than 10 entries, its first entry is that of the
    message received last, and from the tenth message on (so after 12
    messages) it holds exactly 10. *)
Theorem debug_ring_buffer (ed : editor) (n : node) (ms : list (message * string))
        (m : message) (now : string) :
  type n = "debug" ->
  let received := (ms ++ [(m, now)])%list in
  let outs := firstn 10 (rev (map (entryFor n) received) ++ retainedEntries n) in
  debugOutputs (receiveAll ed n received) = Some outs
  /\ (List.length outs <= 10)%nat
  /\ hd_error outs = Some (entryFor n (m, now))
  /\ ((10 <= List.length received)%nat -> List.length outs = 10%nat)
  /\ (List.length received = 12%nat -> List.length outs = 10%nat).
Proof.
  intros T received outs.
  assert (L : (10 <= List.length received)%nat -> List.length outs = 10%nat).
  { intros H. unfold outs. rewrite length_firstn, length_app, length_rev, length_map. lia. }
  split; [|split; [|split; [|split]]].
  - subst received outs. destruct ms as [|mt ms]; cbn [app].
    + apply (receiveAll_debug ed [] n (m, now) T).
    + apply (receiveAll_debug ed (ms ++ [(m, now)]) n mt T).
  - unfold outs. rewrite length_firstn. lia.
  - unfold outs, received. rewrite map_app, rev_app_distr. reflexivity.
  - exact L.
  - intros H. apply L. lia.
Qed.

Lemma debug_ring_buffer_witness :
  type debugNode0 = "debug"
  /\ List.length (retainedEntries (receiveAll newEditor debugNode0 (map numbered (seq 1 12)))) = 10%nat
  /\ hd_error (retainedEntries (receiveAll newEditor debugNode0 (map numbered (seq 1 12))))
     = Some (entryFor debugNode0 (numbered 12)).
Proof.
  pose proof (debug_ring_buffer newEditor debugNode0 (map numbered (seq 1 11))
                                (fst (numbered 12)) (snd (numbered 12)) eq_refl) as H.
  cbv zeta in H. destruct H as (O & _ & Hd & _ & L12).
  change (map numbered (seq 1 11) ++ [(fst (numbered 12), snd (numbered 12))])%list
    with (map numbered (seq 1 12)) in *.
  split; [reflexivity|].
  unfold retainedEntries at 1 2. rewrite O. split.
  - apply L12. reflexivity.
  - exact Hd.
Defined.

(** ** Data table nodes *)

Lemma lastn_length {A : Type} (k : nat) (l : list A) :
  List.length (lastn k l) = Nat.min k (List.length l).
Proof. unfold lastn. rewrite length_skipn. lia. Qed.

Lemma lastn_all {A : Type} (k : nat) (l : list A) :
  (List.length l <= k)%nat -> lastn k l = l.
Proof. intros H. unfold lastn. replace (List.length l - k)%nat with 0%nat by lia. reflexivity. Qed.

Lemma lastn_app_lastn {A : Type} (k : nat) (a b : list A) :
  lastn k (lastn k a ++ b) = lastn k (a ++ b).
Proof.
  destruct (Nat.le_gt_cases (List.length a) k) as [H|H].
  - now rewrite (lastn_all k a).
  - unfold lastn at 1 3. rewrite !length_app, lastn_length.
    rewrite !skipn_app. unfold lastn. rewrite skipn_skipn, length_skipn.
    f_equal; f_equal; lia.
Qed.


Lemma sliceFrom_lastn {A : Type} (maxRows : Z) (l : list A) :
  (0 < maxRows)%Z ->
  (if (maxRows <? Z.of_nat (List.length l))%Z then sliceFrom (- maxRows) l else l)
  = lastn (Z.to_nat maxRows) l.
Proof.
  intros P. destruct (maxRows <? Z.of_nat (List.length l))%Z eqn:E.
  - apply Z.ltb_lt in E. unfold sliceFrom, lastn.
    replace (- maxRows <? 0)%Z with true by (symmetry; apply Z.ltb_lt; lia).
    f_equal. lia.
  - apply Z.ltb_ge in E. symmetry. apply lastn_all. lia.
Qed.

Lemma parseIntOr_positive (v : value) (maxRows d : Z) :
  parseInt v = Some maxRows -> (0 < maxRows)%Z -> parseIntOr v d = maxRows.
Proof.
  intros E P. unfold parseIntOr. rewrite E.
  destruct (maxRows =? 0)%Z eqn:Z0; [apply Z.eqb_eq in Z0; lia | reflexivity].
Qed.

Lemma executeDataTableNode_append (n : node) (m : message) (maxRows : Z) :
  truthy (cfg n "appendData") = true ->
  parseInt (cfg n "maxRows") = Some maxRows -> (0 < maxRows)%Z ->
  accumulatedData (executeDataTableNode n m)
  = Some (lastn (Z.to_nat maxRows) (accumulatedRows n ++ normalizeRows (payload m))).
Proof.
  intros Ap E P. unfold executeDataTableNode. rewrite Ap.
  rewrite (parseIntOr_positive _ maxRows 10 E P).
  cbn [accumulatedData setAccumulatedData]. f_equal.
  apply sliceFrom_lastn. assumption.
Qed.

Lemma executeDataTableNode_frame (n : node) (m : message) :
  type (executeDataTableNode n m) = type n /\ config (executeDataTableNode n m) = config n.
Proof. unfold executeDataTableNode. destruct (truthy _); split; reflexivity. Qed.

Lemma receiveMessage_dataTable (ed : editor) (n : node) (m : message) (now : string) :
  type n = "dataTable" -> fst (receiveMessage ed n m now) = executeDataTableNode n m.
Proof. intros T. unfold receiveMessage. rewrite T. reflexivity. Qed.





(** ** Function nodes *)

Lemma message_eta (m : message) :
  {| payload := payload m; topic := topic m; timestamp := timestamp m;
     source := source m; _msgid := _msgid m |} = m.
Proof. destruct m; reflexivity. Qed.

Lemma sendMessage_In (ed : editor) (n : node) (m : message) (d : delivery) :
  In d (sendMessage ed n m) ->
  exists l t,
    In l (mapValues (links ed)) /\ link_source l = node_id n
    /\ mapGet (nodes ed) (link_target l) = Some t
    /\ d = {| d_target := node_id t; d_message := m; d_link := link_id l |}.
Proof.
  unfold sendMessage. intros H. apply in_flat_map in H as (l & Hl & Hd).
  apply filter_In in Hl as [Hl Hs]. apply String.eqb_eq in Hs.
  destruct (mapGet (nodes ed) (link_target l)) as [t|] eqn:G; [|contradiction].
  destruct Hd as [<-|[]]. now exists l, t.
Qed.

(** C7, as the code has it.  A function node forwards a copy of the message
    it received: every delivery it schedules carries a message with the
    fields of the received one, its [source] included, one delivery for each
    outgoing link of the node whose target is in the store; the node itself is
    left as it was. *)
Theorem function_node_forwards_copy (ed : editor) (n : node) (m : message) (now : string) :
  type n = "function" ->
  fst (receiveMessage ed n m now) = n
  /\ snd (receiveMessage ed n m now) = sendMessage ed n m
  /\ (forall d, In d (snd (receiveMessage ed n m now)) ->
        d_message d = m /\ source (d_message d) = source m
        /\ exists l t,
             In l (mapValues (links ed)) /\ link_source l = node_id n
             /\ mapGet (nodes ed) (link_target l) = Some t
             /\ d_target d = node_id t /\ d_link d = link_id l).
Proof.
  intros T. unfold receiveMessage. rewrite T. cbn [String.eqb Ascii.eqb Bool.eqb fst snd].
  unfold executeFunctionNode. rewrite message_eta.
  repeat split; try reflexivity;
    apply sendMessage_In in H as (l & t & Hl & Hs & Ht & ->); try reflexivity.
  exists l, t. repeat split; assumption.
Qed.

Lemma function_node_forwards_copy_witness :
  exists n m,
    mapGet (nodes pipeline) "node_2" = Some n
    /\ source m = Some "node_1"
    /\ snd (receiveMessage pipeline n m "12:00:01")
       = [{| d_target := "node_3"; d_message := m; d_link := "link_2" |}].
Proof.
  eexists. exists {| payload := VStr "hello"; topic := VStr "exampleData";
                     timestamp := "2024-01-01T12:00:00.000Z";
                     source := Some "node_1"; _msgid := None |}.
  split; [reflexivity|]. split; [reflexivity|].
  match goal with
  | |- snd (receiveMessage ?e ?n ?m ?t) = _ =>
      refine (eq_trans (proj1 (proj2 (function_node_forwards_copy e n m t eq_refl))) _)
  end.
  reflexivity.
Defined.

(** C7, as stated, fails: the message an exampleData node sends carries the
    id of that node as its source, and the function node that forwards it
    keeps this source instead of putting its own id there. *)
Lemma function_node_keeps_source :
  exists n1 n2 m d,
    mapGet (nodes pipeline) "node_1" = Some n1
    /\ mapGet (nodes pipeline) "node_2" = Some n2
    /\ type n2 = "function"
    /\ executeExampleDataNode pipeline n1 (Some (VStr "hello")) "2024-01-01T12:00:00.000Z"
       = [{| d_target := "node_2"; d_message := m; d_link := "link_1" |}]
    /\ snd (receiveMessage pipeline n2 m "12:00:01") = [d]
    /\ d_target d = "node_3"
    /\ source (d_message d) = Some "node_1"
    /\ source (d_message d) <> Some (node_id n2).
Proof.
  do 4 eexists.
  split; [reflexivity|]. split; [reflexivity|]. split; [reflexivity|].
  split; [reflexivity|]. split; [reflexivity|]. split; [reflexivity|].
  split; [reflexivity|]. cbn. discriminate.
Qed.

(** ** Graph visualisation nodes *)

Lemma strict_eq_refl : forall v : value, strict_eq v v = true.
Proof.
  fix IH 1. intros [ | |b|n|s|items|fields]; cbn [strict_eq].
  - reflexivity.
  - reflexivity.
  - apply Bool.eqb_reflx.
  - apply Z.eqb_refl.
  - apply String.eqb_refl.
  - induction items as [|u items IHl]; [reflexivity|].
    rewrite IH. exact IHl.
  - induction fields as [|[k u] fields IHl]; [reflexivity|].
    rewrite String.eqb_refl, IH. exact IHl.
Qed.

Lemma hasNode_pushNode (g : networkGraph) (gn : gvNode) (id : value) :
  hasNode (pushNode g gn) id = hasNode g id || strict_eq (gn_id gn) id.
Proof.
  unfold hasNode, pushNode. cbn [ng_nodes]. rewrite existsb_app. cbn [existsb].
  now rewrite orb_false_r.
Qed.

Lemma hasNode_pushEdge (g : networkGraph) (e : gvEdge) (id : value) :
  hasNode (pushEdge g e) id = hasNode g id.
Proof. reflexivity. Qed.

Lemma ensureNode_edges (f : string) (g : networkGraph) (id : value) :
  ng_edges (ensureNode f g id) = ng_edges g.
Proof. unfold ensureNode. destruct (hasNode g id); reflexivity. Qed.

Lemma ensureNode_has (f : string) (g : networkGraph) (id : value) :
  hasNode (ensureNode f g id) id = true.
Proof.
  unfold ensureNode. destruct (hasNode g id) eqn:E; [assumption|].
  rewrite hasNode_pushNode. cbn [gn_id]. rewrite strict_eq_refl. apply orb_true_r.
Qed.

Lemma ensureNode_mono (f : string) (g : networkGraph) (id id' : value) :
  hasNode g id' = true -> hasNode (ensureNode f g id) id' = true.
Proof.
  intros H. unfold ensureNode. destruct (hasNode g id); [assumption|].
  rewrite hasNode_pushNode, H. reflexivity.
Qed.

Lemma ensureNode_closed (f : string) (g : networkGraph) (id : value) :
  edgesClosed g -> edgesClosed (ensureNode f g id).
Proof.
  intros C e He. rewrite ensureNode_edges in He. destruct (C e He).
  split; apply ensureNode_mono; assumption.
Qed.

Lemma pushNode_closed (g : networkGraph) (gn : gvNode) :
  edgesClosed g -> edgesClosed (pushNode g gn).
Proof.
  intros C e He. destruct (C e He) as [A B].
  rewrite !hasNode_pushNode, A, B. split; reflexivity.
Qed.

(** An edge pushed between two ids, followed by the creation of the missing
    endpoint [t], when [s] is already a node. *)
Lemma pushEdge_ensure_closed (f : string) (g : networkGraph) (e : gvEdge) :
  edgesClosed g -> hasNode g (ge_source e) = true ->
  edgesClosed (ensureNode f (pushEdge g e) (ge_target e)).
Proof.
  intros C S e' He'. rewrite ensureNode_edges in He'. cbn [pushEdge ng_edges] in He'.
  apply in_app_or in He' as [He'|[<-|[]]].
  - destruct (C e' He'). split; apply ensureNode_mono; rewrite hasNode_pushEdge; assumption.
  - split; [apply ensureNode_mono; rewrite hasNode_pushEdge; assumption | apply ensureNode_has].
Qed.

Lemma arrayConnection_inv (f key : string) (nodeId : value) (g : networkGraph) (v : value) :
  edgesClosed g -> (truthy nodeId = true -> hasNode g nodeId = true) ->
  edgesClosed (arrayConnection f key nodeId g v)
  /\ (forall id, hasNode g id = true -> hasNode (arrayConnection f key nodeId g v) id = true).
Proof.
  intros C N. unfold arrayConnection.
  destruct v; try (split; [assumption | auto]);
    (destruct (truthy nodeId) eqn:T; cbn [andb]; [|split; [assumption | auto]]);
    (match goal with |- context [negb ?b] => destruct b end; cbn [negb];
     [split; [assumption | auto]|]);
    (match goal with |- context [hasEdge ?a ?b ?c] => destruct (hasEdge a b c) end;
     [split; [assumption | auto]|]);
    (split;
     [ match goal with
       | |- edgesClosed (ensureNode _ (pushEdge _ ?e) _) =>
           apply (pushEdge_ensure_closed f g e); auto
       end
     | intros id H; apply ensureNode_mono; rewrite hasNode_pushEdge; assumption ]).
Qed.

Lemma arrayConnections_inv (f key : string) (nodeId : value) (vs : list value) :
  forall g,
    edgesClosed g -> (truthy nodeId = true -> hasNode g nodeId = true) ->
    edgesClosed (fold_left (arrayConnection f key nodeId) vs g)
    /\ (forall id, hasNode g id = true ->
                   hasNode (fold_left (arrayConnection f key nodeId) vs g) id = true).
Proof.
  induction vs as [|v vs IH]; intros g C N; cbn [fold_left]; [auto|].
  destruct (arrayConnection_inv f key nodeId g v C N) as [C1 M1].
  destruct (IH _ C1 (fun T => M1 _ (N T))) as [C2 M2]. split; auto.
Qed.

Lemma processDataItem_inv (g : networkGraph) (item : value) (fi fl fs ft : string) :
  edgesClosed g ->
  edgesClosed (processDataItem g item fi fl fs ft)
  /\ (forall id, hasNode g id = true -> hasNode (processDataItem g item fi fl fs ft) id = true)
  /\ (truthy (prop item fi) = true ->
      hasNode (processDataItem g item fi fl fs ft) (prop item fi) = true).
Proof.
  intros C. unfold processDataItem.
  set (nodeId := prop item fi). set (sourceId := prop item fs). set (targetId := prop item ft).
  (* the node of the item *)
  set (g1 := if truthy nodeId then _ else g).
  assert (I1 : edgesClosed g1 /\ (forall id, hasNode g id = true -> hasNode g1 id = true)
               /\ (truthy nodeId = true -> hasNode g1 nodeId = true)).
  { subst g1. destruct (truthy nodeId) eqn:T;
      [|split; [assumption | split; [auto | discriminate]]].
    destruct (hasNode g nodeId) eqn:H; [split; [assumption | split; auto]|].
    split; [|split].
    - apply pushNode_closed; assumption.
    - intros id Hid. rewrite hasNode_pushNode, Hid. reflexivity.
    - intros _. rewrite hasNode_pushNode. cbn [gn_id]. rewrite strict_eq_refl. apply orb_true_r. }
  destruct I1 as (C1 & M1 & N1).
  (* the edge of the item *)
  set (g2 := if truthy sourceId && truthy targetId then _ else g1).
  assert (I2 : edgesClosed g2 /\ (forall id, hasNode g1 id = true -> hasNode g2 id = true)).
  { subst g2. destruct (truthy sourceId && truthy targetId); [|split; auto].
    destruct (hasEdge g1 sourceId targetId); [split; auto|].
    cbn [fold_left]. split.
    - set (e := {| ge_source := sourceId; ge_target := targetId; ge_originalData := item |}).
      intros e' He'. rewrite !ensureNode_edges in He'. cbn [pushEdge ng_edges] in He'.
      apply in_app_or in He' as [He'|[<-|[]]].
      + destruct (C1 e' He').
        split; do 2 apply ensureNode_mono; rewrite hasNode_pushEdge; assumption.
      + cbn [ge_source ge_target].
        split; [apply ensureNode_mono, ensureNode_has | apply ensureNode_has].
    - intros id H. do 2 apply ensureNode_mono. rewrite hasNode_pushEdge. assumption. }
  destruct I2 as (C2 & M2).
  (* the arrays of the item *)
  assert (I3 : forall keys g',
             edgesClosed g' -> (truthy nodeId = true -> hasNode g' nodeId = true) ->
             let r := fold_left
                        (fun g' key =>
                           match prop item key with
                           | VArr vs => fold_left (arrayConnection fi key nodeId) vs g'
                           | _ => g'
                           end) keys g' in
             edgesClosed r /\ (forall id, hasNode g' id = true -> hasNode r id = true)).
  { induction keys as [|key keys IH]; intros g' C' N'; cbn [fold_left]; [auto|].
    assert (S : edgesClosed (match prop item key with
                             | VArr vs => fold_left (arrayConnection fi key nodeId) vs g'
                             | _ => g'
                             end)
                /\ (forall id, hasNode g' id = true ->
                               hasNode (match prop item key with
                                        | VArr vs => fold_left (arrayConnection fi key nodeId) vs g'
                                        | _ => g'
                                        end) id = true)).
    { destruct (prop item key); try solve [split; auto].
      apply arrayConnections_inv; assumption. }
    destruct S as [Cs Ms].
    destruct (IH _ Cs (fun T => Ms _ (N' T))) as [Cr Mr]. cbn zeta in *. split; auto. }
  destruct (I3 (objectKeys item) g2 C2 (fun T => M2 _ (N1 T))) as [C3 M3]. cbn zeta in *.
  split; [assumption | split; auto].
Qed.

Lemma processItems_inv (fi fl fs ft : string) (items : list value) :
  forall g,
    edgesClosed g ->
    let r := fold_left
               (fun g item =>
                  if isObject item then processDataItem g item fi fl fs ft else g)
               items g in
    edgesClosed r
    /\ (forall id, hasNode g id = true -> hasNode r id = true)
    /\ (forall item, In item items -> isObject item = true ->
                     truthy (prop item fi) = true -> hasNode r (prop item fi) = true).
Proof.
  induction items as [|item items IH]; intros g C; cbn [fold_left].
  - split; [assumption | split; [auto | intros ? []]].
  - set (g1 := if isObject item then _ else g).
    assert (S : edgesClosed g1 /\ (forall id, hasNode g id = true -> hasNode g1 id = true)
                /\ (isObject item = true -> truthy (prop item fi) = true ->
                    hasNode g1 (prop item fi) = true)).
    { subst g1. destruct (isObject item).
      - destruct (processDataItem_inv g item fi fl fs ft C) as (A & B & D). auto.
      - split; [assumption | split; [auto | discriminate]]. }
    destruct S as (C1 & M1 & N1). destruct (IH g1 C1) as (Cr & Mr & Nr). cbn zeta in *.
    split; [assumption | split; [auto|]].
    intros it [<-|Hin] O T; auto.
Qed.

Lemma emptyGraph_closed : edgesClosed emptyGraph.
Proof. intros e []. Qed.


Lemma processNetworkData_prior (n : node) (prior : option networkGraph) (data : value) :
  processNetworkData (setNetworkData n prior) data = processNetworkData n data.
Proof. reflexivity. Qed.

Lemma executeGraphVizNode_networkData (n : node) (m : message) :
  networkData (executeGraphVizNode n m) = Some (processNetworkData n (payload m)).
Proof.
  unfold executeGraphVizNode. destruct (networkData n); reflexivity.
Qed.

(** *** The merge of items *)

Lemma hasNode_exists (g : networkGraph) (id : value) :
  hasNode g id = true <-> exists gn, In gn (ng_nodes g) /\ strict_eq (gn_id gn) id = true.
Proof. unfold hasNode. apply existsb_exists. Qed.


Lemma hasNode_grows (g g' : networkGraph) (id : value) :
  (forall gn, In gn (ng_nodes g) -> In gn (ng_nodes g')) ->
  hasNode g id = true -> hasNode g' id = true.
Proof.
  intros G H. apply hasNode_exists in H as (gn & Hin & E). apply hasNode_exists.
  exists gn. auto.
Qed.



Section Step.
Variables fi fl fs ft : string.
Variable item : value.











End Step.








(** ** Link creation *)

Lemma createConnection_spec (ed : editor) (sn tn : node) (sp tp : nat) :
  fst (createConnection ed sn sp tn tp)
  = {| link_id := "link_" ++ decimal (S (linkCounter ed));
       link_source := node_id sn; sourcePort := sp;
       link_target := node_id tn; targetPort := tp |}
  /\ links (snd (createConnection ed sn sp tn tp))
     = mapSet (links ed) ("link_" ++ decimal (S (linkCounter ed)))
              (fst (createConnection ed sn sp tn tp))
  /\ nodes (snd (createConnection ed sn sp tn tp)) = nodes ed
  /\ linkCounter (snd (createConnection ed sn sp tn tp)) = S (linkCounter ed)
  /\ nodeCounter (snd (createConnection ed sn sp tn tp)) = nodeCounter ed.
Proof. repeat split. Qed.

(** C2, as the code has it.  [createConnection] validates nothing and never
    fails: whatever the two node objects and the port indices are, it returns
    a link with a fresh id between the ids of the two objects and stores it.
    The rejections are made by its callers: the connect gesture creates no
    link when the node under the released port is absent from the store or is
    the node the gesture started from, and [importFlow] skips a link whose
    source id or target id is not the id of a stored node.  Port indices are
    compared with no arity anywhere. *)
Theorem createConnection_never_fails (ed : editor) (sn tn : node) (sp tp : nat) :
  let l := fst (createConnection ed sn sp tn tp) in
  let ed' := snd (createConnection ed sn sp tn tp) in
  l = {| link_id := "link_" ++ decimal (S (linkCounter ed));
         link_source := node_id sn; sourcePort := sp;
         link_target := node_id tn; targetPort := tp |}
  /\ mapGet (links ed') (link_id l) = Some l
  /\ linkCounter ed' = S (linkCounter ed)
  /\ (forall startPort targetId targetPort,
        isConnecting ed = true ->
        connectionStart ed = Some (Some sn, startPort) ->
        mapGet (nodes ed) targetId = None
        \/ (exists t, mapGet (nodes ed) targetId = Some t /\ node_id t = node_id sn) ->
        links (onConnectionMouseUp ed (Some (targetId, targetPort))) = links ed)
  /\ (forall ld,
        find (fun n => node_id n =? ld_source ld) (mapValues (nodes ed)) = None
        \/ find (fun n => node_id n =? ld_target ld) (mapValues (nodes ed)) = None ->
        importLink ed ld = ed).
Proof.
  cbv zeta. split; [reflexivity|]. split; [apply mapGet_mapSet_same|]. split; [reflexivity|].
  split.
  - intros startPort targetId targetPort C S H. unfold onConnectionMouseUp. rewrite C, S.
    destruct H as [H|(t & H & E)]; rewrite H; [reflexivity|].
    rewrite E, String.eqb_refl. reflexivity.
  - intros ld H. unfold importLink.
    destruct H as [H|H]; rewrite H; [reflexivity|].
    destruct (find (fun n => node_id n =? ld_source ld) _); reflexivity.
Qed.

Lemma createConnection_never_fails_witness :
  let ed := run newEditor
                [ CreateNode "function" 0 0 []; CreateNode "debug" 200 0 [];
                  PortMouseDown "node_1" OutputPort 0 ] in
  exists sn,
    connectionStart ed = Some (Some sn, 0%nat)
    /\ links (onConnectionMouseUp ed (Some ("node_1", 0%nat))) = links ed
    /\ links (onConnectionMouseUp ed (Some ("node_7", 0%nat))) = links ed
    /\ importLink ed {| ld_source := "node_1"; ld_sourcePort := 0;
                        ld_target := "node_7"; ld_targetPort := 0 |} = ed.
Proof.
  cbv zeta. eexists. split; [reflexivity|].
  match goal with
  | |- links (onConnectionMouseUp ?e _) = _ /\ _ =>
      match eval vm_compute in (connectionStart e) with
      | Some (Some ?sn, _) =>
          destruct (createConnection_never_fails e sn sn 0 0) as (_ & _ & _ & G & L)
      end
  end.
  split; [|split].
  - apply G with (startPort := 0%nat); [reflexivity | reflexivity |].
    right. eexists. split; reflexivity.
  - apply G with (startPort := 0%nat); [reflexivity | reflexivity |]. left. reflexivity.
  - apply L. right. reflexivity.
Defined.

(** C2, as stated, fails: [createConnection] links the function node of the
    pipeline to itself on ports 5 and 7, beyond its arity of one input and one
    output, and stores the link; it also links the node object of [node_1]
    after that node was deleted from the store; and [importFlow] creates the self link on ports 9 and 9 of a
    document. *)
Lemma createConnection_accepts_invalid_links :
  exists n detached,
    mapGet (nodes pipeline) "node_2" = Some n
    /\ mapGet (nodes pipeline) "node_1" = Some detached
    /\ inputs n = Some 1%nat /\ outputs n = Some 1%nat
    /\ (let r := createConnection pipeline n 5 n 7 in
        link_source (fst r) = link_target (fst r)
        /\ sourcePort (fst r) = 5%nat /\ targetPort (fst r) = 7%nat
        /\ mapGet (links (snd r)) "link_3" = Some (fst r)
        /\ List.length (links (snd r)) = S (List.length (links pipeline)))
    /\ mapHas (nodes trimmedPipeline) (node_id detached) = false
    /\ mapGet (links (snd (createConnection trimmedPipeline detached 0 n 0))) "link_3"
       = Some (fst (createConnection trimmedPipeline detached 0 n 0))
    /\ map (fun l => (link_source l, sourcePort l, link_target l, targetPort l))
           (mapValues (links (importFlow newEditor selfLinkDocument)))
       = [("node_1", 9%nat, "node_1", 9%nat)].
Proof.
  do 2 eexists.
  split; [reflexivity|]. split; [reflexivity|].
  repeat split; reflexivity.
Qed.

(** ** Import and export *)

(** C3 at its failing inputs.  A text that is not JSON leaves the store as it
    was; a document that parses but lacks the [links] array replaces the
    three nodes and two links of the pipeline by the one node it lists, and a
    document that lacks [nodes] leaves the store empty: the previous graph is
    lost and the import is applied in part. *)
Lemma importFlow_malformed_document_applied_in_part :
  map fst (nodes pipeline) = ["node_1"; "node_2"; "node_3"]
  /\ map fst (links pipeline) = ["link_1"; "link_2"]
  /\ importFlow pipeline Unparsable = pipeline
  /\ map fst (nodes (importFlow pipeline documentWithoutLinks)) = ["node_4"]
  /\ links (importFlow pipeline documentWithoutLinks) = []
  /\ nodes (importFlow pipeline emptyObjectDocument) = []
  /\ links (importFlow pipeline emptyObjectDocument) = [].
Proof. repeat split; reflexivity. Qed.

(** C1 at its failing inputs.  The store [trimmedPipeline] holds [node_2]
    and [node_3] joined by one link; its export imported into the empty store
    of a new editor yields the nodes [node_1] and [node_2] and no link.  The
    export of [shiftedStore], whose link joins the nodes at x = 100 and
    x = 200, imported into a new editor yields [node_1], [node_2], [node_3]
    and a link that joins the nodes at x = 200 and x = 300.  The export of
    the pipeline imported into the store emptied by [clearAll] yields
    [node_4], [node_5], [node_6] and no link. *)
Lemma importFlow_renumbers_nodes :
  (map fst (nodes trimmedPipeline) = ["node_2"; "node_3"]
   /\ map (fun l => (link_source l, link_target l)) (mapValues (links trimmedPipeline))
      = [("node_2", "node_3")]
   /\ map node_id (mapValues (nodes (importFlow newEditor (exportFlow trimmedPipeline))))
      = ["node_1"; "node_2"]
   /\ links (importFlow newEditor (exportFlow trimmedPipeline)) = [])
  /\ (map fst (nodes shiftedStore) = ["node_2"; "node_3"; "node_4"]
      /\ linkedPositions shiftedStore = [(Some 100%Z, Some 200%Z)]
      /\ map node_id (mapValues (nodes (importFlow newEditor (exportFlow shiftedStore))))
         = ["node_1"; "node_2"; "node_3"]
      /\ linkedPositions (importFlow newEditor (exportFlow shiftedStore))
         = [(Some 200%Z, Some 300%Z)])
  /\ (nodes (clearAll pipeline) = [] /\ links (clearAll pipeline) = []
      /\ map node_id (mapValues (nodes (importFlow (clearAll pipeline) (exportFlow pipeline))))
         = ["node_4"; "node_5"; "node_6"]
      /\ links (importFlow (clearAll pipeline) (exportFlow pipeline)) = []).
Proof. repeat split; reflexivity. Qed.

(** ** Node identifiers *)

Lemma deleteLink_links (ed : editor) (k : string) :
  links (deleteLink ed k) = mapDelete (links ed) k.
Proof.
  unfold deleteLink. destruct (mapGet (links ed) k) eqn:G.
  - destruct (optEqb _ _); reflexivity.
  - symmetry. now apply mapGet_None_mapDelete.
Qed.

Lemma deleteLink_frame (ed : editor) (k : string) :
  nodes (deleteLink ed k) = nodes ed
  /\ nodeCounter (deleteLink ed k) = nodeCounter ed
  /\ linkCounter (deleteLink ed k) = linkCounter ed.
Proof.
  unfold deleteLink. destruct (mapGet (links ed) k); [|auto].
  destruct (optEqb _ _); auto.
Qed.

Lemma deleteLinks_frame (ks : list string) :
  forall ed,
    nodes (fold_left deleteLink ks ed) = nodes ed
    /\ nodeCounter (fold_left deleteLink ks ed) = nodeCounter ed
    /\ linkCounter (fold_left deleteLink ks ed) = linkCounter ed.
Proof.
  induction ks as [|k ks IH]; intros ed; cbn [fold_left]; [auto|].
  destruct (IH (deleteLink ed k)) as (A & B & C).
  destruct (deleteLink_frame ed k) as (A' & B' & C'). repeat split; congruence.
Qed.

Lemma deleteNode_nodeCounter (ed : editor) (k : string) :
  nodeCounter (deleteNode ed k) = nodeCounter ed.
Proof.
  unfold deleteNode. destruct (mapGet (nodes ed) k); [|reflexivity].
  match goal with |- context [fold_left deleteLink ?ks ed] =>
    destruct (deleteLinks_frame ks ed) as (_ & B & _) end.
  destruct (optEqb _ _); cbn; assumption.
Qed.

Lemma createNode_nodeCounter (ed : editor) ty px py c :
  nodeCounter (snd (createNode ed ty px py c)) = S (nodeCounter ed).
Proof. unfold createNode. destruct (lookupType ty); reflexivity. Qed.

Lemma importLink_nodeCounter (ed : editor) (ld : linkData) :
  nodeCounter (importLink ed ld) = nodeCounter ed.
Proof. unfold importLink. destruct (find _ _); [destruct (find _ _)|]; reflexivity. Qed.

Lemma importLinks_nodeCounter (lds : list linkData) :
  forall ed, nodeCounter (fold_left importLink lds ed) = nodeCounter ed.
Proof.
  induction lds as [|ld lds IH]; intros ed; cbn [fold_left]; [reflexivity|].
  rewrite IH. apply importLink_nodeCounter.
Qed.

Lemma createdBy_between (ed : editor) ty px py c :
  idsBetween (nodeCounter ed) (S (nodeCounter ed)) (createdBy ed ty px py c)
  /\ NoDup (createdBy ed ty px py c).
Proof.
  unfold createdBy, createNode. destruct (lookupType ty); cbn [fst node_id].
  - split; [|repeat constructor; intros []].
    intros id [<-|[]]. exists (S (nodeCounter ed)). split; [reflexivity | lia].
  - split; [intros id [] | constructor].
Qed.

Lemma idsBetween_widen (lo lo' hi hi' : nat) (ids : list string) :
  (lo' <= lo)%nat -> (hi <= hi')%nat -> idsBetween lo hi ids -> idsBetween lo' hi' ids.
Proof.
  intros A B H id Hin. destruct (H id Hin) as (k & E & R). exists k. split; [assumption | lia].
Qed.

Lemma NoDup_app_between (lo mid hi : nat) (a b : list string) :
  idsBetween lo mid a -> idsBetween mid hi b -> NoDup a -> NoDup b ->
  (lo <= mid <= hi)%nat ->
  NoDup (a ++ b) /\ idsBetween lo hi (a ++ b).
Proof.
  intros Ia Ib Na Nb R. split.
  - induction a as [|u a IH]; [assumption|].
    cbn [app]. inversion Na as [|? ? Nu Na']; subst. constructor.
    + intros Hin. apply in_app_or in Hin as [Hin|Hin]; [contradiction|].
      destruct (Ia u (or_introl eq_refl)) as (k & E & Rk).
      destruct (Ib u Hin) as (k' & E' & Rk').
      rewrite E in E'. apply nodeId_inj in E'. lia.
    + apply IH; [|assumption]. intros id Hin. apply Ia. now right.
  - intros id Hin. apply in_app_or in Hin as [Hin|Hin].
    + apply (idsBetween_widen lo lo mid hi a); auto; lia.
    + apply (idsBetween_widen mid lo hi hi b); auto; lia.
Qed.

Lemma importNodes_nodeCounter (nds : list nodeData) :
  forall ed, (nodeCounter ed <= nodeCounter (fold_left importNode nds ed))%nat.
Proof.
  induction nds as [|nd nds IH]; intros ed; cbn [fold_left]; [lia|].
  specialize (IH (importNode ed nd)).
  assert (E : nodeCounter (importNode ed nd) = S (nodeCounter ed))
    by apply createNode_nodeCounter.
  lia.
Qed.

Lemma createdByImport_between (nds : list nodeData) :
  forall ed,
    idsBetween (nodeCounter ed) (nodeCounter (fold_left importNode nds ed))
               (createdByImport ed nds)
    /\ NoDup (createdByImport ed nds).
Proof.
  induction nds as [|nd nds IH]; intros ed; cbn [createdByImport fold_left].
  - split; [intros id [] | constructor].
  - destruct (createdBy_between ed (nd_type nd) (nd_x nd) (nd_y nd) (nd_config nd)) as [Ia Na].
    destruct (IH (importNode ed nd)) as [Ib Nb].
    pose proof (importNodes_nodeCounter nds (importNode ed nd)) as M.
    assert (E : nodeCounter (importNode ed nd) = S (nodeCounter ed))
      by apply createNode_nodeCounter.
    rewrite E in Ib, M.
    destruct (NoDup_app_between _ _ _ _ _ Ia Ib Na Nb) as [N I]; [lia|]. split; assumption.
Qed.

Lemma produced_between (ed : editor) (o : op) :
  idsBetween (nodeCounter ed) (nodeCounter (step ed o)) (produced ed o)
  /\ NoDup (produced ed o)
  /\ (nodeCounter ed <= nodeCounter (step ed o))%nat.
Proof.
  assert (Nil : forall lo hi, idsBetween lo hi []) by (intros lo hi id []).
  destruct o as [ty px py c|k|k|k px py| |t|k pt i|t]; cbn [produced step].
  - destruct (createdBy_between ed ty px py c) as [I N].
    rewrite createNode_nodeCounter. repeat split; auto.
  - rewrite deleteNode_nodeCounter. repeat split; auto; constructor.
  - destruct (deleteLink_frame ed k) as (_ & -> & _). repeat split; auto; constructor.
  - unfold moveNode. destruct (mapGet (nodes ed) k); repeat split; auto; constructor.
  - repeat split; auto; constructor.
  - unfold importFlow. destruct (JSON_parse t) as [fl|]; [|repeat split; auto; constructor].
    destruct (flow_nodes fl) as [nds|]; [|repeat split; auto; constructor].
    destruct (createdByImport_between nds (clearAll ed)) as [I N].
    pose proof (importNodes_nodeCounter nds (clearAll ed)) as M.
    change (nodeCounter (clearAll ed)) with (nodeCounter ed) in *.
    destruct (flow_links fl) as [lds|]; rewrite ?importLinks_nodeCounter; repeat split; auto.
  - destruct pt; repeat split; auto; constructor.
  - repeat split; auto; try constructor.
    unfold onConnectionMouseUp. destruct (isConnecting ed); [|lia].
    destruct (connectionStart ed) as [[sn sp]|]; [|lia].
    destruct t as [[tid tp]|]; [|cbn; lia].
    destruct (mapGet (nodes ed) tid); [|cbn; lia].
    destruct sn; [|cbn; lia]. destruct (negb _); cbn; lia.
Qed.

Lemma producedIds_between (ops : list op) :
  forall ed,
    idsBetween (nodeCounter ed) (nodeCounter (run ed ops)) (producedIds ed ops)
    /\ NoDup (producedIds ed ops)
    /\ (nodeCounter ed <= nodeCounter (run ed ops))%nat.
Proof.
  induction ops as [|o ops IH]; intros ed; cbn [producedIds run fold_left].
  - repeat split; [intros id [] | constructor | lia].
  - destruct (produced_between ed o) as (Ia & Na & Ma).
    destruct (IH (step ed o)) as (Ib & Nb & Mb). unfold run in *.
    destruct (NoDup_app_between _ _ _ _ _ Ia Ib Na Nb) as [N I]; [lia|].
    repeat split; auto; lia.
Qed.

(** C10. [createNode] advances the node counter before it looks the type up:
    a call with a type the catalogue lookup does not find returns no node and
    still consumes an id; [clearAll] leaves the counter as it is; hence in
    every session the ids of the nodes [createNode] returns are pairwise
    distinct, also across failed creations, clears and imports. *)
Theorem node_ids_never_reused (ed : editor) (ops : list op) :
  (forall ty px py c,
     lookupType ty = None ->
     fst (createNode ed ty px py c) = None
     /\ nodeCounter (snd (createNode ed ty px py c)) = S (nodeCounter ed)
     /\ nodes (snd (createNode ed ty px py c)) = nodes ed)
  /\ (forall ty px py c n,
        fst (createNode ed ty px py c) = Some n ->
        node_id n = "node_" ++ decimal (S (nodeCounter ed))
        /\ nodeCounter (snd (createNode ed ty px py c)) = S (nodeCounter ed))
  /\ nodeCounter (clearAll ed) = nodeCounter ed
  /\ NoDup (producedIds ed ops)
  /\ idsBetween (nodeCounter ed) (nodeCounter (run ed ops)) (producedIds ed ops).
Proof.
  split; [|split; [|split; [|split]]].
  - intros ty px py c H. unfold createNode. rewrite H. repeat split.
  - intros ty px py c n. unfold createNode.
    destruct (lookupType ty); cbn [fst snd]; [|discriminate].
    intros [= <-]. split; reflexivity.
  - reflexivity.
  - apply producedIds_between.
  - apply producedIds_between.
Qed.

Lemma node_ids_never_reused_witness :
  lookupType "widget" = None
  /\ fst (createNode newEditor "widget" 0 0 []) = None
  /\ nodeCounter (snd (createNode newEditor "widget" 0 0 [])) = 1%nat
  /\ producedIds newEditor
       [CreateNode "widget" 0 0 []; CreateNode "debug" 0 0 []; ClearAll;
        CreateNode "debug" 0 0 []; ImportFlow documentWithoutLinks]
     = ["node_2"; "node_3"; "node_4"]
  /\ NoDup (producedIds newEditor
              [CreateNode "widget" 0 0 []; CreateNode "debug" 0 0 []; ClearAll;
               CreateNode "debug" 0 0 []; ImportFlow documentWithoutLinks]).
Proof.
  pose proof (node_ids_never_reused newEditor
                [CreateNode "widget" 0 0 []; CreateNode "debug" 0 0 []; ClearAll;
                 CreateNode "debug" 0 0 []; ImportFlow documentWithoutLinks])
    as (U & _ & _ & N & _).
  destruct (U "widget" 0%Z 0%Z [] eq_refl) as (A & B & _).
  split; [reflexivity|]. split; [exact A|]. split; [exact B|]. split; [reflexivity | exact N].
Defined.

(** ** Node deletion and the endpoints of links *)

Lemma deleteLinks_links_In (ks : list string) :
  forall ed kl,
    In kl (links (fold_left deleteLink ks ed)) <-> In kl (links ed) /\ ~ In (fst kl) ks.
Proof.
  induction ks as [|k ks IH]; intros ed kl; cbn [fold_left In].
  - tauto.
  - rewrite IH, deleteLink_links. unfold mapDelete. rewrite filter_In.
    rewrite negb_true_iff, String.eqb_neq. intuition congruence.
Qed.

Lemma deleteNode_present (ed : editor) (nodeId : string) (n : node) :
  mapGet (nodes ed) nodeId = Some n ->
  nodes (deleteNode ed nodeId) = mapDelete (nodes ed) nodeId
  /\ (forall kl, In kl (links (deleteNode ed nodeId)) ->
                 In kl (links ed)
                 /\ (link_source (snd kl) =? nodeId) || (link_target (snd kl) =? nodeId) = false)
  /\ (NoDup (map fst (links ed)) ->
      forall kl, In kl (links ed) ->
                 (link_source (snd kl) =? nodeId) || (link_target (snd kl) =? nodeId) = false ->
                 In kl (links (deleteNode ed nodeId))).
Proof.
  intros G. unfold deleteNode. rewrite G.
  set (ks := map fst (filter _ (links ed))).
  destruct (deleteLinks_frame ks ed) as (Nd & _ & _).
  assert (L : forall kl, In kl (links (fold_left deleteLink ks ed)) ->
                         In kl (links ed)
                         /\ (link_source (snd kl) =? nodeId) || (link_target (snd kl) =? nodeId) = false).
  { intros kl H. apply deleteLinks_links_In in H as [Hin Hk]. split; [assumption|].
    destruct ((link_source (snd kl) =? nodeId) || (link_target (snd kl) =? nodeId)) eqn:R;
      [|reflexivity].
    exfalso. apply Hk. unfold ks. apply in_map. apply filter_In. split; assumption. }
  assert (K : NoDup (map fst (links ed)) ->
              forall kl, In kl (links ed) ->
                         (link_source (snd kl) =? nodeId) || (link_target (snd kl) =? nodeId) = false ->
                         In kl (links (fold_left deleteLink ks ed))).
  { intros N kl Hin R. apply deleteLinks_links_In. split; [assumption|]. intros Hk.
    unfold ks in Hk. apply in_map_iff in Hk as (kl' & Ek & Hf).
    apply filter_In in Hf as [Hin' R'].
    destruct kl as [k l], kl' as [k' l']. cbn [fst snd] in *. subst k'.
    rewrite (NoDup_keys_functional _ _ _ _ N Hin Hin') in R. congruence. }
  destruct (optEqb _ _); cbn [nodes links clearSelection withSelection withNodes];
    rewrite Nd; split; auto.
Qed.

Lemma createNode_keeps_endpoints (ed : editor) ty px py c :
  linkEndpointsPresent ed -> linkEndpointsPresent (snd (createNode ed ty px py c)).
Proof.
  intros I. unfold createNode. destruct (lookupType ty); cbn [snd]; [|exact I].
  intros l Hl. destruct (I l Hl). cbn [nodes withNodes withNodeCounter].
  split; auto with store.
Qed.

Lemma createNode_keysMatch (ed : editor) ty px py c :
  keysMatch ed -> keysMatch (snd (createNode ed ty px py c)).
Proof.
  intros K. unfold createNode. destruct (lookupType ty) as [nt|]; cbn [snd]; [|exact K].
  intros k n H. cbn [nodes withNodes withNodeCounter] in H.
  apply mapSet_In in H as [[-> ->]|H]; [reflexivity | now apply K].
Qed.

Lemma createConnection_keeps_endpoints (ed : editor) (sn tn : node) (sp tp : nat) :
  linkEndpointsPresent ed ->
  mapHas (nodes ed) (node_id sn) = true -> mapHas (nodes ed) (node_id tn) = true ->
  linkEndpointsPresent (snd (createConnection ed sn sp tn tp)).
Proof.
  intros I S T l Hl. cbn [createConnection snd links nodes withLinks withLinkCounter] in *.
  apply mapValues_mapSet_In in Hl as [->|Hl]; [split; assumption | apply I; assumption].
Qed.

Lemma deleteLink_keeps_endpoints (ed : editor) (k : string) :
  linkEndpointsPresent ed -> linkEndpointsPresent (deleteLink ed k).
Proof.
  intros I l Hl. rewrite deleteLink_links in Hl. apply mapValues_mapDelete_In in Hl.
  destruct (deleteLink_frame ed k) as (-> & _ & _). apply I; assumption.
Qed.

Lemma moveNode_keeps_endpoints (ed : editor) (k : string) (px py : Z) :
  linkEndpointsPresent ed -> linkEndpointsPresent (moveNode ed k px py).
Proof.
  intros I. unfold moveNode. destruct (mapGet (nodes ed) k); [|exact I].
  intros l Hl. destruct (I l Hl). split; apply mapHas_mapSet; assumption.
Qed.

Lemma deleteNode_keeps_endpoints (ed : editor) (nodeId : string) :
  linkEndpointsPresent ed -> linkEndpointsPresent (deleteNode ed nodeId).
Proof.
  intros I. destruct (mapGet (nodes ed) nodeId) as [n|] eqn:G;
    [|unfold deleteNode; rewrite G; exact I].
  destruct (deleteNode_present ed nodeId n G) as (Nd & L & _).
  intros l Hl. apply mapValues_In in Hl as (k & Hl). apply L in Hl as [Hin R].
  cbn [snd] in R. apply orb_false_iff in R as [Rs Rt].
  apply String.eqb_neq in Rs, Rt.
  destruct (I l) as [A B]; [apply mapValues_In; now exists k|].
  rewrite Nd. rewrite !mapHas_mapDelete_other by assumption. split; assumption.
Qed.

Lemma importNodes_inv (nds : list nodeData) :
  forall ed, linkEndpointsPresent ed -> keysMatch ed ->
             linkEndpointsPresent (fold_left importNode nds ed)
             /\ keysMatch (fold_left importNode nds ed).
Proof.
  induction nds as [|nd nds IH]; intros ed I K; cbn [fold_left]; [auto|].
  apply IH; [apply createNode_keeps_endpoints | apply createNode_keysMatch]; assumption.
Qed.

Lemma find_node_present (ed : editor) (id : string) (n : node) :
  keysMatch ed ->
  find (fun n => node_id n =? id) (mapValues (nodes ed)) = Some n ->
  mapHas (nodes ed) (node_id n) = true.
Proof.
  intros K F. apply find_some in F as [Hin _]. apply mapValues_In in Hin as (k & Hin).
  rewrite (K k n Hin). eauto with store.
Qed.

Lemma importLinks_inv (lds : list linkData) :
  forall ed, linkEndpointsPresent ed -> keysMatch ed ->
             linkEndpointsPresent (fold_left importLink lds ed).
Proof.
  induction lds as [|ld lds IH]; intros ed I K; cbn [fold_left]; [assumption|].
  apply IH.
  - unfold importLink.
    destruct (find (fun n => node_id n =? ld_source ld) _) as [sn|] eqn:Fs; [|assumption].
    destruct (find (fun n => node_id n =? ld_target ld) _) as [tn|] eqn:Ft; [|assumption].
    apply createConnection_keeps_endpoints; [assumption| |];
      eapply find_node_present; eassumption.
  - unfold importLink.
    destruct (find (fun n => node_id n =? ld_source ld) _) as [sn|]; [|assumption].
    destruct (find (fun n => node_id n =? ld_target ld) _) as [tn|]; assumption.
Qed.

Lemma importFlow_keeps_endpoints (ed : editor) (t : flowText) :
  linkEndpointsPresent ed -> linkEndpointsPresent (importFlow ed t).
Proof.
  intros I. unfold importFlow. destruct (JSON_parse t) as [fl|]; [|exact I].
  assert (I0 : linkEndpointsPresent (clearAll ed)) by (intros l []).
  assert (K0 : keysMatch (clearAll ed)) by (intros k n []).
  destruct (flow_nodes fl) as [nds|]; [|exact I0].
  destruct (importNodes_inv nds _ I0 K0) as [I1 K1].
  destruct (flow_links fl) as [lds|]; [|exact I1].
  apply importLinks_inv; assumption.
Qed.

(** C4, as the code has it.  For a node id present in the store,
    [deleteNode] removes the node and every link whose source or target is
    that id: a scan of the links afterwards finds none that mentions the id,
    the other nodes stay, no link is added, and (keys being unique) the links
    that do not mention the id stay.  From a store in which every link has
    both endpoints present, [createNode], [deleteNode], [deleteLink],
    [moveNode], [clearAll] and [importFlow] lead to such a store again, and so
    does [createConnection] when the two node objects it is given are present
    in the store. *)
Theorem deleteNode_cascades_and_endpoints_stay (ed : editor) :
  (forall nodeId,
     mapHas (nodes ed) nodeId = true ->
     mapGet (nodes (deleteNode ed nodeId)) nodeId = None
     /\ linksReferencing (deleteNode ed nodeId) nodeId = []
     /\ (forall k, k <> nodeId ->
                   mapGet (nodes (deleteNode ed nodeId)) k = mapGet (nodes ed) k)
     /\ (forall kl, In kl (links (deleteNode ed nodeId)) -> In kl (links ed))
     /\ (NoDup (map fst (links ed)) ->
         forall kl, In kl (links ed) ->
                    link_source (snd kl) <> nodeId -> link_target (snd kl) <> nodeId ->
                    In kl (links (deleteNode ed nodeId))))
  /\ (linkEndpointsPresent ed ->
      (forall nodeId, linkEndpointsPresent (deleteNode ed nodeId))
      /\ (forall ty px py c, linkEndpointsPresent (snd (createNode ed ty px py c)))
      /\ (forall linkId, linkEndpointsPresent (deleteLink ed linkId))
      /\ (forall nodeId px py, linkEndpointsPresent (moveNode ed nodeId px py))
      /\ linkEndpointsPresent (clearAll ed)
      /\ (forall flowData, linkEndpointsPresent (importFlow ed flowData))
      /\ (forall sn sp tn tp,
            mapHas (nodes ed) (node_id sn) = true ->
            mapHas (nodes ed) (node_id tn) = true ->
            linkEndpointsPresent (snd (createConnection ed sn sp tn tp)))).
Proof.
  split.
  - intros nodeId H. unfold mapHas in H.
    destruct (mapGet (nodes ed) nodeId) as [n|] eqn:G; [clear H | discriminate].
    destruct (deleteNode_present ed nodeId n G) as (Nd & L & K).
    split; [rewrite Nd; apply mapGet_mapDelete_same|].
    split; [|split; [|split]].
    + unfold linksReferencing.
      destruct (filter _ _) as [|l rest] eqn:F; [reflexivity|]. exfalso.
      assert (Hl : In l (filter (fun l => (link_source l =? nodeId) || (link_target l =? nodeId))
                            (mapValues (links (deleteNode ed nodeId)))))
        by (rewrite F; now left).
      apply filter_In in Hl as [Hl R]. apply mapValues_In in Hl as (k & Hl).
      apply L in Hl as [_ R']. cbn [snd] in R'. congruence.
    + intros k Hk. rewrite Nd. now apply mapGet_mapDelete_other.
    + intros kl Hkl. now apply L.
    + intros N kl Hin Hs Ht. apply K; [assumption..|].
      apply orb_false_iff. split; apply String.eqb_neq; assumption.
  - intros I. split; [intros; now apply deleteNode_keeps_endpoints|].
    split; [intros; now apply createNode_keeps_endpoints|].
    split; [intros; now apply deleteLink_keeps_endpoints|].
    split; [intros; now apply moveNode_keeps_endpoints|].
    split; [intros l []|].
    split; [intros; now apply importFlow_keeps_endpoints|].
    intros; now apply createConnection_keeps_endpoints.
Qed.

Lemma pipeline_endpoints_present : linkEndpointsPresent pipeline.
Proof.
  intros l [<-|[<-|[]]]; split; reflexivity.
Defined.

Lemma deleteNode_cascades_and_endpoints_stay_witness :
  mapHas (nodes pipeline) "node_2" = true
  /\ mapGet (nodes (deleteNode pipeline "node_2")) "node_2" = None
  /\ linksReferencing (deleteNode pipeline "node_2") "node_2" = []
  /\ map fst (nodes (deleteNode pipeline "node_2")) = ["node_1"; "node_3"]
  /\ linkEndpointsPresent (deleteNode pipeline "node_2").
Proof.
  destruct (deleteNode_cascades_and_endpoints_stay pipeline) as [D P].
  destruct (D "node_2" eq_refl) as (A & B & _).
  destruct (P pipeline_endpoints_present) as (E & _).
  split; [reflexivity|]. split; [exact A|]. split; [exact B|]. split; [reflexivity|].
  apply E.
Defined.

(** C4, as stated, fails for [createConnection]: in the interrupted gesture
    every link of the store has its endpoints present (there is none), and
    the release of the mouse over the input port of [node_2] calls
    [createConnection] with the node object of the deleted [node_1]; the
    link it stores has a source that is not in the store. *)
Lemma createConnection_links_deleted_node :
  exists sn tn,
    links interruptedGesture = []
    /\ map fst (nodes interruptedGesture) = ["node_2"]
    /\ connectionStart interruptedGesture = Some (Some sn, 0%nat)
    /\ node_id sn = "node_1"
    /\ mapGet (nodes interruptedGesture) "node_2" = Some tn
    /\ onConnectionMouseUp interruptedGesture (Some ("node_2", 0%nat))
       = endConnection (snd (createConnection interruptedGesture sn 0 tn 0))
    /\ map (fun l => (link_source l, link_target l))
           (mapValues (links (step interruptedGesture (ConnectionMouseUp (Some ("node_2", 0%nat))))))
       = [("node_1", "node_2")]
    /\ mapHas (nodes (step interruptedGesture (ConnectionMouseUp (Some ("node_2", 0%nat)))))
              "node_1" = false
    /\ ~ linkEndpointsPresent (snd (createConnection interruptedGesture sn 0 tn 0)).
Proof.
  do 2 eexists.
  split; [reflexivity|]. split; [reflexivity|]. split; [reflexivity|].
  split; [reflexivity|]. split; [reflexivity|]. split; [reflexivity|].
  split; [reflexivity|]. split; [reflexivity|].
  intros I. destruct (I _ (or_introl eq_refl)) as [A _]. discriminate A.
Qed.

(** ** Network-data generator *)

Lemma sn_id_inj (networkType : string) (i j : nat) :
  sn_id (simNodeAt networkType i) = sn_id (simNodeAt networkType j) -> i = j.
Proof.
  unfold simNodeAt.
  destruct (networkType =? "social"); [|destruct (networkType =? "organizational");
                                        [|destruct (networkType =? "technical")]];
    cbn [sn_id]; intros H; apply append_inj_l in H; now apply decimal_inj.
Qed.

Lemma simNodes_length (networkType : string) (nodeCount : nat) :
  List.length (simNodes networkType nodeCount) = nodeCount.
Proof. unfold simNodes. now rewrite length_map, length_seq. Qed.

Lemma simNodes_nth (networkType : string) (nodeCount i : nat) :
  (i < nodeCount)%nat ->
  nth_error (simNodes networkType nodeCount) i = Some (simNodeAt networkType i).
Proof.
  intros H. unfold simNodes. rewrite nth_error_map.
  rewrite nth_error_seq. apply Nat.ltb_lt in H. rewrite H. reflexivity.
Qed.

Lemma pairKey_sym (a b : nat) : pairKey a b = pairKey b a.
Proof. unfold pairKey. now rewrite Nat.min_comm, Nat.max_comm. Qed.

Lemma setHas_cons (usedPairs : list string) (key key' : string) :
  setHas usedPairs key' = true -> setHas (key :: usedPairs) key' = true.
Proof. unfold setHas. cbn [existsb]. intros ->. apply orb_true_r. Qed.

Lemma setHas_head (usedPairs : list string) (key : string) :
  setHas (key :: usedPairs) key = true.
Proof. unfold setHas. cbn [existsb]. now rewrite String.eqb_refl. Qed.

Section EdgeLoop.
Variable rnd : nat -> nat.
Variable networkType : string.
Variable nodeCount : nat.

(** The loop of one edge stops after at most [budget + 1] draws of a pair,
    returns the last pair drawn and has counted its draws. *)
Lemma drawPair_spec (usedPairs : list string) (budget : nat) :
  forall attempts k,
    exists j, (j <= budget)%nat
              /\ drawPair rnd usedPairs budget attempts k
                 = (rnd (k + 2 * j)%nat, rnd (S (k + 2 * j)),
                    pairKey (rnd (k + 2 * j)%nat) (rnd (S (k + 2 * j))),
                    (attempts + j + 1)%nat,
                    (k + 2 * j + 2)%nat).
Proof.
  induction budget as [|budget IH]; intros attempts k; cbn [drawPair].
  - exists 0%nat. split; [lia|]. replace (k + 2 * 0)%nat with k by lia.
    repeat f_equal; lia.
  - destruct ((rnd k =? rnd (S k))%nat || setHas usedPairs (pairKey (rnd k) (rnd (S k)))).
    + destruct (IH (S attempts) (S (S k))) as (j & Hj & E). exists (S j). split; [lia|].
      rewrite E. replace (S (S k) + 2 * j)%nat with (k + 2 * S j)%nat by lia.
      replace (S attempts + j + 1)%nat with (attempts + S j + 1)%nat by lia.
      reflexivity.
    + exists 0%nat. split; [lia|]. replace (k + 2 * 0)%nat with k by lia.
      repeat f_equal; lia.
Qed.

Lemma noDuplicatePair_snoc (acc : list simEdge) (e : simEdge) :
  noDuplicatePair acc -> (forall e', In e' acc -> ~ samePair e' e) ->
  noDuplicatePair (acc ++ [e]).
Proof.
  induction acc as [|a acc IH]; cbn [app noDuplicatePair]; intros N F.
  - split; [intros e' [] | exact I].
  - destruct N as [Na N]. split.
    + intros e' Hin. apply in_app_or in Hin as [Hin|[<-|[]]]; [now apply Na|].
      apply F. now left.
    + apply IH; [assumption|]. intros e' Hin. apply F. now right.
Qed.

(** One more edge on a pair that is not recorded yet. *)
Lemma edgesRecorded_step (usedPairs : list string) (acc : list simEdge) (s t : nat) :
  edgesRecorded networkType nodeCount usedPairs acc ->
  (s < nodeCount)%nat -> (t < nodeCount)%nat -> s <> t ->
  setHas usedPairs (pairKey s t) = false ->
  edgesRecorded networkType nodeCount (pairKey s t :: usedPairs)
                (acc ++ [edgeBetween networkType s t]).
Proof.
  intros [R N] Hs Ht Hst Hk. split.
  - intros e Hin. apply in_app_or in Hin as [Hin|[<-|[]]].
    + destruct (R e Hin) as (s' & t' & A & B & C & D & E).
      exists s', t'. repeat split; auto. now apply setHas_cons.
    + exists s, t. repeat split; auto. apply setHas_head.
  - apply noDuplicatePair_snoc; [assumption|].
    intros e' Hin [[A B]|[A B]]; destruct (R e' Hin) as (s' & t' & _ & _ & _ & -> & U);
      cbn [edgeBetween se_source se_target] in A, B;
      apply sn_id_inj in A, B; subst.
    + congruence.
    + rewrite pairKey_sym in U. congruence.
Qed.

Hypothesis draws_in_range : forall k, (rnd k < nodeCount)%nat.

(** The for loop returns, keeps the record of the edges, adds at most one
    edge in each round and logs the attempts of each round, which are at
    least one and at most [targetLinkCount * 2 + 1]. *)
Lemma linkLoop_spec (target : nat) :
  forall iters usedPairs acc attemptsLog k,
    edgesRecorded networkType nodeCount usedPairs acc ->
    exists edges usedPairs' logged,
      linkLoop rnd (simNodes networkType nodeCount) target iters usedPairs acc attemptsLog k
      = Some (edges, (attemptsLog ++ logged)%list)
      /\ edgesRecorded networkType nodeCount usedPairs' edges
      /\ (List.length edges <= List.length acc + iters)%nat
      /\ List.length logged = iters
      /\ Forall (fun attempts => (1 <= attempts <= target * 2 + 1)%nat) logged.
Proof.
  induction iters as [|iters IH]; intros usedPairs acc attemptsLog k Inv; cbn [linkLoop].
  - exists acc, usedPairs, []. rewrite app_nil_r.
    repeat split; [apply Inv.. | lia | constructor].
  - destruct (drawPair_spec usedPairs (target * 2) 0 k) as (j & Hj & ->).
    set (s := rnd (k + 2 * j)%nat). set (t := rnd (S (k + 2 * j))).
    destruct (negb (s =? t)%nat && negb (setHas usedPairs (pairKey s t))) eqn:C.
    + apply andb_true_iff in C as [Cst Ck].
      apply negb_true_iff in Cst, Ck. apply Nat.eqb_neq in Cst.
      rewrite !simNodes_nth by apply draws_in_range.
      destruct (IH (pairKey s t :: usedPairs) (acc ++ [edgeBetween networkType s t])%list
                   (attemptsLog ++ [(0 + j + 1)%nat])%list
                   (k + 2 * j + 2)%nat) as (edges & used' & logged & E & Inv' & L & Ll & B).
      { apply edgesRecorded_step; auto; apply draws_in_range. }
      exists edges, used', ((0 + j + 1)%nat :: logged).
      split; [etransitivity; [exact E|]; rewrite <- app_assoc; reflexivity|]. split; [exact Inv'|].
      rewrite length_app in L. cbn [List.length] in L |- *.
      split; [lia|]. split; [lia|]. constructor; [lia | exact B].
    + destruct (IH usedPairs acc (attemptsLog ++ [(0 + j + 1)%nat])%list
                   (k + 2 * j + 2)%nat Inv) as (edges & used' & logged & E & Inv' & L & Ll & B).
      exists edges, used', ((0 + j + 1)%nat :: logged).
      split; [etransitivity; [exact E|]; rewrite <- app_assoc; reflexivity|]. split; [exact Inv'|].
      cbn [List.length]. split; [lia|]. split; [lia|]. constructor; [lia | exact B].
Qed.
End EdgeLoop.

(** With fewer than two nodes [maxPossibleLinks] is a zero, and its product
    with any connectivity is a zero or not a number: the loop has no round. *)
Lemma rounds_few_nodes (nodeCount : nat) (connectivity : spec_float) :
  (nodeCount <= 1)%nat -> rounds (targetLinkCount nodeCount connectivity) = Some 0%nat.
Proof.
  intros H. destruct nodeCount as [|[|n]]; [| |lia];
    destruct connectivity as [s|s| |s m e]; reflexivity.
Qed.

(** The product of any [maxPossibleLinks] with a zero is a zero or not a
    number. *)
Lemma rounds_zero_connectivity (nodeCount : nat) (s : bool) :
  rounds (targetLinkCount nodeCount (S754_zero s)) = Some 0%nat.
Proof.
  unfold targetLinkCount. cbv zeta.
  destruct (divDouble _ _) as [s'|s'| |s' m e]; reflexivity.
Qed.

(** The rounds of an integer target are the target itself, or none when it
    is negative. *)
Lemma rounds_integer (targetLinkCount : floored) (target : nat) (z : Z) :
  rounds targetLinkCount = Some target -> targetLinkCount = Integer z ->
  Z.of_nat target = Z.max 0 z.
Proof.
  intros R ->. cbn [rounds] in R. destruct (z <? 2 ^ 52)%Z; [|discriminate].
  injection R as <-. lia.
Qed.

(** A run of the generator whose target is in the range of the counters. *)
Lemma generateNetworkDataLog_run (rnd : nat -> nat) (networkType : string)
      (nodeCount : nat) (connectivity : spec_float) (target : nat) :
  (forall k, (0 < nodeCount)%nat -> (rnd k < nodeCount)%nat) ->
  rounds (targetLinkCount nodeCount connectivity) = Some target ->
  exists edges usedPairs attemptsLog,
    generateNetworkDataLog rnd networkType nodeCount connectivity
    = Some ({| sim_nodes := simNodes networkType nodeCount;
               sim_edges := edges;
               sim_metadata := {| md_networkType := networkType;
                                  md_nodeCount := nodeCount;
                                  md_linkCount := List.length edges;
                                  md_connectivity := connectivity |} |},
            attemptsLog)
    /\ edgesRecorded networkType nodeCount usedPairs edges
    /\ (List.length edges <= target)%nat
    /\ List.length attemptsLog = target
    /\ Forall (fun attempts => (1 <= attempts <= target * 2 + 1)%nat) attemptsLog.
Proof.
  intros Rng T. unfold generateNetworkDataLog. rewrite T.
  assert (Inv0 : edgesRecorded networkType nodeCount [] [])
    by (split; [intros e [] | exact I]).
  assert (Run : exists edges usedPairs' logged,
             linkLoop rnd (simNodes networkType nodeCount) target target [] [] [] 0
             = Some (edges, logged)
             /\ edgesRecorded networkType nodeCount usedPairs' edges
             /\ (List.length edges <= target)%nat
             /\ List.length logged = target
             /\ Forall (fun attempts => (1 <= attempts <= target * 2 + 1)%nat) logged).
  { destruct nodeCount as [|n'].
    - rewrite rounds_few_nodes in T by lia. injection T as <-.
      exists [], [], []. split; [reflexivity|]. split; [exact Inv0|].
      split; [cbn; lia|]. split; [reflexivity | constructor].
    - destruct (linkLoop_spec rnd networkType (S n') (fun k => Rng k (Nat.lt_0_succ n'))
                              target target [] [] [] 0 Inv0)
        as (edges & used' & logged & E & Inv' & L & Ll & B).
      exists edges, used', logged. cbn [app List.length] in E, L. auto. }
  destruct Run as (edges & used' & logged & E & Inv' & L & Ll & B). rewrite E.
  exists edges, used', logged. auto.
Qed.

(** C9, as the code has it.  The target number of links is
    Math.floor(maxPossibleLinks * connectivity) in double precision, and the
    for loop runs that many rounds, or none when the target is negative or
    not a number.  With draws in range and a target in the range of the loop
    counters, the generator returns a result with exactly nodeCount nodes,
    no edge from a node to itself, no two edges on the same unordered pair
    of nodes and at most as many edges as rounds; each round draws at least
    one pair and at most targetLinkCount * 2 + 1 pairs: it gives up when
    its attempt counter exceeds twice the target. *)
Theorem generateNetworkData_properties (rnd : nat -> nat) (networkType : string)
        (nodeCount : nat) (connectivity : spec_float) (target : nat) :
  (forall k, (0 < nodeCount)%nat -> (rnd k < nodeCount)%nat) ->
  rounds (targetLinkCount nodeCount connectivity) = Some target ->
  exists d attemptsLog,
    generateNetworkDataLog rnd networkType nodeCount connectivity = Some (d, attemptsLog)
    /\ generateNetworkData rnd networkType nodeCount connectivity = Some d
    /\ List.length (sim_nodes d) = nodeCount
    /\ (forall e, In e (sim_edges d) -> se_source e <> se_target e)
    /\ noDuplicatePair (sim_edges d)
    /\ (List.length (sim_edges d) <= target)%nat
    /\ (forall z, targetLinkCount nodeCount connectivity = Integer z ->
          Z.of_nat target = Z.max 0 z)
    /\ List.length attemptsLog = target
    /\ Forall (fun attempts => (1 <= attempts <= target * 2 + 1)%nat) attemptsLog.
Proof.
  intros Rng T.
  destruct (generateNetworkDataLog_run rnd networkType nodeCount connectivity target Rng T)
    as (edges & used' & logged & E & [R N] & L & Ll & B).
  eexists. exists logged. split; [exact E|].
  split; [unfold generateNetworkData; rewrite E; reflexivity|].
  cbn [sim_nodes sim_edges].
  split; [apply simNodes_length|]. split; [|split; [exact N|split; [exact L|split]]].
  - intros e Hin. destruct (R e Hin) as (s & t & _ & _ & Hst & -> & _).
    cbn [edgeBetween se_source se_target]. intros H. apply sn_id_inj in H. contradiction.
  - intros z. now apply rounds_integer.
  - split; assumption.
Qed.

Lemma sampleDraws_in_range (k : nat) : (0 < 8)%nat -> (sampleDraws k < 8)%nat.
Proof. intros _. unfold sampleDraws. apply Nat.mod_upper_bound. discriminate. Defined.

Lemma generateNetworkData_properties_witness :
  targetLinkCount 8 (ratio 3 10) = Integer 8
  /\ exists d attemptsLog,
       generateNetworkDataLog sampleDraws "social" 8 (ratio 3 10) = Some (d, attemptsLog)
       /\ List.length (sim_nodes d) = 8%nat
       /\ (forall e, In e (sim_edges d) -> se_source e <> se_target e)
       /\ noDuplicatePair (sim_edges d)
       /\ (List.length (sim_edges d) <= 8)%nat
       /\ List.length attemptsLog = 8%nat
       /\ Forall (fun attempts => (1 <= attempts <= 17)%nat) attemptsLog.
Proof.
  split; [reflexivity|].
  destruct (generateNetworkData_properties sampleDraws "social" 8 (ratio 3 10) 8
              sampleDraws_in_range eq_refl)
    as (d & attemptsLog & G & _ & Ln & S & N & B & _ & Ll & A).
  exists d, attemptsLog. repeat split; assumption.
Defined.

(** C9, the statement as given fails on three counts.  A round whose draws
    are all rejected draws 2 * target + 1 pairs, one more than twice the
    target: with nodeCount 8, connectivity 0.3 and every draw 0 the target
    is 8 and the first round draws 17 pairs.  With a negative connectivity
    the floor is negative and the empty edge list is longer than it.  The
    product is rounded before it is floored: the double 0.3 lies below 3/10
    and the floor of ten times its value is 2, yet the target of nodeCount 5
    is 3 and a run reaches 3 edges. *)
Lemma generateNetworkData_beyond_stated_bounds :
  (targetLinkCount 8 (ratio 3 10) = Integer 8
   /\ exists d attemptsLog,
        generateNetworkDataLog (fun _ => 0%nat) "social" 8 (ratio 3 10)
        = Some (d, attemptsLog)
        /\ nth 0 attemptsLog 0%nat = 17%nat /\ (2 * 8 < 17)%nat)
  /\ (targetLinkCount 8 (ratio (-3) 10) = Integer (-9)
      /\ exists d,
           generateNetworkData (fun _ => 0%nat) "social" 8 (ratio (-3) 10) = Some d
           /\ (- 9 < Z.of_nat (List.length (sim_edges d)))%Z)
  /\ (ratio 3 10 = S754_finite false 5404319552844595 (-54)
      /\ (10 * 5404319552844595 / 2 ^ 54 = 2)%Z
      /\ targetLinkCount 5 (ratio 3 10) = Integer 3
      /\ exists d,
           generateNetworkData (fun k => nth k [0; 1; 1; 2; 2; 3] 0)%nat "social" 5 (ratio 3 10)
           = Some d
           /\ List.length (sim_edges d) = 3%nat).
Proof.
  split; [|split].
  - split; [reflexivity|]. do 2 eexists. split; [reflexivity|]. split; [reflexivity|lia].
  - split; [reflexivity|]. eexists. split; [reflexivity|]. cbn. lia.
  - split; [reflexivity|]. split; [reflexivity|]. split; [reflexivity|].
    eexists. split; reflexivity.
Qed.

(* ================================================================== *)
(** * Further properties *)

(** ** More on insertion-ordered maps *)

Section MapKeys.
Context {A : Type}.
Implicit Types (m : Map A) (k j : string) (a b c : A).

Lemma mapHas_In m k : mapHas m k = true <-> exists a, In (k, a) m.
Proof.
  split.
  - unfold mapHas. destruct (mapGet m k) as [a|] eqn:G; [|discriminate].
    intros _. exists a. now apply mapGet_In.
  - intros [a H]. now apply (In_mapHas m k a).
Qed.

Lemma mapHas_keys m k : mapHas m k = true <-> In k (map fst m).
Proof.
  rewrite mapHas_In, in_map_iff. split.
  - intros [a H]. now exists (k, a).
  - intros ([j a] & E & H). cbn in E. subst. now exists a.
Qed.

Lemma mapSet_absent m k a : mapHas m k = false -> mapSet m k a = (m ++ [(k, a)])%list.
Proof.
  unfold mapHas, mapGet. induction m as [|[j b] m IH]; cbn [mapSet assoc app]; [reflexivity|].
  destruct (j =? k) eqn:E; [discriminate|]. intros H. now rewrite IH.
Qed.

Lemma mapSet_keys_present m k a : mapHas m k = true -> map fst (mapSet m k a) = map fst m.
Proof.
  unfold mapHas, mapGet. induction m as [|[j b] m IH]; cbn [mapSet assoc map fst]; [discriminate|].
  destruct (j =? k) eqn:E; cbn [map fst]; [reflexivity|]. intros H. now rewrite IH.
Qed.

Lemma mapGet_mapSet_eq m k a : mapGet m k = Some a -> mapSet m k a = m.
Proof.
  unfold mapGet. induction m as [|[j b] m IH]; cbn [mapSet assoc]; [discriminate|].
  destruct (j =? k) eqn:E.
  - intros [= ->]. reflexivity.
  - intros H. now rewrite IH.
Qed.

Lemma mapDelete_In m k j c : In (j, c) (mapDelete m k) <-> In (j, c) m /\ j <> k.
Proof.
  unfold mapDelete. rewrite filter_In. cbn [fst].
  rewrite negb_true_iff, String.eqb_neq. tauto.
Qed.

Lemma mapDelete_keys m k :
  map fst (mapDelete m k) = filter (fun j => negb (j =? k)) (map fst m).
Proof.
  unfold mapDelete. induction m as [|[j b] m IH]; cbn [filter map fst]; [reflexivity|].
  destruct (negb (j =? k)); cbn [map fst]; now rewrite IH.
Qed.

Lemma NoDup_keys_mapDelete m k : NoDup (map fst m) -> NoDup (map fst (mapDelete m k)).
Proof. intros N. rewrite mapDelete_keys. now apply NoDup_filter. Qed.

Lemma NoDup_keys_mapSet m k a : NoDup (map fst m) -> NoDup (map fst (mapSet m k a)).
Proof.
  intros N. destruct (mapHas m k) eqn:H.
  - now rewrite mapSet_keys_present.
  - rewrite mapSet_absent by assumption. rewrite map_app. cbn [map fst].
    apply NoDup_app; [assumption | repeat constructor; intros [] |].
    intros j Hj [<-|[]]. apply mapHas_keys in Hj. congruence.
Qed.

Lemma mapHas_mapDelete_same m k : mapHas (mapDelete m k) k = false.
Proof. unfold mapHas. now rewrite mapGet_mapDelete_same. Qed.
End MapKeys.

(** ** The store stays well formed *)

Lemma linkId_inj (a b : nat) : "link_" ++ decimal a = "link_" ++ decimal b -> a = b.
Proof. intros H. apply decimal_inj, (append_inj_l _ _ _ H). Qed.

(** Well-formedness reads the two maps, the selection and the counters. *)
Lemma wellFormed_ext (ed ed' : editor) :
  nodes ed' = nodes ed -> links ed' = links ed ->
  selectedNode ed' = selectedNode ed -> selectedLink ed' = selectedLink ed ->
  (nodeCounter ed <= nodeCounter ed')%nat -> (linkCounter ed <= linkCounter ed')%nat ->
  wellFormed ed -> wellFormed ed'.
Proof.
  intros En El Sn Sl Cn Cl ((Nn & Hn) & (Nl & Hl) & Sel).
  unfold wellFormed, nodesWellFormed, linksWellFormed, selectionValid.
  rewrite En, El, Sn, Sl. split; [|split].
  - split; [assumption|]. intros k n H. destruct (Hn k n H) as (E & i & Ei & R).
    split; [assumption|]. exists i. split; [assumption | lia].
  - split; [assumption|]. intros k l H. destruct (Hl k l H) as (E & i & Ei & R).
    split; [assumption|]. exists i. split; [assumption | lia].
  - exact Sel.
Qed.

Lemma clearSelection_wellFormed (ed : editor) :
  nodesWellFormed ed -> linksWellFormed ed -> wellFormed (clearSelection ed).
Proof. intros N L. split; [exact N | split; [exact L | exact I]]. Qed.

(** A node object updated in place. *)
Lemma updateNode_wellFormed (ed : editor) (k : string) (n n' : node) :
  wellFormed ed -> mapGet (nodes ed) k = Some n -> node_id n' = node_id n ->
  wellFormed (withNodes ed (mapSet (nodes ed) k n')).
Proof.
  intros ((Nn & Hn) & L & Sel) G E. split; [|split].
  - split; cbn [nodes withNodes nodeCounter].
    + now apply NoDup_keys_mapSet.
    + intros j c H. apply mapSet_In in H as [[-> ->]|H]; [|now apply Hn].
      rewrite E. apply Hn. now apply mapGet_In.
  - exact L.
  - unfold selectionValid in *. cbn [selectedNode selectedLink nodes links withNodes].
    destruct (selectedNode ed), (selectedLink ed); auto. now apply mapHas_mapSet.
Qed.

Lemma createNode_wellFormed (ed : editor) ty px py c :
  wellFormed ed -> wellFormed (snd (createNode ed ty px py c)).
Proof.
  intros W. unfold createNode. destruct (lookupType ty) as [nt|]; cbn [snd].
  - destruct W as ((Nn & Hn) & (Nl & Hl) & Sel). split; [|split].
    + split; cbn [nodes withNodes withNodeCounter nodeCounter].
      * now apply NoDup_keys_mapSet.
      * intros j n H. apply mapSet_In in H as [[-> ->]|H].
        -- split; [reflexivity|]. exists (S (nodeCounter ed)). split; [reflexivity | lia].
        -- destruct (Hn j n H) as (E & i & Ei & R). split; [assumption|].
           exists i. split; [assumption | lia].
    + split; assumption.
    + unfold selectionValid in *.
      cbn [selectedNode selectedLink nodes links withNodes withNodeCounter].
      destruct (selectedNode ed), (selectedLink ed); auto. now apply mapHas_mapSet.
  - apply (wellFormed_ext ed); auto. cbn. lia.
Qed.

Lemma createConnection_wellFormed (ed : editor) (sn tn : node) (sp tp : nat) :
  wellFormed ed -> wellFormed (snd (createConnection ed sn sp tn tp)).
Proof.
  intros ((Nn & Hn) & (Nl & Hl) & Sel). unfold createConnection. cbn [snd]. split; [|split].
  - split; assumption.
  - split; cbn [links withLinks withLinkCounter linkCounter].
    + now apply NoDup_keys_mapSet.
    + intros j l H. apply mapSet_In in H as [[-> ->]|H].
      * split; [reflexivity|]. exists (S (linkCounter ed)). split; [reflexivity | lia].
      * destruct (Hl j l H) as (E & i & Ei & R). split; [assumption|].
        exists i. split; [assumption | lia].
  - unfold selectionValid in *.
    cbn [selectedNode selectedLink nodes links withLinks withLinkCounter].
    destruct (selectedNode ed), (selectedLink ed); auto. now apply mapHas_mapSet.
Qed.

Lemma deleteLink_wellFormed (ed : editor) (k : string) :
  wellFormed ed -> wellFormed (deleteLink ed k).
Proof.
  intros W. unfold deleteLink. destruct (mapGet (links ed) k) as [l|] eqn:G; [|exact W].
  destruct W as (N & (Nl & Hl) & Sel).
  assert (El : link_id l = k) by (apply Hl; now apply mapGet_In).
  assert (W1 : nodesWellFormed (withLinks ed (mapDelete (links ed) k))
               /\ linksWellFormed (withLinks ed (mapDelete (links ed) k))).
  { split; [exact N|]. split; cbn [links withLinks linkCounter].
    - now apply NoDup_keys_mapDelete.
    - intros j c H. apply mapDelete_In in H as [H _]. now apply Hl. }
  destruct W1 as [N1 L1].
  destruct (optEqb _ _) eqn:Q.
  - apply clearSelection_wellFormed; assumption.
  - split; [exact N1 | split; [exact L1|]].
    unfold selectionValid in *. cbn [selectedNode selectedLink nodes links withLinks] in *.
    destruct (selectedNode ed) as [selN|], (selectedLink ed) as [selL|]; auto.
    cbn [optEqb] in Q. apply String.eqb_neq in Q. rewrite El in Q.
    unfold mapHas. rewrite mapGet_mapDelete_other by assumption. exact Sel.
Qed.

Lemma deleteLinks_wellFormed (ks : list string) :
  forall ed, wellFormed ed -> wellFormed (fold_left deleteLink ks ed).
Proof.
  induction ks as [|k ks IH]; intros ed W; cbn [fold_left]; [exact W|].
  apply IH. now apply deleteLink_wellFormed.
Qed.

Lemma deleteNode_wellFormed (ed : editor) (nodeId : string) :
  wellFormed ed -> wellFormed (deleteNode ed nodeId).
Proof.
  intros W. unfold deleteNode. destruct (mapGet (nodes ed) nodeId) as [n|] eqn:G; [|exact W].
  set (ks := map fst (filter _ (links ed))).
  pose proof (deleteLinks_wellFormed ks ed W) as ((Nn & Hn) & L1 & Sel).
  destruct (deleteLinks_frame ks ed) as (En & Ec & _).
  set (ed1 := fold_left deleteLink ks ed) in *.
  assert (Eid : node_id n = nodeId).
  { destruct W as ((_ & Hn0) & _). apply Hn0. now apply mapGet_In. }
  assert (N2 : nodesWellFormed (withNodes ed1 (mapDelete (nodes ed1) nodeId))).
  { split; cbn [nodes withNodes nodeCounter].
    - now apply NoDup_keys_mapDelete.
    - intros j c H. apply mapDelete_In in H as [H _]. now apply Hn. }
  destruct (optEqb _ _) eqn:Q.
  - apply clearSelection_wellFormed; assumption.
  - split; [exact N2 | split; [exact L1|]].
    unfold selectionValid in *. cbn [selectedNode selectedLink nodes links withNodes] in *.
    destruct (selectedNode ed1) as [selN|], (selectedLink ed1) as [selL|]; auto.
    cbn [optEqb] in Q. apply String.eqb_neq in Q. rewrite Eid in Q.
    rewrite mapHas_mapDelete_other by assumption. exact Sel.
Qed.

Lemma moveNode_wellFormed (ed : editor) (k : string) (px py : Z) :
  wellFormed ed -> wellFormed (moveNode ed k px py).
Proof.
  intros W. unfold moveNode. destruct (mapGet (nodes ed) k) as [n|] eqn:G; [|exact W].
  now apply (updateNode_wellFormed ed k n).
Qed.

Lemma clearAll_wellFormed (ed : editor) : wellFormed (clearAll ed).
Proof.
  split; [|split; [|exact I]]; (split; [constructor | intros k c []]).
Qed.

Lemma importNodes_wellFormed (nds : list nodeData) :
  forall ed, wellFormed ed -> wellFormed (fold_left importNode nds ed).
Proof.
  induction nds as [|nd nds IH]; intros ed W; cbn [fold_left]; [exact W|].
  apply IH. now apply createNode_wellFormed.
Qed.

Lemma importLinks_wellFormed (lds : list linkData) :
  forall ed, wellFormed ed -> wellFormed (fold_left importLink lds ed).
Proof.
  induction lds as [|ld lds IH]; intros ed W; cbn [fold_left]; [exact W|].
  apply IH. unfold importLink.
  destruct (find (fun n => node_id n =? ld_source ld) _) as [sn|]; [|exact W].
  destruct (find (fun n => node_id n =? ld_target ld) _) as [tn|]; [|exact W].
  now apply createConnection_wellFormed.
Qed.

Lemma importFlow_wellFormed (ed : editor) (t : flowText) :
  wellFormed ed -> wellFormed (importFlow ed t).
Proof.
  intros W. unfold importFlow. destruct (JSON_parse t) as [fl|]; [|exact W].
  pose proof (clearAll_wellFormed ed) as W0.
  destruct (flow_nodes fl) as [nds|]; [|exact W0].
  pose proof (importNodes_wellFormed nds _ W0) as W1.
  destruct (flow_links fl) as [lds|]; [|exact W1].
  now apply importLinks_wellFormed.
Qed.

Lemma onConnectionMouseUp_wellFormed (ed : editor) (t : option (string * nat)) :
  wellFormed ed -> wellFormed (onConnectionMouseUp ed t).
Proof.
  intros W. unfold onConnectionMouseUp.
  destruct (isConnecting ed); [|exact W].
  destruct (connectionStart ed) as [[sn sp]|]; [|exact W].
  assert (E : wellFormed (endConnection ed)) by (apply (wellFormed_ext ed); auto).
  destruct t as [[tid tp]|]; [|exact E].
  destruct (mapGet (nodes ed) tid) as [tn|]; [|exact E].
  destruct sn as [sn|]; [|apply (wellFormed_ext ed); auto; cbn; lia].
  destruct (negb _); [|exact E].
  apply (wellFormed_ext (snd (createConnection ed sn sp tn tp))); auto.
  now apply createConnection_wellFormed.
Qed.

Lemma step_wellFormed (ed : editor) (o : op) : wellFormed ed -> wellFormed (step ed o).
Proof.
  intros W. destruct o as [ty px py c|k|k|k px py| |t|k pt i|t]; cbn [step].
  - now apply createNode_wellFormed.
  - now apply deleteNode_wellFormed.
  - now apply deleteLink_wellFormed.
  - now apply moveNode_wellFormed.
  - apply clearAll_wellFormed.
  - now apply importFlow_wellFormed.
  - destruct pt; [exact W|]. apply (wellFormed_ext ed); auto.
  - now apply onConnectionMouseUp_wellFormed.
Qed.

Lemma selectNode_wellFormed (ed : editor) (k : string) (n : node) :
  wellFormed ed -> mapGet (nodes ed) k = Some n -> wellFormed (selectNode ed n).
Proof.
  intros ((Nn & Hn) & L & _) G. split; [split; assumption | split; [exact L|]].
  unfold selectionValid. cbn [selectNode selectedNode selectedLink withSelection nodes].
  apply mapGet_In in G. rewrite (proj1 (Hn k n G)). now apply (In_mapHas _ _ n).
Qed.

Lemma selectLink_wellFormed (ed : editor) (k : string) (l : link) :
  wellFormed ed -> mapGet (links ed) k = Some l -> wellFormed (selectLink ed l).
Proof.
  intros (N & (Nl & Hl) & _) G. split; [exact N | split; [split; assumption|]].
  unfold selectionValid. cbn [selectLink selectedNode selectedLink withSelection links].
  apply mapGet_In in G. rewrite (proj1 (Hl k l G)). now apply (In_mapHas _ _ l).
Qed.

Lemma deleteSelected_wellFormed (ed : editor) : wellFormed ed -> wellFormed (deleteSelected ed).
Proof.
  intros W. unfold deleteSelected. destruct (selectedNode ed).
  - now apply deleteNode_wellFormed.
  - destruct (selectedLink ed); [now apply deleteLink_wellFormed | exact W].
Qed.

Lemma onKeyDown_wellFormed (ed : editor) (key : string) :
  wellFormed ed -> wellFormed (onKeyDown ed key).
Proof.
  intros W. unfold onKeyDown.
  destruct ((key =? "Delete") || (key =? "Backspace")); [now apply deleteSelected_wellFormed|].
  destruct (key =? "Escape"); [|exact W].
  assert (C : wellFormed (clearSelection ed))
    by (destruct W as (N & L & _); now apply clearSelection_wellFormed).
  cbn zeta. destruct (isConnecting (clearSelection ed)); [|exact C].
  apply (wellFormed_ext (clearSelection ed)); auto.
Qed.

Lemma receiveMessage_node_id (ed : editor) (n : node) (m : message) (now : string) :
  node_id (fst (receiveMessage ed n m now)) = node_id n.
Proof.
  unfold receiveMessage.
  repeat (match goal with |- context [if ?b then _ else _] => destruct b end);
    cbn [fst]; try reflexivity.
  - unfold executeDataTableNode. destruct (truthy _); reflexivity.
  - unfold executeGraphVizNode. destruct (networkData n); reflexivity.
Qed.

Lemma deliver_wellFormed (ed : editor) (d : delivery) (now : string) :
  wellFormed ed -> wellFormed (fst (deliver ed d now)).
Proof.
  intros W. unfold deliver. destruct (mapGet (nodes ed) (d_target d)) as [n|] eqn:G; [|exact W].
  cbn [fst]. apply (updateNode_wellFormed ed _ n); auto. apply receiveMessage_node_id.
Qed.

Lemma handle_wellFormed (ed : editor) (e : event) : wellFormed ed -> wellFormed (handle ed e).
Proof.
  intros W. destruct e as [o|k|k|b|key|ty nid form cx cy|k|k|k|d now]; cbn [handle].
  - now apply step_wellFormed.
  - unfold onNodeMouseDown. destruct (mapGet (nodes ed) k) as [n|] eqn:G; [|exact W].
    now apply (selectNode_wellFormed ed k).
  - unfold onLinkClick. destruct (mapGet (links ed) k) as [l|] eqn:G; [|exact W].
    now apply (selectLink_wellFormed ed k).
  - unfold onCanvasClick. destruct b; [|exact W].
    destruct W as (N & L & _). now apply clearSelection_wellFormed.
  - now apply onKeyDown_wellFormed.
  - unfold saveNodeConfig. destruct nid as [nodeId|]; [|now apply createNode_wellFormed].
    destruct (nodeId =? ""); [now apply createNode_wellFormed|].
    destruct (mapGet (nodes ed) nodeId) as [n|] eqn:G; [|exact W].
    now apply (updateNode_wellFormed ed nodeId n).
  - unfold clearDebugOutput. destruct (mapGet (nodes ed) k) as [n|] eqn:G; [|exact W].
    destruct (debugOutputs n); [|exact W]. now apply (updateNode_wellFormed ed k n).
  - unfold clearTableData. destruct (mapGet (nodes ed) k) as [n|] eqn:G; [|exact W].
    now apply (updateNode_wellFormed ed k n).
  - unfold clearNetworkData. destruct (mapGet (nodes ed) k) as [n|] eqn:G; [|exact W].
    now apply (updateNode_wellFormed ed k n).
  - now apply deliver_wellFormed.
Qed.

Lemma newEditor_wellFormed : wellFormed newEditor.
Proof. split; [|split; [|exact I]]; (split; [constructor | intros k c []]). Qed.

Lemma handleAll_wellFormed (es : list event) :
  forall ed, wellFormed ed -> wellFormed (handleAll ed es).
Proof.
  induction es as [|e es IH]; intros ed W; cbn [handleAll fold_left]; [exact W|].
  apply IH. now apply handle_wellFormed.
Qed.

(** X1. In every state a session reaches from a new editor, each stored node
    and each stored link sits under its own id and no key occurs twice; every
    node id is [node_<i>] and every link id [link_<i>] for a counter value
    [i] with 1 <= i <= the counter of its kind; the id [createNode] or
    [createConnection] hands out next is not in the store, so the new object
    is appended to its map and never replaces a stored one. *)
Theorem session_store_wellFormed (es : list event) :
  let ed := handleAll newEditor es in
  NoDup (map fst (nodes ed))
  /\ NoDup (map fst (links ed))
  /\ (forall k n, In (k, n) (nodes ed) ->
        node_id n = k
        /\ exists i, k = "node_" ++ decimal i /\ (1 <= i <= nodeCounter ed)%nat)
  /\ (forall k l, In (k, l) (links ed) ->
        link_id l = k
        /\ exists i, k = "link_" ++ decimal i /\ (1 <= i <= linkCounter ed)%nat)
  /\ (forall ty px py c n,
        fst (createNode ed ty px py c) = Some n ->
        mapHas (nodes ed) (node_id n) = false
        /\ nodes (snd (createNode ed ty px py c)) = (nodes ed ++ [(node_id n, n)])%list)
  /\ (forall sn sp tn tp,
        let l := fst (createConnection ed sn sp tn tp) in
        mapHas (links ed) (link_id l) = false
        /\ links (snd (createConnection ed sn sp tn tp)) = (links ed ++ [(link_id l, l)])%list).
Proof.
  intros ed.
  destruct (handleAll_wellFormed es newEditor newEditor_wellFormed)
    as ((Nn & Hn) & (Nl & Hl) & _). fold ed in Nn, Hn, Nl, Hl.
  split; [exact Nn|]. split; [exact Nl|].
  split; [intros k n H; exact (Hn k n H)|]. split; [intros k l H; exact (Hl k l H)|].
  split.
  - intros ty px py c n. unfold createNode. destruct (lookupType ty) as [nt|]; [|discriminate].
    cbn [fst snd]. intros [= <-]. cbn [node_id nodes withNodes withNodeCounter].
    assert (F : mapHas (nodes ed) ("node_" ++ decimal (S (nodeCounter ed))) = false).
    { destruct (mapHas (nodes ed) _) eqn:H; [|reflexivity]. exfalso.
      apply mapHas_In in H as [n H]. destruct (Hn _ _ H) as (_ & i & Ei & R).
      apply nodeId_inj in Ei. lia. }
    split; [exact F | now apply mapSet_absent].
  - intros sn sp tn tp l. subst l. cbn [createConnection fst snd link_id links withLinks
                                        withLinkCounter].
    assert (F : mapHas (links ed) ("link_" ++ decimal (S (linkCounter ed))) = false).
    { destruct (mapHas (links ed) _) eqn:H; [|reflexivity]. exfalso.
      apply mapHas_In in H as [l H]. destruct (Hl _ _ H) as (_ & i & Ei & R).
      apply linkId_inj in Ei. lia. }
    split; [exact F | now apply mapSet_absent].
Qed.

(** X2. In every state a session reaches from a new editor at most one
    object is selected, a node or a link, and the selected object is in the
    store: deleting, clearing and importing never leave a selection
    behind. *)
Theorem session_selection_valid (es : list event) :
  let ed := handleAll newEditor es in
  (selectedNode ed = None \/ selectedLink ed = None)
  /\ (forall nodeId, selectedNode ed = Some nodeId -> mapHas (nodes ed) nodeId = true)
  /\ (forall linkId, selectedLink ed = Some linkId -> mapHas (links ed) linkId = true).
Proof.
  intros ed.
  destruct (handleAll_wellFormed es newEditor newEditor_wellFormed) as (_ & _ & Sel).
  fold ed in Sel. unfold selectionValid in Sel.
  destruct (selectedNode ed) as [sn|], (selectedLink ed) as [sl|]; try contradiction;
    (split; [auto|]); split; intros id E; try discriminate; injection E as <-; exact Sel.
Qed.

Lemma deleteLinks_selection (ks : list string) :
  forall ed, selectedLink ed = None ->
             selectedNode (fold_left deleteLink ks ed) = selectedNode ed
             /\ selectedLink (fold_left deleteLink ks ed) = None.
Proof.
  induction ks as [|k ks IH]; intros ed H; cbn [fold_left]; [auto|].
  assert (E : selectedNode (deleteLink ed k) = selectedNode ed
              /\ selectedLink (deleteLink ed k) = None).
  { unfold deleteLink. destruct (mapGet (links ed) k); [|auto].
    cbn [selectedLink withLinks]. rewrite H. cbn [optEqb]. auto. }
  destruct E as [E1 E2]. destruct (IH _ E2) as [I1 I2]. split; congruence.
Qed.

Lemma deleteSelected_effect (ed : editor) :
  wellFormed ed ->
  selectedNode (deleteSelected ed) = None
  /\ selectedLink (deleteSelected ed) = None
  /\ (forall nodeId, selectedNode ed = Some nodeId ->
        deleteSelected ed = deleteNode ed nodeId
        /\ mapHas (nodes (deleteSelected ed)) nodeId = false)
  /\ (forall linkId, selectedNode ed = None -> selectedLink ed = Some linkId ->
        deleteSelected ed = deleteLink ed linkId
        /\ mapHas (links (deleteSelected ed)) linkId = false
        /\ nodes (deleteSelected ed) = nodes ed)
  /\ (selectedNode ed = None -> selectedLink ed = None -> deleteSelected ed = ed).
Proof.
  intros ((Nn & Hn) & (Nl & Hl) & Sel). unfold deleteSelected, selectionValid in *.
  destruct (selectedNode ed) as [nodeId|] eqn:Sn.
  - destruct (selectedLink ed) as [linkId|] eqn:Sl; [contradiction|].
    unfold mapHas in Sel. destruct (mapGet (nodes ed) nodeId) as [n|] eqn:G; [|discriminate].
    assert (Eid : node_id n = nodeId) by (apply Hn; now apply mapGet_In).
    assert (C : selectedNode (deleteNode ed nodeId) = None
                /\ selectedLink (deleteNode ed nodeId) = None
                /\ mapHas (nodes (deleteNode ed nodeId)) nodeId = false).
    { destruct (deleteNode_present ed nodeId n G) as (Nd & _ & _).
      split; [|split; [|rewrite Nd; apply mapHas_mapDelete_same]];
        unfold deleteNode; rewrite G;
        set (ks := map fst (filter _ (links ed)));
        destruct (deleteLinks_selection ks ed Sl) as [K1 K2];
        cbn [selectedNode selectedLink withNodes]; rewrite K1, Sn, Eid;
        cbn [optEqb]; rewrite String.eqb_refl; reflexivity. }
    destruct C as (C1 & C2 & C3).
    split; [exact C1|]. split; [exact C2|]. split; [|split].
    + intros id [= <-]. split; [reflexivity | exact C3].
    + intros id E; discriminate.
    + intros E; discriminate.
  - destruct (selectedLink ed) as [linkId|] eqn:Sl.
    + unfold mapHas in Sel. destruct (mapGet (links ed) linkId) as [l|] eqn:G; [|discriminate].
      assert (Eid : link_id l = linkId) by (apply Hl; now apply mapGet_In).
      assert (C : selectedNode (deleteLink ed linkId) = None
                  /\ selectedLink (deleteLink ed linkId) = None
                  /\ mapHas (links (deleteLink ed linkId)) linkId = false
                  /\ nodes (deleteLink ed linkId) = nodes ed).
      { split; [|split; [|split]].
        - unfold deleteLink. rewrite G. cbn [selectedLink withLinks]. rewrite Sl, Eid.
          cbn [optEqb]. rewrite String.eqb_refl. reflexivity.
        - unfold deleteLink. rewrite G. cbn [selectedLink withLinks]. rewrite Sl, Eid.
          cbn [optEqb]. rewrite String.eqb_refl. reflexivity.
        - rewrite deleteLink_links. apply mapHas_mapDelete_same.
        - apply deleteLink_frame. }
      destruct C as (C1 & C2 & C3 & C4).
      split; [exact C1|]. split; [exact C2|]. split; [|split].
      * intros id E; discriminate.
      * intros id _ [= <-]. split; [reflexivity | split; assumption].
      * intros _ E; discriminate.
    + split; [exact Sn|]. split; [exact Sl|]. split; [|split].
      * intros id E; discriminate.
      * intros id _ E; discriminate.
      * reflexivity.
Qed.

(** X3. In every state a session reaches, the Delete or Backspace key
    removes the selected node together with its links, or else the selected
    link (leaving the nodes as they are), and leaves nothing selected, so a
    second key press changes nothing; with nothing selected the key does
    nothing. *)
Theorem delete_key_removes_selection (es : list event) (key : string) :
  let ed := handleAll newEditor es in
  key = "Delete" \/ key = "Backspace" ->
  onKeyDown ed key = deleteSelected ed
  /\ selectedNode (onKeyDown ed key) = None
  /\ selectedLink (onKeyDown ed key) = None
  /\ onKeyDown (onKeyDown ed key) key = onKeyDown ed key
  /\ (forall nodeId, selectedNode ed = Some nodeId ->
        onKeyDown ed key = deleteNode ed nodeId
        /\ mapHas (nodes (onKeyDown ed key)) nodeId = false
        /\ linksReferencing (onKeyDown ed key) nodeId = [])
  /\ (forall linkId, selectedLink ed = Some linkId ->
        mapHas (links (onKeyDown ed key)) linkId = false
        /\ nodes (onKeyDown ed key) = nodes ed)
  /\ (selectedNode ed = None -> selectedLink ed = None -> onKeyDown ed key = ed).
Proof.
  intros ed K.
  assert (E : forall e, onKeyDown e key = deleteSelected e).
  { intros e. unfold onKeyDown. destruct K as [-> | ->]; reflexivity. }
  pose proof (handleAll_wellFormed es newEditor newEditor_wellFormed) as W. fold ed in W.
  destruct (deleteSelected_effect ed W) as (S1 & S2 & Dn & Dl & D0).
  rewrite !E. split; [reflexivity|]. split; [exact S1|]. split; [exact S2|].
  split; [|split; [|split]].
  - pose proof (deleteSelected_wellFormed ed W) as W'.
    destruct (deleteSelected_effect _ W') as (_ & _ & _ & _ & D0'). now apply D0'.
  - intros nodeId Sn. destruct (Dn nodeId Sn) as [Ed Hd]. split; [exact Ed|].
    split; [exact Hd|]. rewrite Ed.
    destruct (mapGet (nodes ed) nodeId) as [n|] eqn:G.
    + destruct (deleteNode_present ed nodeId n G) as (_ & L & _).
      unfold linksReferencing. destruct (filter _ _) as [|l rest] eqn:F; [reflexivity|].
      exfalso.
      assert (Hl : In l (filter (fun l => (link_source l =? nodeId) || (link_target l =? nodeId))
                            (mapValues (links (deleteNode ed nodeId)))))
        by (rewrite F; now left).
      apply filter_In in Hl as [Hl R]. apply mapValues_In in Hl as (k & Hl).
      apply L in Hl as [_ R']. cbn [snd] in R'. congruence.
    + exfalso. destruct W as (_ & _ & Sel). unfold selectionValid in Sel. rewrite Sn in Sel.
      destruct (selectedLink ed); [contradiction|]. unfold mapHas in Sel. now rewrite G in Sel.
  - intros linkId Sl.
    assert (Sn : selectedNode ed = None).
    { destruct W as (_ & _ & Sel). unfold selectionValid in Sel. rewrite Sl in Sel.
      destruct (selectedNode ed); [contradiction | reflexivity]. }
    destruct (Dl linkId Sn Sl) as (_ & A & B). split; assumption.
  - exact D0.
Qed.

Lemma delete_key_removes_selection_witness :
  let es := [ Store (CreateNode "function" 0 0 []); Store (CreateNode "debug" 200 0 []);
              Store (PortMouseDown "node_1" OutputPort 0);
              Store (ConnectionMouseUp (Some ("node_2", 0%nat)));
              NodeMouseDown "node_1" ] in
  selectedNode (handleAll newEditor es) = Some "node_1"
  /\ map fst (nodes (onKeyDown (handleAll newEditor es) "Delete")) = ["node_2"]
  /\ links (onKeyDown (handleAll newEditor es) "Delete") = []
  /\ onKeyDown (onKeyDown (handleAll newEditor es) "Delete") "Delete"
     = onKeyDown (handleAll newEditor es) "Delete".
Proof.
  cbv zeta.
  pose proof (delete_key_removes_selection
                [ Store (CreateNode "function" 0 0 []); Store (CreateNode "debug" 200 0 []);
                  Store (PortMouseDown "node_1" OutputPort 0);
                  Store (ConnectionMouseUp (Some ("node_2", 0%nat)));
                  NodeMouseDown "node_1" ] "Delete" (or_introl eq_refl))
    as (_ & _ & _ & Idem & _).
  split; [reflexivity|]. split; [reflexivity|]. split; [reflexivity | exact Idem].
Defined.

(** X4. The connect gesture, in every state a session reaches: pressing the
    mouse on output port [p] of a stored node [a] and releasing it over input
    port [q] of another stored node [b] appends exactly one link, from [a:p]
    to [b:q] under the next link id, leaves the nodes and the selection as
    they are, and ends the gesture; releasing over
    anything that is no input port, or over an input port of [a] itself,
    creates nothing; after Escape the release does nothing at all; and a
    press on an input port starts no gesture. *)
Theorem connect_gesture (es : list event) (a b : string) (p q : nat) :
  let ed := handleAll newEditor es in
  let pressed := onPortMouseDown ed a OutputPort p in
  mapHas (nodes ed) a = true -> mapHas (nodes ed) b = true -> a <> b ->
  (let released := onConnectionMouseUp pressed (Some (b, q)) in
   links released
   = (links ed ++ [(("link_" ++ decimal (S (linkCounter ed)))%string,
                    {| link_id := ("link_" ++ decimal (S (linkCounter ed)))%string;
                       link_source := a; sourcePort := p;
                       link_target := b; targetPort := q |})])%list
   /\ nodes released = nodes ed
   /\ selectedNode released = selectedNode ed /\ selectedLink released = selectedLink ed
   /\ nodeCounter released = nodeCounter ed
   /\ isConnecting released = false /\ connectionStart released = None)
  /\ (forall q', links (onConnectionMouseUp pressed (Some (a, q'))) = links ed
                 /\ nodes (onConnectionMouseUp pressed (Some (a, q'))) = nodes ed
                 /\ selectedNode (onConnectionMouseUp pressed (Some (a, q'))) = selectedNode ed
                 /\ selectedLink (onConnectionMouseUp pressed (Some (a, q'))) = selectedLink ed
                 /\ isConnecting (onConnectionMouseUp pressed (Some (a, q'))) = false)
  /\ (links (onConnectionMouseUp pressed None) = links ed
      /\ nodes (onConnectionMouseUp pressed None) = nodes ed
      /\ selectedNode (onConnectionMouseUp pressed None) = selectedNode ed
      /\ selectedLink (onConnectionMouseUp pressed None) = selectedLink ed
      /\ isConnecting (onConnectionMouseUp pressed None) = false)
  /\ (forall t, onConnectionMouseUp (onKeyDown pressed "Escape") t = onKeyDown pressed "Escape"
                /\ links (onKeyDown pressed "Escape") = links ed)
  /\ onPortMouseDown ed a InputPort p = ed.
Proof.
  intros ed pressed Ha Hb Nab.
  pose proof (handleAll_wellFormed es newEditor newEditor_wellFormed) as W. fold ed in W.
  destruct W as ((Nn & Hn) & (Nl & Hl) & _).
  unfold mapHas in Ha, Hb.
  destruct (mapGet (nodes ed) a) as [na|] eqn:Ga; [clear Ha | discriminate].
  destruct (mapGet (nodes ed) b) as [nb|] eqn:Gb; [clear Hb | discriminate].
  assert (Ea : node_id na = a) by (apply Hn; now apply mapGet_In).
  assert (Eb : node_id nb = b) by (apply Hn; now apply mapGet_In).
  assert (P : pressed = withConnection ed true (Some (Some na, p))).
  { unfold pressed, onPortMouseDown, startConnection. now rewrite Ga. }
  assert (F : mapHas (links ed) ("link_" ++ decimal (S (linkCounter ed))) = false).
  { destruct (mapHas (links ed) _) eqn:H; [|reflexivity]. exfalso.
    apply mapHas_In in H as [l H]. destruct (Hl _ _ H) as (_ & i & Ei & R).
    apply linkId_inj in Ei. lia. }
  split; [|split; [|split; [|split]]].
  - cbv zeta. rewrite P. unfold onConnectionMouseUp.
    cbn [isConnecting connectionStart withConnection nodes]. rewrite Gb, Ea, Eb.
    replace (b =? a) with false by (symmetry; apply String.eqb_neq; congruence).
    cbn [negb createConnection snd endConnection links nodes isConnecting connectionStart
              withConnection withLinks withLinkCounter linkCounter selectedNode selectedLink
              nodeCounter].
    rewrite mapSet_absent by exact F. rewrite Ea, Eb. repeat split.
  - intros q'. rewrite P. unfold onConnectionMouseUp.
    cbn [isConnecting connectionStart withConnection nodes]. rewrite Ga, String.eqb_refl.
    cbn. repeat split; reflexivity.
  - rewrite P. cbn. repeat split; reflexivity.
  - intros t. rewrite P. unfold onKeyDown. cbn. split; reflexivity.
  - reflexivity.
Qed.

Lemma connect_gesture_witness :
  let ed := handleAll newEditor
                      [ Store (CreateNode "function" 0 0 []);
                        Store (CreateNode "debug" 200 0 []) ] in
  map (fun l => (link_id l, link_source l, sourcePort l, link_target l, targetPort l))
      (mapValues (links (onConnectionMouseUp (onPortMouseDown ed "node_1" OutputPort 0)
                                             (Some ("node_2", 0%nat)))))
  = [("link_1", "node_1", 0%nat, "node_2", 0%nat)]
  /\ links (onConnectionMouseUp (onPortMouseDown ed "node_1" OutputPort 0) None) = [].
Proof.
  cbv zeta.
  destruct (connect_gesture [ Store (CreateNode "function" 0 0 []);
                              Store (CreateNode "debug" 200 0 []) ]
                            "node_1" "node_2" 0 0 eq_refl eq_refl)
    as ((L & _) & _ & (N & _) & _); [discriminate|].
  split; [rewrite L; reflexivity | exact N].
Defined.

(** ** Configurations *)

Lemma assoc_setField (k j : string) (u : value) (l : list (string * value)) :
  assoc j (setField k u l) = if k =? j then Some u else assoc j l.
Proof.
  induction l as [|[k' w] l IH]; cbn [setField assoc]; [reflexivity|].
  destruct (k' =? k) eqn:E; cbn [assoc].
  - apply String.eqb_eq in E. subst k'. destruct (k =? j); reflexivity.
  - rewrite IH. destruct (k' =? j) eqn:E'; [|reflexivity].
    apply String.eqb_eq in E'. subst k'.
    destruct (k =? j) eqn:E2; [|reflexivity].
    apply String.eqb_eq in E2. subst. rewrite String.eqb_refl in E. discriminate.
Qed.

Lemma assoc_absent {A : Type} (k : string) (l : list (string * A)) :
  ~ In k (map fst l) -> assoc k l = None.
Proof.
  induction l as [|[k' a] l IH]; cbn [assoc map fst In]; [reflexivity|].
  intros H. destruct (k' =? k) eqn:E.
  - apply String.eqb_eq in E. tauto.
  - apply IH. tauto.
Qed.

(** [Object.assign]: a submitted property wins, the others keep their value. *)
Lemma assoc_objectAssign (source : list (string * value)) :
  forall target k,
    NoDup (map fst source) ->
    assoc k (objectAssign target source)
    = match assoc k source with
      | Some v => Some v
      | None => assoc k target
      end.
Proof.
  unfold objectAssign.
  induction source as [|[k0 v0] source IH]; intros target k N; cbn [fold_left assoc fst snd];
    [reflexivity|].
  inversion N as [|? ? Nk N']; subst. rewrite (IH _ _ N'), assoc_setField.
  destruct (k0 =? k) eqn:E; [|reflexivity].
  apply String.eqb_eq in E. subst k0. now rewrite (assoc_absent k source Nk).
Qed.

Lemma spread_objectAssign (a b : list (string * value)) :
  spread a b = objectAssign (objectAssign [] a) b.
Proof. reflexivity. Qed.

Lemma catalogue_defaults_NoDup (ty : string) (d : nodeType) :
  lookupType ty = Some d -> NoDup (map fst (defaults d)).
Proof.
  unfold lookupType, NODE_TYPES. cbn [assoc].
  repeat (match goal with
          | |- context [if ?b then _ else _] => destruct b
          end);
    intros [= <-]; cbn [defaults descriptor inheritedEntry map fst];
    repeat constructor; cbn [In]; intuition discriminate.
Qed.

(** X5. For a type the catalogue knows and overrides that form an object,
    [createNode] returns a node with the next id, the given type and position,
    the fixed size 120 by 40, the port counts of the catalogue entry and no
    auxiliary state; its configuration gives every overridden property the
    override and every other property its default; and the node is stored
    under its id. *)
Theorem createNode_merges_defaults (ed : editor) (ty : string) (px py : Z)
        (c : list (string * value)) (d : nodeType) :
  lookupType ty = Some d ->
  NoDup (map fst c) ->
  exists n,
    createNode ed ty px py c = (Some n, withNodes (withNodeCounter ed (S (nodeCounter ed)))
                                                  (mapSet (nodes ed) (node_id n) n))
    /\ node_id n = "node_" ++ decimal (S (nodeCounter ed))
    /\ type n = ty /\ x n = px /\ y n = py /\ width n = 120%Z /\ height n = 40%Z
    /\ inputs n = nt_inputs d /\ outputs n = nt_outputs d
    /\ debugOutputs n = None /\ accumulatedData n = None /\ networkData n = None
    /\ (forall name,
          cfg n name = match assoc name c with
                       | Some v => v
                       | None => match assoc name (defaults d) with
                                 | Some v => v
                                 | None => VUndefined
                                 end
                       end)
    /\ mapGet (nodes (snd (createNode ed ty px py c))) (node_id n) = Some n.
Proof.
  intros L N. unfold createNode. rewrite L.
  exists {| node_id := "node_" ++ decimal (S (nodeCounter ed)); type := ty; x := px; y := py;
            width := 120; height := 40; config := spread (defaults d) c;
            inputs := nt_inputs d; outputs := nt_outputs d;
            debugOutputs := None; accumulatedData := None; networkData := None |}.
  split; [reflexivity|].
  cbn [node_id type x y width height inputs outputs debugOutputs accumulatedData networkData].
  repeat (split; [reflexivity|]). split.
  - intros name. unfold cfg. cbn [config]. rewrite spread_objectAssign.
    rewrite (assoc_objectAssign c _ name N).
    destruct (assoc name c); [reflexivity|].
    rewrite (assoc_objectAssign (defaults d) [] name (catalogue_defaults_NoDup ty d L)).
    destruct (assoc name (defaults d)); reflexivity.
  - cbn [snd nodes withNodes]. apply mapGet_mapSet_same.
Qed.

Lemma createNode_merges_defaults_witness :
  exists n,
    fst (createNode newEditor "dataTable" 10 20 [("maxRows", VStr "3"); ("title", VStr "t")])
    = Some n
    /\ node_id n = "node_1" /\ inputs n = Some 1%nat /\ outputs n = Some 0%nat
    /\ cfg n "maxRows" = VStr "3" /\ cfg n "appendData" = VBool false
    /\ cfg n "title" = VStr "t" /\ cfg n "missing" = VUndefined.
Proof.
  destruct (createNode_merges_defaults newEditor "dataTable" 10 20
              [("maxRows", VStr "3"); ("title", VStr "t")]
              (descriptor 1 0 [("name", VStr ""); ("maxRows", VNum 10); ("autoWidth", VBool true);
                               ("showHeaders", VBool true); ("appendData", VBool false)])
              eq_refl)
    as (n & E & Id & _ & _ & _ & _ & _ & I & O & _ & _ & _ & C & _).
  { repeat constructor; cbn [In]; intuition discriminate. }
  exists n. rewrite E. split; [reflexivity|]. split; [exact Id|].
  split; [exact I|]. split; [exact O|].
  rewrite !C. repeat split.
Defined.

Lemma nodeCounter_prefix_nonempty (i : nat) : "node_" ++ decimal i <> "".
Proof. discriminate. Qed.

Lemma formConfig_unnamed (fields : list formField) :
  (forall field, In field fields -> ff_name field = "") ->
  formConfig fields = match rev fields with
                      | [] => []
                      | field :: _ => [("", fieldValue field)]
                      end.
Proof.
  unfold formConfig. induction fields as [|field fields IH] using rev_ind; intros H;
    [reflexivity|].
  rewrite fold_left_app, rev_app_distr. cbn [fold_left rev app].
  rewrite IH by (intros f Hf; apply H, in_or_app; now left).
  rewrite (H field) by (apply in_or_app; right; now left).
  destruct (rev fields); reflexivity.
Qed.

(** X6. Saving the configuration dialog, in every state a session reaches.
    [saveNodeConfig] stores the value of each element under the [name] of the
    element; the elements [showNodeConfig] writes carry a [data-field]
    attribute and no name, so every value goes under the empty property name
    and the last element wins.  For a stored node the save therefore leaves
    every named property of the configuration as it was and sets the
    property [''] to the value of the last element; the id, the type, the
    position and the buffers of the node, the order of the nodes, the other
    nodes, the links and the counters stay.  When the node of the dialog is
    gone nothing is changed; without a node id the dialog creates a node from
    the same one-property object. *)
Theorem saveNodeConfig_writes_by_element_name (es : list event)
        (modalNodeType nodeId : string) (fields : list formField) (cx cy : Z) :
  let ed := handleAll newEditor es in
  let ed' := saveNodeConfig ed modalNodeType (Some nodeId) fields cx cy in
  (forall field, In field fields -> ff_name field = "") ->
  formConfig fields = match rev fields with
                      | [] => []
                      | field :: _ => [("", fieldValue field)]
                      end
  /\ (forall n, mapGet (nodes ed) nodeId = Some n ->
      exists n',
        mapGet (nodes ed') nodeId = Some n'
        /\ (forall name, name <> "" -> cfg n' name = cfg n name)
        /\ cfg n' "" = match rev fields with
                       | [] => cfg n ""
                       | field :: _ => fieldValue field
                       end
        /\ node_id n' = node_id n /\ type n' = type n /\ x n' = x n /\ y n' = y n
        /\ inputs n' = inputs n /\ outputs n' = outputs n
        /\ debugOutputs n' = debugOutputs n /\ accumulatedData n' = accumulatedData n
        /\ networkData n' = networkData n
        /\ map fst (nodes ed') = map fst (nodes ed)
        /\ (forall k, k <> nodeId -> mapGet (nodes ed') k = mapGet (nodes ed) k)
        /\ links ed' = links ed
        /\ nodeCounter ed' = nodeCounter ed)
  /\ (mapHas (nodes ed) nodeId = false -> nodeId <> "" -> ed' = ed)
  /\ saveNodeConfig ed modalNodeType None fields cx cy
     = snd (createNode ed modalNodeType cx cy (formConfig fields)).
Proof.
  intros ed ed' U.
  pose proof (handleAll_wellFormed es newEditor newEditor_wellFormed) as W. fold ed in W.
  destruct W as ((Nn & Hn) & _ & _).
  pose proof (formConfig_unnamed fields U) as F.
  split; [exact F|]. split; [|split; [|reflexivity]].
  - intros n G.
    assert (Ne : (nodeId =? "") = false).
    { apply String.eqb_neq. destruct (Hn nodeId n (mapGet_In _ _ _ G)) as (_ & i & -> & _).
      discriminate. }
    subst ed'. unfold saveNodeConfig. rewrite Ne, G.
    exists (setConfig n (objectAssign (config n) (formConfig fields))).
    cbn [nodes withNodes links nodeCounter setConfig node_id type x y inputs outputs
               debugOutputs accumulatedData networkData].
    split; [apply mapGet_mapSet_same|]. split; [|split].
    + intros name Hname. unfold cfg, setConfig. cbn [config]. rewrite F.
      destruct (rev fields) as [|field rest]; [reflexivity|].
      unfold objectAssign. cbn [fold_left fst snd]. rewrite assoc_setField.
      replace ("" =? name) with false; [reflexivity|].
      symmetry. apply String.eqb_neq. congruence.
    + unfold cfg, setConfig. cbn [config]. rewrite F.
      destruct (rev fields) as [|field rest]; [reflexivity|].
      unfold objectAssign. cbn [fold_left fst snd]. rewrite assoc_setField. reflexivity.
    + repeat (split; [reflexivity|]). split; [|split; [|split; reflexivity]].
      * apply mapSet_keys_present. unfold mapHas. now rewrite G.
      * intros k Hk. now apply mapGet_mapSet_other.
  - intros H Ne. subst ed'. unfold saveNodeConfig.
    apply String.eqb_neq in Ne. rewrite Ne.
    unfold mapHas in H. destruct (mapGet (nodes ed) nodeId); [discriminate | reflexivity].
Qed.

Lemma saveNodeConfig_writes_by_element_name_witness :
  let es := [ Store (CreateNode "debug" 0 0 []) ] in
  let fields := [ dialogElement "text" false "probe"; dialogElement "text" false "payload";
                  dialogElement "checkbox" false "on" ] in
  exists n',
    mapGet (nodes (saveNodeConfig (handleAll newEditor es) "debug" (Some "node_1") fields 0 0))
           "node_1" = Some n'
    /\ cfg n' "name" = VStr "" /\ cfg n' "complete" = VStr "payload"
    /\ cfg n' "console" = VBool true
    /\ cfg n' "" = VBool false.
Proof.
  cbv zeta.
  destruct (saveNodeConfig_writes_by_element_name [ Store (CreateNode "debug" 0 0 []) ]
              "debug" "node_1"
              [ dialogElement "text" false "probe"; dialogElement "text" false "payload";
                dialogElement "checkbox" false "on" ] 0 0)
    as (_ & E & _).
  { intros field [<-|[<-|[<-|[]]]]; reflexivity. }
  destruct (E _ eq_refl) as (n' & G & C & C0 & _).
  exists n'. split; [exact G|].
  rewrite !C by discriminate. rewrite C0. repeat split.
Defined.

(** ** Export and import round trip *)

Lemma setField_absent (k : string) (u : value) (l : list (string * value)) :
  ~ In k (map fst l) -> setField k u l = (l ++ [(k, u)])%list.
Proof.
  induction l as [|[j w] l IH]; cbn [setField map fst In app]; [reflexivity|].
  intros H. destruct (j =? k) eqn:E.
  - apply String.eqb_eq in E. tauto.
  - rewrite IH by tauto. reflexivity.
Qed.

Lemma setField_hit (k : string) (u w : value) (l r : list (string * value)) :
  ~ In k (map fst l) -> setField k u (l ++ (k, w) :: r) = (l ++ (k, u) :: r)%list.
Proof.
  induction l as [|[j c] l IH]; cbn [setField map fst In app].
  - intros _. now rewrite String.eqb_refl.
  - intros H. destruct (j =? k) eqn:E.
    + apply String.eqb_eq in E. tauto.
    + rewrite IH by tauto. reflexivity.
Qed.

Lemma setField_keys (k : string) (u : value) (l : list (string * value)) :
  exists rest, map fst (setField k u l) = (map fst l ++ rest)%list
               /\ (NoDup (map fst l) -> NoDup (map fst (setField k u l))).
Proof.
  induction l as [|[j w] l (rest & E & N)]; cbn [setField map fst].
  - exists [k]. split; [reflexivity|]. intros _. repeat constructor. intros [].
  - destruct (j =? k) eqn:Q; cbn [map fst].
    + exists []. split; [now rewrite app_nil_r | auto].
    + exists rest. split; [now rewrite E|].
      intros D. inversion D as [|? ? Dj D']; subst. constructor; [|auto].
      rewrite E. intros H. apply in_app_or in H as [H|H]; [contradiction|].
      (* a key of [rest] is [k] itself *)
      assert (R : forall r, In r rest -> r = k).
      { clear - E. revert rest E. induction l as [|[j' w'] l IH]; cbn [setField map fst app].
        - intros rest [= <-] r [<-|[]]. reflexivity.
        - intros rest. destruct (j' =? k); cbn [map fst].
          + intros E r Hr. exfalso.
            assert (L : List.length (j' :: map fst l)
                        = List.length ((j' :: map fst l) ++ rest)) by (f_equal; exact E).
            rewrite length_app in L. destruct rest; [destruct Hr | cbn in L; lia].
          + intros [= E]. now apply IH. }
      apply R in H. subst j. now rewrite String.eqb_refl in Q.
Qed.

Lemma objectAssign_keys (source : list (string * value)) :
  forall target,
    exists rest, map fst (objectAssign target source) = (map fst target ++ rest)%list
                 /\ (NoDup (map fst target) -> NoDup (map fst (objectAssign target source))).
Proof.
  unfold objectAssign.
  induction source as [|[k v] source IH]; intros target; cbn [fold_left fst snd].
  - exists []. split; [now rewrite app_nil_r | auto].
  - destruct (setField_keys k v target) as (r1 & E1 & N1).
    destruct (IH (setField k v target)) as (r2 & E2 & N2).
    exists (r1 ++ r2)%list. split; [rewrite E2, E1, app_assoc; reflexivity | auto].
Qed.

Lemma objectAssign_app (target s1 s2 : list (string * value)) :
  objectAssign target (s1 ++ s2) = objectAssign (objectAssign target s1) s2.
Proof. unfold objectAssign. apply fold_left_app. Qed.

Lemma objectAssign_append (l2 : list (string * value)) :
  forall l1, NoDup (map fst (l1 ++ l2)) -> objectAssign l1 l2 = (l1 ++ l2)%list.
Proof.
  induction l2 as [|[k v] l2 IH]; intros l1 N.
  - now rewrite app_nil_r.
  - change (objectAssign l1 ((k, v) :: l2)) with (objectAssign (setField k v l1) l2).
    rewrite map_app in N. apply NoDup_remove_2 in N as Nk.
    rewrite setField_absent by (intros H; apply Nk, in_or_app; now left).
    rewrite IH; [now rewrite <- app_assoc|].
    rewrite <- app_assoc. cbn [app]. now rewrite map_app.
Qed.

Lemma objectAssign_overwrite (lrest : list (string * value)) :
  forall ldone prest,
    map fst lrest = map fst prest ->
    NoDup (map fst (ldone ++ lrest)) ->
    objectAssign (ldone ++ prest) lrest = (ldone ++ lrest)%list.
Proof.
  induction lrest as [|[k v] lrest IH]; intros ldone prest E N.
  - destruct prest; [reflexivity | discriminate].
  - destruct prest as [|[k' w] prest]; [discriminate|]. cbn [map fst] in E.
    injection E as <- E.
    change (objectAssign (ldone ++ (k, w) :: prest) ((k, v) :: lrest))
      with (objectAssign (setField k v (ldone ++ (k, w) :: prest)) lrest).
    rewrite map_app in N. apply NoDup_remove_2 in N as Nk.
    rewrite setField_hit by (intros H; apply Nk, in_or_app; now left).
    replace (ldone ++ (k, v) :: prest)%list with ((ldone ++ [(k, v)]) ++ prest)%list
      by (now rewrite <- app_assoc).
    rewrite IH; [now rewrite <- app_assoc | assumption|].
    rewrite <- app_assoc. cbn [app]. now rewrite map_app.
Qed.

Lemma objectAssign_fixed (p l : list (string * value)) (rest : list string) :
  NoDup (map fst l) -> map fst l = (map fst p ++ rest)%list -> objectAssign p l = l.
Proof.
  intros N E.
  rewrite <- (firstn_skipn (List.length p) l) in N |- * at 1.
  set (l1 := firstn (List.length p) l) in *. set (l2 := skipn (List.length p) l) in *.
  assert (E1 : map fst l1 = map fst p).
  { unfold l1. rewrite <- firstn_map, E, firstn_app, length_map, Nat.sub_diag.
    cbn [firstn]. rewrite app_nil_r. apply firstn_all2. rewrite length_map. lia. }
  rewrite objectAssign_app.
  assert (O : objectAssign p l1 = l1).
  { apply (objectAssign_overwrite l1 [] p E1). cbn [app].
    rewrite map_app in N. now apply NoDup_app_remove_r in N. }
  rewrite O, (objectAssign_append l2 l1 N). unfold l1, l2. apply firstn_skipn.
Qed.

Lemma configClosed_fixed (n : node) (d : nodeType) :
  configClosed n -> lookupType (type n) = Some d ->
  spread (defaults d) (config n) = config n.
Proof.
  intros (d' & rest & L & N & E) L'. rewrite L in L'. injection L' as ->.
  rewrite spread_objectAssign. now apply (objectAssign_fixed _ _ rest).
Qed.

Lemma createNode_configsClosed (ed : editor) ty px py c :
  configsClosed ed -> configsClosed (snd (createNode ed ty px py c)).
Proof.
  intros C. unfold createNode. destruct (lookupType ty) as [d|] eqn:L; cbn [snd]; [|exact C].
  intros k n H. cbn [nodes withNodes withNodeCounter] in H.
  apply mapSet_In in H as [[-> ->]|H]; [|now apply (C k)].
  destruct (objectAssign_keys c (objectAssign [] (defaults d))) as (rest & E & N).
  exists d, rest. cbn [type config]. split; [exact L|]. rewrite spread_objectAssign.
  split; [|exact E]. apply N.
  destruct (objectAssign_keys (defaults d) []) as (r0 & _ & N0). apply N0. constructor.
Qed.

(** A node object updated in place keeps the shape of its configuration when
    the update keeps the type and only assigns properties. *)
Lemma updateNode_configsClosed (ed : editor) (k : string) (n n' : node) :
  configsClosed ed -> mapGet (nodes ed) k = Some n -> configClosed n' ->
  configsClosed (withNodes ed (mapSet (nodes ed) k n')).
Proof.
  intros C G C' j c H. cbn [nodes withNodes] in H.
  apply mapSet_In in H as [[-> ->]|H]; [exact C' | now apply (C j)].
Qed.

Lemma configClosed_same (n n' : node) :
  type n' = type n -> config n' = config n -> configClosed n -> configClosed n'.
Proof. intros T E (d & rest & L & N & K). exists d, rest. now rewrite T, E. Qed.

Lemma receiveMessage_frame (ed : editor) (n : node) (m : message) (now : string) :
  let n' := fst (receiveMessage ed n m now) in
  type n' = type n /\ config n' = config n /\ x n' = x n /\ y n' = y n
  /\ inputs n' = inputs n /\ outputs n' = outputs n.
Proof.
  cbv zeta. unfold receiveMessage.
  repeat (match goal with |- context [if ?b then _ else _] => destruct b end);
    cbn [fst]; try (repeat split; reflexivity).
  - unfold executeDataTableNode. destruct (truthy _); repeat split; reflexivity.
  - unfold executeGraphVizNode. destruct (networkData n); repeat split; reflexivity.
Qed.

Lemma deleteNode_nodes_subset (ed : editor) (nodeId k : string) (n : node) :
  In (k, n) (nodes (deleteNode ed nodeId)) -> In (k, n) (nodes ed).
Proof.
  destruct (mapGet (nodes ed) nodeId) as [c|] eqn:G.
  - destruct (deleteNode_present ed nodeId c G) as (-> & _). intros H.
    now apply mapDelete_In in H.
  - unfold deleteNode. now rewrite G.
Qed.

Lemma importFlow_configsClosed (ed : editor) (t : flowText) :
  configsClosed ed -> configsClosed (importFlow ed t).
Proof.
  intros C. unfold importFlow. destruct (JSON_parse t) as [fl|]; [|exact C].
  assert (C0 : configsClosed (clearAll ed)) by (intros k n []).
  destruct (flow_nodes fl) as [nds|]; [|exact C0].
  assert (C1 : forall nds e, configsClosed e -> configsClosed (fold_left importNode nds e)).
  { clear. induction nds as [|nd nds IH]; intros e Ce; cbn [fold_left]; [exact Ce|].
    apply IH. now apply createNode_configsClosed. }
  assert (C2 : forall lds e, configsClosed e -> configsClosed (fold_left importLink lds e)).
  { clear. induction lds as [|ld lds IH]; intros e Ce; cbn [fold_left]; [exact Ce|].
    apply IH. unfold importLink.
    destruct (find (fun n => node_id n =? ld_source ld) _); [|exact Ce].
    destruct (find (fun n => node_id n =? ld_target ld) _); exact Ce. }
  destruct (flow_links fl) as [lds|]; auto.
Qed.

Lemma handle_configsClosed (ed : editor) (e : event) :
  configsClosed ed -> configsClosed (handle ed e).
Proof.
  intros C. destruct e as [o|k|k|b|key|ty nid form cx cy|k|k|k|d now]; cbn [handle].
  - destruct o as [ty px py c|k|k|k px py| |t|k pt i|t]; cbn [step].
    + now apply createNode_configsClosed.
    + intros j n H. apply deleteNode_nodes_subset in H. now apply (C j).
    + intros j n H. destruct (deleteLink_frame ed k) as (E & _). rewrite E in H. now apply (C j).
    + unfold moveNode. destruct (mapGet (nodes ed) k) as [n|] eqn:G; [|exact C].
      apply (updateNode_configsClosed ed k n); auto.
      apply (configClosed_same n); auto. apply (C k). now apply mapGet_In.
    + intros j n [].
    + now apply importFlow_configsClosed.
    + destruct pt; exact C.
    + unfold onConnectionMouseUp. destruct (isConnecting ed); [|exact C].
      destruct (connectionStart ed) as [[sn sp]|]; [|exact C].
      destruct t as [[tid tp]|]; [|exact C].
      destruct (mapGet (nodes ed) tid); [|exact C].
      destruct sn; [|exact C]. destruct (negb _); exact C.
  - unfold onNodeMouseDown. destruct (mapGet (nodes ed) k); exact C.
  - unfold onLinkClick. destruct (mapGet (links ed) k); exact C.
  - unfold onCanvasClick. destruct b; exact C.
  - unfold onKeyDown.
    destruct ((key =? "Delete") || (key =? "Backspace")).
    + unfold deleteSelected. destruct (selectedNode ed) as [id|].
      * intros j n H. apply deleteNode_nodes_subset in H. now apply (C j).
      * destruct (selectedLink ed) as [id|]; [|exact C].
        intros j n H. destruct (deleteLink_frame ed id) as (E & _). rewrite E in H.
        now apply (C j).
    + destruct (key =? "Escape"); [|exact C]. cbn zeta.
      destruct (isConnecting (clearSelection ed)); exact C.
  - unfold saveNodeConfig. destruct nid as [nodeId|]; [|now apply createNode_configsClosed].
    destruct (nodeId =? ""); [now apply createNode_configsClosed|].
    destruct (mapGet (nodes ed) nodeId) as [n|] eqn:G; [|exact C].
    apply (updateNode_configsClosed ed nodeId n); auto.
    destruct (C nodeId n (mapGet_In _ _ _ G)) as (d & rest & L & N & K).
    destruct (objectAssign_keys (formConfig form) (config n)) as (r & E & N').
    exists d, (rest ++ r)%list. cbn [setConfig type config].
    split; [exact L|]. split; [auto|]. rewrite E, K, app_assoc. reflexivity.
  - unfold clearDebugOutput. destruct (mapGet (nodes ed) k) as [n|] eqn:G; [|exact C].
    destruct (debugOutputs n); [|exact C].
    apply (updateNode_configsClosed ed k n); auto.
    apply (configClosed_same n); auto. apply (C k). now apply mapGet_In.
  - unfold clearTableData. destruct (mapGet (nodes ed) k) as [n|] eqn:G; [|exact C].
    apply (updateNode_configsClosed ed k n); auto.
    apply (configClosed_same n); auto. apply (C k). now apply mapGet_In.
  - unfold clearNetworkData. destruct (mapGet (nodes ed) k) as [n|] eqn:G; [|exact C].
    apply (updateNode_configsClosed ed k n); auto.
    apply (configClosed_same n); auto. apply (C k). now apply mapGet_In.
  - unfold deliver. destruct (mapGet (nodes ed) (d_target d)) as [n|] eqn:G; [|exact C].
    cbn [fst]. apply (updateNode_configsClosed ed _ n); auto.
    destruct (receiveMessage_frame ed n (d_message d) now) as (T & K & _).
    apply (configClosed_same n); auto. apply (C (d_target d)). now apply mapGet_In.
Qed.

Lemma handleAll_configsClosed (es : list event) :
  forall ed, configsClosed ed -> configsClosed (handleAll ed es).
Proof.
  induction es as [|e es IH]; intros ed C; cbn [handleAll fold_left]; [exact C|].
  apply IH. now apply handle_configsClosed.
Qed.

Lemma fresh_nodeId (ed : editor) :
  wellFormed ed -> mapHas (nodes ed) ("node_" ++ decimal (S (nodeCounter ed))) = false.
Proof.
  intros ((_ & Hn) & _). destruct (mapHas _ _) eqn:E; [|reflexivity].
  apply mapHas_In in E as (n & H). destruct (Hn _ _ H) as (_ & i & Ei & Hi).
  apply nodeId_inj in Ei. lia.
Qed.

Lemma fresh_linkId (ed : editor) :
  wellFormed ed -> mapHas (links ed) ("link_" ++ decimal (S (linkCounter ed))) = false.
Proof.
  intros (_ & (_ & Hl) & _). destruct (mapHas _ _) eqn:E; [|reflexivity].
  apply mapHas_In in E as (l & H). destruct (Hl _ _ H) as (_ & i & Ei & Hi).
  apply linkId_inj in Ei. lia.
Qed.

Lemma find_by_id (ed : editor) (s : string) :
  wellFormed ed -> mapHas (nodes ed) s = true ->
  exists n, find (fun n => node_id n =? s) (mapValues (nodes ed)) = Some n /\ node_id n = s.
Proof.
  intros ((_ & Hn) & _) H. apply mapHas_In in H as (n & H).
  destruct (find _ _) as [c|] eqn:F.
  - exists c. split; [reflexivity|]. apply find_some in F as (_ & F).
    now apply String.eqb_eq in F.
  - exfalso. assert (Q : (node_id n =? s) = false).
    { apply (find_none _ _ F n). apply mapValues_In. now exists s. }
    destruct (Hn _ _ H) as (E & _). rewrite E, String.eqb_refl in Q. discriminate.
Qed.

Lemma importNodes_export (nds : list nodeData) :
  forall ed,
    wellFormed ed ->
    (forall nd, In nd nds ->
       exists d, lookupType (nd_type nd) = Some d
                 /\ spread (defaults d) (nd_config nd) = nd_config nd) ->
    numberedFrom (nodeCounter ed) (map nd_id nds) ->
    let ed' := fold_left importNode nds ed in
    map nodeDataOf (mapValues (nodes ed')) = (map nodeDataOf (mapValues (nodes ed)) ++ nds)%list
    /\ map fst (nodes ed') = (map fst (nodes ed) ++ map nd_id nds)%list
    /\ links ed' = links ed /\ linkCounter ed' = linkCounter ed
    /\ wellFormed ed'.
Proof.
  induction nds as [|nd nds IH]; intros ed W C Num; cbn [fold_left].
  - cbn [map]. rewrite !app_nil_r. auto.
  - unfold numberedFrom in Num. cbn [map List.length seq] in Num.
    injection Num as Eid Num.
    destruct (C nd (or_introl eq_refl)) as (d & L & Fx).
    assert (W1 : wellFormed (importNode ed nd)) by now apply createNode_wellFormed.
    assert (E1 : nodes (importNode ed nd)
                 = (nodes ed ++ [(nd_id nd,
                      {| node_id := nd_id nd; type := nd_type nd; x := nd_x nd; y := nd_y nd;
                         width := 120; height := 40; config := nd_config nd;
                         inputs := nt_inputs d; outputs := nt_outputs d;
                         debugOutputs := None; accumulatedData := None;
                         networkData := None |})])%list).
    { unfold importNode, createNode. rewrite L. cbn [snd nodes withNodes withNodeCounter].
      rewrite mapSet_absent by now apply fresh_nodeId.
      rewrite Fx, Eid, Nat.add_1_r. reflexivity. }
    assert (C1 : nodeCounter (importNode ed nd) = S (nodeCounter ed)).
    { unfold importNode, createNode. now destruct (lookupType _). }
    assert (L1 : links (importNode ed nd) = links ed
                 /\ linkCounter (importNode ed nd) = linkCounter ed).
    { unfold importNode, createNode. now destruct (lookupType _). }
    destruct (IH (importNode ed nd) W1) as (En & Ek & El & Ec & W').
    + intros nd' H. apply C. now right.
    + unfold numberedFrom. rewrite C1, length_map in *. rewrite Num at 1.
      rewrite <- (seq_shift (List.length nds) 1), map_map. apply map_ext.
      intros i. replace (nodeCounter ed + S i)%nat with (S (nodeCounter ed) + i)%nat by lia.
      reflexivity.
    + cbv zeta. rewrite En, Ek, El, Ec, E1. unfold mapValues.
      rewrite !map_app, <- !app_assoc. cbn [map fst snd app].
      destruct L1 as (-> & ->). destruct nd; auto.
Qed.

Lemma importLinks_export (lds : list linkData) :
  forall ed,
    wellFormed ed ->
    (forall ld, In ld lds ->
       mapHas (nodes ed) (ld_source ld) = true /\ mapHas (nodes ed) (ld_target ld) = true) ->
    let ed' := fold_left importLink lds ed in
    nodes ed' = nodes ed
    /\ map linkDataOf (mapValues (links ed')) = (map linkDataOf (mapValues (links ed)) ++ lds)%list.
Proof.
  induction lds as [|ld lds IH]; intros ed W P; cbn [fold_left].
  - cbn [map]. rewrite app_nil_r. auto.
  - destruct (P ld (or_introl eq_refl)) as (Ps & Pt).
    destruct (find_by_id ed _ W Ps) as (sn & Fs & Es).
    destruct (find_by_id ed _ W Pt) as (tn & Ft & Et).
    assert (W1 : wellFormed (importLink ed ld)).
    { unfold importLink. rewrite Fs, Ft. now apply createConnection_wellFormed. }
    assert (N1 : nodes (importLink ed ld) = nodes ed).
    { unfold importLink. rewrite Fs, Ft. reflexivity. }
    assert (E1 : map linkDataOf (mapValues (links (importLink ed ld)))
                 = (map linkDataOf (mapValues (links ed)) ++ [ld])%list).
    { unfold importLink. rewrite Fs, Ft. unfold createConnection.
      cbn [snd links withLinks withLinkCounter].
      rewrite mapSet_absent by now apply fresh_linkId.
      unfold mapValues. rewrite !map_app. cbn [map snd]. unfold linkDataOf at 3.
      cbn [link_source link_target sourcePort targetPort]. rewrite Es, Et.
      now destruct ld. }
    destruct (IH (importLink ed ld) W1) as (En & El).
    + intros ld' H. rewrite N1. apply P. now right.
    + cbv zeta. rewrite En, El, N1, E1, <- app_assoc. auto.
Qed.

Lemma importFlow_of_exportFlow (ed ed0 : editor) :
  wellFormed ed -> configsClosed ed ->
  numberedFrom (nodeCounter ed0) (map fst (nodes ed)) ->
  linkEndpointsPresent ed ->
  exportFlow (importFlow ed0 (exportFlow ed)) = exportFlow ed
  /\ map fst (nodes (importFlow ed0 (exportFlow ed))) = map fst (nodes ed).
Proof.
  intros W C Num P.
  assert (W0 : wellFormed (clearAll ed0)).
  { split; [|split; [|exact I]]; (split; [constructor | intros k c []]). }
  assert (Ids : map nd_id (map nodeDataOf (mapValues (nodes ed))) = map fst (nodes ed)).
  { unfold mapValues. rewrite !map_map. apply map_ext_in. intros [k n] H.
    destruct W as ((_ & Hn) & _). destruct (Hn _ _ H) as (E & _). exact E. }
  unfold importFlow, exportFlow at 2. cbn [JSON_parse JSON_stringify flow_nodes flow_links].
  change (fun n : node => {| nd_id := node_id n; nd_type := type n; nd_x := x n;
                             nd_y := y n; nd_config := config n |}) with nodeDataOf.
  change (fun l : link => {| ld_source := link_source l; ld_sourcePort := sourcePort l;
                             ld_target := link_target l; ld_targetPort := targetPort l |})
    with linkDataOf.
  destruct (importNodes_export (map nodeDataOf (mapValues (nodes ed))) (clearAll ed0) W0)
    as (En & Ek & El & Ec & W2).
  { intros nd H. apply in_map_iff in H as (n & <- & H).
    apply mapValues_In in H as (k & H). destruct (C k n H) as (d & rest & L & N & K).
    exists d. split; [exact L|]. apply configClosed_fixed; [|exact L].
    now exists d, rest. }
  { rewrite Ids. exact Num. }
  set (ed2 := fold_left importNode (map nodeDataOf (mapValues (nodes ed))) (clearAll ed0)) in *.
  cbn [map app] in En, Ek. rewrite Ids in Ek.
  destruct (importLinks_export (map linkDataOf (mapValues (links ed))) ed2 W2) as (En' & El').
  { intros ld H. apply in_map_iff in H as (l & <- & H). cbn [linkDataOf ld_source ld_target].
    destruct (P l H) as (Ps & Pt).
    split; apply mapHas_keys; rewrite Ek; now apply mapHas_keys. }
  rewrite El in El'. cbn [map app clearAll links clearSelection withSelection withLinks] in El'.
  split.
  - unfold exportFlow, JSON_stringify.
    change (fun n : node => {| nd_id := node_id n; nd_type := type n; nd_x := x n;
                               nd_y := y n; nd_config := config n |}) with nodeDataOf.
    change (fun l : link => {| ld_source := link_source l; ld_sourcePort := sourcePort l;
                               ld_target := link_target l; ld_targetPort := targetPort l |})
      with linkDataOf.
    rewrite En', En. f_equal. f_equal. f_equal. exact El'.
  - unfold exportFlow. cbn [JSON_parse JSON_stringify flow_nodes flow_links].
    change (fun n : node => {| nd_id := node_id n; nd_type := type n; nd_x := x n;
                               nd_y := y n; nd_config := config n |}) with nodeDataOf.
    change (fun l : link => {| ld_source := link_source l; ld_sourcePort := sourcePort l;
                               ld_target := link_target l; ld_targetPort := targetPort l |})
      with linkDataOf.
    fold ed2. rewrite En'. exact Ek.
Qed.


(** X7. Exporting the store of a session and importing the text gives a store
    that exports to the same text (same node ids, types, positions and
    configurations, same link endpoints and ports, in the same order),
    provided the node ids of the exported store are the ones [createNode]
    hands out next in the importing editor, in order, and every link of the
    exported store joins stored nodes. *)
Theorem export_import_round_trip (es : list event) (ed0 : editor) :
  let ed := handleAll newEditor es in
  numberedFrom (nodeCounter ed0) (map fst (nodes ed)) ->
  linkEndpointsPresent ed ->
  exportFlow (importFlow ed0 (exportFlow ed)) = exportFlow ed
  /\ map fst (nodes (importFlow ed0 (exportFlow ed))) = map fst (nodes ed).
Proof.
  intros ed Num P. apply importFlow_of_exportFlow; auto.
  - apply handleAll_wellFormed, newEditor_wellFormed.
  - apply handleAll_configsClosed. intros k n [].
Qed.

Lemma export_import_round_trip_witness :
  let es := [ Store (CreateNode "function" 10 20 [("name", VStr "f")]);
              Store (CreateNode "debug" 200 20 []);
              Store (PortMouseDown "node_1" OutputPort 0);
              Store (ConnectionMouseUp (Some ("node_2", 0%nat)));
              SaveNodeConfig "debug" (Some "node_2") [dialogElement "text" false "probe"] 0 0 ] in
  let ed := handleAll newEditor es in
  exportFlow (importFlow newEditor (exportFlow ed)) = exportFlow ed
  /\ map fst (nodes (importFlow newEditor (exportFlow ed))) = map fst (nodes ed).
Proof.
  cbv zeta.
  apply (export_import_round_trip
           [ Store (CreateNode "function" 10 20 [("name", VStr "f")]);
             Store (CreateNode "debug" 200 20 []);
             Store (PortMouseDown "node_1" OutputPort 0);
             Store (ConnectionMouseUp (Some ("node_2", 0%nat)));
             SaveNodeConfig "debug" (Some "node_2") [dialogElement "text" false "probe"] 0 0 ] newEditor).
  - vm_compute. reflexivity.
  - intros l H. vm_compute in H. destruct H as [<-|[]]. vm_compute. auto.
Defined.

(** ** Data tables: the other modes *)

Lemma receiveAll_frame (ed : editor) (ms : list (message * string)) :
  forall n, type (receiveAll ed n ms) = type n /\ config (receiveAll ed n ms) = config n.
Proof.
  unfold receiveAll. induction ms as [|[m now] ms IH]; intros n; cbn [fold_left fst snd]; [auto|].
  destruct (IH (fst (receiveMessage ed n m now))) as (T & C).
  destruct (receiveMessage_frame ed n m now) as (T' & C' & _).
  split; congruence.
Qed.

Lemma receiveAll_snoc (ed : editor) (n : node) (ms : list (message * string))
      (mt : message * string) :
  receiveAll ed n (ms ++ [mt]) = fst (receiveMessage ed (receiveAll ed n ms) (fst mt) (snd mt)).
Proof. unfold receiveAll. now rewrite fold_left_app. Qed.

Lemma executeDataTableNode_cap (n : node) (m : message) (cap : Z) :
  truthy (cfg n "appendData") = true ->
  parseIntOr (cfg n "maxRows") 10 = cap -> (0 < cap)%Z ->
  accumulatedData (executeDataTableNode n m)
  = Some (lastn (Z.to_nat cap) (accumulatedRows n ++ normalizeRows (payload m))).
Proof.
  intros Ap E P. unfold executeDataTableNode. rewrite Ap, E.
  cbn [accumulatedData setAccumulatedData]. f_equal.
  apply sliceFrom_lastn. assumption.
Qed.

Lemma receiveAll_dataTable_cap (ed : editor) (cap : Z) (ms : list (message * string)) :
  forall (n : node) (mt : message * string),
    type n = "dataTable" ->
    truthy (cfg n "appendData") = true ->
    parseIntOr (cfg n "maxRows") 10 = cap -> (0 < cap)%Z ->
    accumulatedData (receiveAll ed n (mt :: ms))
    = Some (lastn (Z.to_nat cap)
                  (accumulatedRows n
                     ++ flat_map (fun mt => normalizeRows (payload (fst mt))) (mt :: ms))).
Proof.
  induction ms as [|mt' ms IH]; intros n [m now] T Ap E P.
  - unfold receiveAll. cbn [fold_left fst snd flat_map].
    rewrite receiveMessage_dataTable by assumption.
    rewrite app_nil_r. now apply executeDataTableNode_cap.
  - change (receiveAll ed n ((m, now) :: mt' :: ms))
      with (receiveAll ed (fst (receiveMessage ed n m now)) (mt' :: ms)).
    rewrite receiveMessage_dataTable by assumption.
    destruct (executeDataTableNode_frame n m) as [T' C'].
    rewrite (IH (executeDataTableNode n m) mt'); unfold cfg; rewrite ?C'; try congruence; auto.
    f_equal. unfold accumulatedRows at 1.
    rewrite (executeDataTableNode_cap n m cap Ap E P).
    change (flat_map (fun mt => normalizeRows (payload (fst mt))) ((m, now) :: mt' :: ms))
      with (normalizeRows (payload m)
              ++ flat_map (fun mt => normalizeRows (payload (fst mt))) (mt' :: ms))%list.
    rewrite app_assoc. apply lastn_app_lastn.
Qed.

(** X8. A dataTable node outside the case of a positive configured maxRows.
    In replace mode (appendData falsy, the catalogue default) the accumulator
    holds the rows of the last message only.  In append mode a maxRows that
    reads as 0 or as no number means 10: the accumulator holds the last 10
    rows that arrived.  In append mode a negative maxRows -k makes every
    message drop the first k rows of old rows followed by new rows
    ([length > maxRows] always holds and [slice(k)] cuts from the front). *)
Theorem dataTable_other_modes (ed : editor) (n : node)
        (ms : list (message * string)) (mt : message * string) :
  type n = "dataTable" ->
  let received := (ms ++ [mt])%list in
  let arrived := (accumulatedRows n
                    ++ flat_map (fun mt => normalizeRows (payload (fst mt))) received)%list in
  (truthy (cfg n "appendData") = false ->
   accumulatedData (receiveAll ed n received) = Some (normalizeRows (payload (fst mt))))
  /\ (truthy (cfg n "appendData") = true ->
      parseInt (cfg n "maxRows") = None \/ parseInt (cfg n "maxRows") = Some 0%Z ->
      accumulatedData (receiveAll ed n received) = Some (lastn 10 arrived))
  /\ (truthy (cfg n "appendData") = true ->
      forall k, parseInt (cfg n "maxRows") = Some (- k)%Z -> (0 < k)%Z ->
      accumulatedData (fst (receiveMessage ed n (fst mt) (snd mt)))
      = Some (skipn (Z.to_nat k) (accumulatedRows n ++ normalizeRows (payload (fst mt))))).
Proof.
  intros T received arrived. split; [|split].
  - intros Ap. unfold received. rewrite receiveAll_snoc.
    destruct (receiveAll_frame ed ms n) as (T' & C').
    rewrite receiveMessage_dataTable by congruence.
    unfold executeDataTableNode, cfg. rewrite C'. fold (cfg n "appendData"). rewrite Ap.
    reflexivity.
  - intros Ap E.
    assert (Cap : parseIntOr (cfg n "maxRows") 10 = 10%Z).
    { unfold parseIntOr. destruct E as [-> | ->]; reflexivity. }
    unfold arrived, received. destruct ms as [|mt0 ms]; cbn [app].
    + apply (receiveAll_dataTable_cap ed 10 [] n mt T Ap Cap). lia.
    + apply (receiveAll_dataTable_cap ed 10 (ms ++ [mt]) n mt0 T Ap Cap). lia.
  - intros Ap k E P. rewrite receiveMessage_dataTable by assumption.
    unfold executeDataTableNode. rewrite Ap. unfold parseIntOr. rewrite E.
    replace (- k =? 0)%Z with false by (symmetry; apply Z.eqb_neq; lia).
    replace (- k <? _)%Z with true by (symmetry; apply Z.ltb_lt; lia).
    cbn [accumulatedData setAccumulatedData]. f_equal. unfold sliceFrom, accumulatedRows.
    rewrite Z.opp_involutive.
    replace (k <? 0)%Z with false by (symmetry; apply Z.ltb_ge; lia).
    set (l := (_ ++ _)%list).
    destruct (Z.le_gt_cases k (Z.of_nat (List.length l))) as [H|H].
    + now rewrite Z.min_l.
    + rewrite Z.min_r by lia. rewrite Nat2Z.id.
      rewrite !skipn_all2; [reflexivity | lia | lia].
Qed.

Lemma dataTable_other_modes_witness :
  let fresh := {| node_id := "node_1"; type := "dataTable"; x := 0; y := 0;
                  width := 120; height := 40;
                  config := [("name", VStr ""); ("maxRows", VNum 10); ("autoWidth", VBool true);
                             ("showHeaders", VBool true); ("appendData", VBool false)];
                  inputs := Some 1; outputs := Some 0;
                  debugOutputs := None; accumulatedData := None; networkData := None |} in
  accumulatedData (receiveAll newEditor fresh (map rowMessage [1; 2; 3]%nat))
  = Some [VObj [("reading", VNum 3)]].
Proof.
  cbv zeta.
  match goal with
  | |- accumulatedData (receiveAll _ ?n _) = _ =>
      exact (proj1 (dataTable_other_modes newEditor n (map rowMessage [1; 2]%nat)
                      (rowMessage 3%nat) eq_refl) eq_refl)
  end.
Defined.

(** ** Rendering of a data table *)

Lemma length_append (a b : string) :
  String.length (a ++ b) = (String.length a + String.length b)%nat.
Proof. induction a as [|c a IH]; cbn [append String.length]; [reflexivity | now rewrite IH]. Qed.

Lemma length_substring0 (s : string) :
  forall k, String.length (substring 0 k s) = Nat.min k (String.length s).
Proof.
  induction s as [|c s IH]; intros [|k]; cbn [substring String.length Nat.min]; try reflexivity.
  now rewrite IH.
Qed.

Lemma prefix_substring0 (s : string) :
  forall k, prefix (substring 0 k s) s = true.
Proof.
  induction s as [|c s IH]; intros [|k]; cbn [substring prefix]; try reflexivity.
  destruct (ascii_dec c c) as [_|N]; [apply IH | now destruct N].
Qed.

Lemma substring0_all (s : string) :
  forall k, (String.length s <= k)%nat -> substring 0 k s = s.
Proof.
  induction s as [|c s IH]; intros [|k] H; cbn [substring String.length] in *;
    try reflexivity; try lia.
  rewrite IH by lia. reflexivity.
Qed.

Lemma truncateText_length (s : string) (maxWidth : Z) :
  (3 <= maxWidth / 6)%Z ->
  (Z.of_nat (String.length (truncateText (VStr s) maxWidth)) <= maxWidth / 6)%Z.
Proof.
  intros H. unfold truncateText.
  destruct (Z.of_nat (String.length s) <=? maxWidth / 6)%Z eqn:E.
  - now apply Z.leb_le in E.
  - apply Z.leb_gt in E. rewrite length_append, length_substring0.
    cbn [String.length]. lia.
Qed.

(** X9. [truncateText] with [maxChars = floor(maxWidth / 6)]: a text of at
    most maxChars characters is returned as it is; a longer one is cut to its
    first maxChars - 3 characters followed by three dots, which makes exactly
    maxChars characters when maxChars >= 3, and a result that is stable under
    a second truncation; when maxChars < 3 the result is the three dots alone,
    wider than the budget; anything that is not a string gives the empty
    text. *)
Theorem truncateText_spec (text : string) (maxWidth : Z) :
  let maxChars := (maxWidth / 6)%Z in
  let shown := truncateText (VStr text) maxWidth in
  ((Z.of_nat (String.length text) <= maxChars)%Z -> shown = text)
  /\ ((maxChars < Z.of_nat (String.length text))%Z -> (3 <= maxChars)%Z ->
      Z.of_nat (String.length shown) = maxChars
      /\ exists kept, String.length kept = Z.to_nat (maxChars - 3)
                      /\ prefix kept text = true /\ shown = kept ++ "...")
  /\ ((maxChars < Z.of_nat (String.length text))%Z -> (maxChars < 3)%Z -> shown = "...")
  /\ ((3 <= maxChars)%Z -> truncateText (VStr shown) maxWidth = shown)
  /\ (forall v, (forall s, v <> VStr s) -> truncateText v maxWidth = "").
Proof.
  cbv zeta. split; [|split; [|split; [|split]]].
  - intros H. apply Z.leb_le in H. unfold truncateText. now rewrite H.
  - intros H P. apply Z.leb_gt in H as H'. unfold truncateText. rewrite H'. split.
    + rewrite length_append, length_substring0. cbn [String.length]. lia.
    + exists (substring 0 (Z.to_nat (maxWidth / 6 - 3)) text).
      split; [rewrite length_substring0; lia|]. split; [apply prefix_substring0 | reflexivity].
  - intros H P. apply Z.leb_gt in H as H'. unfold truncateText. rewrite H'.
    replace (Z.to_nat (maxWidth / 6 - 3)) with 0%nat by lia.
    destruct text; reflexivity.
  - intros P.
    pose proof (truncateText_length text maxWidth P) as L.
    apply Z.leb_le in L. unfold truncateText at 1. now rewrite L.
  - intros v H. destruct v; try reflexivity. now destruct (H s).
Qed.

Lemma fold_setAdd_spec (keys : list string) :
  forall allKeys,
    NoDup allKeys ->
    NoDup (fold_left setAdd keys allKeys)
    /\ forall k, In k (fold_left setAdd keys allKeys) <-> In k allKeys \/ In k keys.
Proof.
  induction keys as [|key keys IH]; intros allKeys N; cbn [fold_left].
  - split; [exact N|]. intros k. cbn [In]. tauto.
  - assert (N1 : NoDup (setAdd allKeys key)
                 /\ forall k, In k (setAdd allKeys key) <-> In k allKeys \/ k = key).
    { unfold setAdd. destruct (existsb (String.eqb key) allKeys) eqn:E.
      - split; [exact N|]. intros k. split; [tauto|]. intros [H| ->]; [exact H|].
        apply existsb_exists in E as (j & Hj & Ej). apply String.eqb_eq in Ej. now subst.
      - split.
        + apply NoDup_app; [exact N | repeat constructor; intros [] |].
          intros a Ha [Ea|[]]. subst a.
          assert (F : existsb (String.eqb key) allKeys = true)
            by (apply existsb_exists; exists key; split; [exact Ha | apply String.eqb_refl]).
          congruence.
        + intros k. rewrite in_app_iff. cbn [In]. intuition congruence. }
    destruct N1 as (N1 & I1). destruct (IH _ N1) as (N2 & I2). split; [exact N2|].
    intros k. rewrite I2, I1. cbn [In]. intuition congruence.
Qed.

Lemma tableColumns_spec (rows : list value) :
  NoDup (tableColumns rows)
  /\ forall k, In k (tableColumns rows)
               <-> exists item, In item rows /\ isObject item = true /\ In k (objectKeys item).
Proof.
  unfold tableColumns.
  assert (G : forall rows allKeys, NoDup allKeys ->
            let r := fold_left (fun allKeys item =>
                                  if isObject item then fold_left setAdd (objectKeys item) allKeys
                                  else allKeys) rows allKeys in
            NoDup r
            /\ forall k, In k r <-> In k allKeys
                                  \/ exists item, In item rows /\ isObject item = true
                                                  /\ In k (objectKeys item)).
  { clear. induction rows as [|item rows IH]; intros allKeys N; cbn [fold_left].
    - split; [exact N|]. intros k. split; [tauto|]. intros [H|(i & [] & _)]. exact H.
    - destruct (isObject item) eqn:O.
      + destruct (fold_setAdd_spec (objectKeys item) allKeys N) as (N1 & I1).
        destruct (IH _ N1) as (N2 & I2). split; [exact N2|].
        intros k. rewrite I2, I1. split.
        * intros [[H|H]|(i & Hi & Oi & Ki)]; [now left | right; exists item; cbn; auto |].
          right. exists i. cbn. auto.
        * intros [H|(i & [<-|Hi] & Oi & Ki)]; [tauto | tauto |].
          right. now exists i.
      + destruct (IH _ N) as (N2 & I2). split; [exact N2|].
        intros k. rewrite I2. split.
        * intros [H|(i & Hi & Oi & Ki)]; [now left|]. right. exists i. cbn. auto.
        * intros [H|(i & [<-|Hi] & Oi & Ki)]; [tauto | congruence |].
          right. now exists i. }
  destruct (G rows [] (NoDup_nil _)) as (N & I). split; [exact N|].
  intros k. rewrite I. cbn [In]. tauto.
Qed.

Lemma mapThrowing_Some {A B : Type} (f : A -> option B) (l : list A) :
  forall bs, mapThrowing f l = Some bs -> Forall2 (fun a b => f a = Some b) l bs.
Proof.
  induction l as [|a l IH]; cbn [mapThrowing]; intros bs H.
  - injection H as <-. constructor.
  - destruct (f a) as [b|] eqn:E; [|discriminate].
    destruct (mapThrowing f l) as [bs'|]; [|discriminate].
    injection H as <-. constructor; auto.
Qed.

Lemma mapThrowing_None {A B : Type} (f : A -> option B) (l : list A) :
  mapThrowing f l = None -> exists a, In a l /\ f a = None.
Proof.
  induction l as [|a l IH]; cbn [mapThrowing]; [discriminate|].
  destruct (f a) as [b|] eqn:E; [|intros _; exists a; cbn; auto].
  destruct (mapThrowing f l); [discriminate|].
  intros _. destruct (IH eq_refl) as (c & Hc & Ec). exists c. cbn. auto.
Qed.

Lemma Forall2_length_eq {A B : Type} (R : A -> B -> Prop) (l : list A) (bs : list B) :
  Forall2 R l bs -> List.length bs = List.length l.
Proof. induction 1; cbn; congruence. Qed.

Lemma Forall2_In_r {A B : Type} (R : A -> B -> Prop) (l : list A) (bs : list B) (b : B) :
  Forall2 R l bs -> In b bs -> exists a, In a l /\ R a b.
Proof.
  induction 1 as [|a b' l bs H F IH]; cbn [In]; [tauto|].
  intros [<-|Hb]; [exists a; auto|]. destruct (IH Hb) as (c & Hc & Rc). exists c. auto.
Qed.

Lemma cellWidth_chars (n : node) :
  let cellWidth := if truthy (cfg n "autoWidth") then 120%Z else 100%Z in
  (3 <= (cellWidth - 10) / 6 <= 18)%Z.
Proof. cbv zeta. destruct (truthy _); cbn; lia. Qed.

(** X10. [renderDataTable] renders nothing exactly when it is given no rows.
    Otherwise it works on the rows [data.slice(0, maxRows)]: the columns are
    the keys of the displayed rows that are objects, each once; it throws
    exactly when there is a column and a displayed row is [null] or
    [undefined]; a rendered table has one row of cells per displayed row, one
    cell per column in each; when [showHeaders] is on it has one header per
    column, the truncated column key, and when it is off it has none; no text
    is longer than 18 characters. *)
Theorem renderDataTable_spec (n : node) (data : list value) :
  let shown := displayData n data in
  let columns := tableColumns shown in
  NoDup columns
  /\ (forall k, In k columns
                <-> exists item, In item shown /\ isObject item = true /\ In k (objectKeys item))
  /\ match renderDataTable n data with
     | NothingRendered => data = []
     | RenderingThrows =>
         data <> [] /\ columns <> []
         /\ exists item, In item shown /\ (item = VUndefined \/ item = VNull)
     | Rendered t =>
         data <> [] /\ dt_columns t = columns
         /\ List.length (dt_rows t) = List.length shown
         /\ (forall row, In row (dt_rows t) ->
               List.length row = List.length columns
               /\ forall text, In text row -> (String.length text <= 18)%nat)
         /\ (truthy (cfg n "showHeaders") = true ->
             dt_headers t
             = map (fun column =>
                      truncateText (VStr column)
                                   ((if truthy (cfg n "autoWidth") then 120 else 100) - 10))
                   columns
             /\ List.length (dt_headers t) = List.length columns)
         /\ (truthy (cfg n "showHeaders") = false -> dt_headers t = [])
         /\ (forall text, In text (dt_headers t) -> (String.length text <= 18)%nat)
         /\ (forall item, In item shown -> item = VUndefined \/ item = VNull -> columns = [])
     end.
Proof.
  cbv zeta. destruct (tableColumns_spec (displayData n data)) as (N & I).
  split; [exact N|]. split; [exact I|].
  unfold renderDataTable. destruct data as [|item0 data]; [reflexivity|].
  set (shown := displayData n (item0 :: data)) in *.
  set (cellWidth := if truthy (cfg n "autoWidth") then 120%Z else 100%Z).
  pose proof (cellWidth_chars n) as W. cbv zeta in W. fold cellWidth in W.
  assert (T : forall s, (String.length (truncateText (VStr s) (cellWidth - 10)) <= 18)%nat).
  { intros s. pose proof (truncateText_length s (cellWidth - 10)) as L. lia. }
  destruct (mapThrowing _ shown) as [rows|] eqn:M.
  - apply mapThrowing_Some in M. cbn [dt_columns dt_rows dt_headers].
    split; [discriminate|]. split; [reflexivity|].
    split; [now apply Forall2_length_eq in M|]. split; [|split; [|split; [|split]]].
    + intros row Hr. destruct (Forall2_In_r _ _ _ _ M Hr) as (item & Hi & Mi).
      apply mapThrowing_Some in Mi. split; [now apply Forall2_length_eq in Mi|].
      intros text Ht. destruct (Forall2_In_r _ _ _ _ Mi Ht) as (column & Hc & Ec).
      unfold cellText in Ec. destruct (getProp item column); [|discriminate].
      injection Ec as <-. apply T.
    + intros H. rewrite H. split; [reflexivity | apply length_map].
    + intros H. now rewrite H.
    + intros text Ht. destruct (truthy (cfg n "showHeaders")); [|destruct Ht].
      apply in_map_iff in Ht as (column & <- & _). apply T.
    + intros item Hi Hn. destruct (tableColumns shown) as [|column columns] eqn:C; [reflexivity|].
      exfalso. clear I N.
      assert (Q : forall l rows,
                 In item l ->
                 Forall2 (fun a b => mapThrowing (cellText cellWidth a) (column :: columns)
                                     = Some b) l rows -> False).
      { clear - Hn. induction l as [|a l IH]; intros rows' Hl F; [destruct Hl|].
        inversion F as [|? b ? bs Fa Fs]; subst.
        destruct Hl as [->|Hl]; [|now apply (IH bs)].
        cbn [mapThrowing] in Fa. unfold cellText in Fa at 1.
        destruct Hn as [-> | ->]; cbn [getProp] in Fa; discriminate. }
      exact (Q shown rows Hi M).
  - split; [discriminate|]. apply mapThrowing_None in M as (item & Hi & Mi).
    apply mapThrowing_None in Mi as (column & Hc & Ec).
    split; [intros E; rewrite E in Hc; destruct Hc|].
    exists item. split; [exact Hi|]. unfold cellText in Ec.
    destruct item; cbn [getProp] in Ec; try discriminate; auto.
Qed.

Lemma sliceTo_firstn {A : Type} (stop : Z) (l : list A) :
  (0 <= stop)%Z -> sliceTo stop l = firstn (Z.to_nat stop) l.
Proof.
  intros P. unfold sliceTo.
  replace (stop <? 0)%Z with false by (symmetry; apply Z.ltb_ge; lia).
  destruct (Z.le_gt_cases stop (Z.of_nat (List.length l))) as [H|H].
  - now rewrite Z.min_l.
  - rewrite Z.min_r by lia. rewrite Nat2Z.id, !firstn_all2; [reflexivity | lia | lia].
Qed.

Lemma renderDataTable_rows (n : node) (data : list value) (t : dataTable) :
  renderDataTable n data = Rendered t ->
  List.length (dt_rows t) = List.length (displayData n data).
Proof.
  unfold renderDataTable. destruct data as [|item0 data]; [discriminate|].
  destruct (mapThrowing _ _) as [rows|] eqn:M; [|discriminate].
  intros [= <-]. cbn [dt_rows]. apply mapThrowing_Some in M.
  now apply Forall2_length_eq in M.
Qed.

(** X11. The table a dataTable node shows after a message, for a configured
    maxRows that reads as a positive integer.  In append mode the displayed
    rows are the whole accumulator, that is the last maxRows rows that
    arrived.  In replace mode the accumulator holds all rows of the message
    but the displayed rows are its first maxRows rows.  A rendered table has
    as many rows as are displayed, and nothing is rendered exactly when the
    accumulator is empty. *)
Theorem renderedTable_rows (n : node) (m : message) (cap : Z) :
  parseInt (cfg n "maxRows") = Some cap -> (0 < cap)%Z ->
  let n' := executeDataTableNode n m in
  let arrived := (accumulatedRows n ++ normalizeRows (payload m))%list in
  (truthy (cfg n "appendData") = true ->
   accumulatedRows n' = lastn (Z.to_nat cap) arrived
   /\ displayData n' (accumulatedRows n') = lastn (Z.to_nat cap) arrived)
  /\ (truthy (cfg n "appendData") = false ->
      accumulatedRows n' = normalizeRows (payload m)
      /\ displayData n' (accumulatedRows n') = firstn (Z.to_nat cap) (normalizeRows (payload m)))
  /\ (forall t, renderedTable n m = Rendered t ->
        List.length (dt_rows t) = List.length (displayData n' (accumulatedRows n')))
  /\ (renderedTable n m = NothingRendered <-> accumulatedRows n' = []).
Proof.
  intros E P n' arrived.
  assert (C : config n' = config n) by apply executeDataTableNode_frame.
  assert (D : forall l, displayData n' l = firstn (Z.to_nat cap) l).
  { intros l. unfold displayData, cfg. rewrite C. fold (cfg n "maxRows").
    rewrite (parseIntOr_positive _ cap 10 E P). apply sliceTo_firstn. lia. }
  split; [|split; [|split]].
  - intros Ap. assert (A : accumulatedRows n' = lastn (Z.to_nat cap) arrived).
    { unfold accumulatedRows at 1. unfold n'.
      now rewrite (executeDataTableNode_append n m cap Ap E P). }
    split; [exact A|]. rewrite D, A. apply firstn_all2. rewrite lastn_length. lia.
  - intros Ap. assert (A : accumulatedRows n' = normalizeRows (payload m)).
    { unfold accumulatedRows, n', executeDataTableNode. now rewrite Ap. }
    split; [exact A|]. now rewrite D, A.
  - intros t R. unfold renderedTable in R. fold n' in R. fold (accumulatedRows n') in R.
    now apply renderDataTable_rows.
  - unfold renderedTable. fold n'. fold (accumulatedRows n').
    unfold renderDataTable. destruct (accumulatedRows n') as [|item0 rest]; [tauto|].
    destruct (mapThrowing _ _); split; discriminate.
Qed.

Lemma renderedTable_rows_witness :
  let replacing := {| node_id := "node_1"; type := "dataTable"; x := 0; y := 0;
                      width := 120; height := 40;
                      config := [("name", VStr ""); ("maxRows", VStr "2");
                                 ("autoWidth", VBool true); ("showHeaders", VBool true);
                                 ("appendData", VBool false)];
                      inputs := Some 1; outputs := Some 0;
                      debugOutputs := None; accumulatedData := None; networkData := None |} in
  let m := {| payload := VArr [VObj [("a", VNum 1)]; VObj [("b", VNum 2)]; VObj [("a", VNum 3)]];
              topic := VStr "t"; timestamp := "0"; source := None; _msgid := None |} in
  accumulatedRows (executeDataTableNode replacing m)
  = [VObj [("a", VNum 1)]; VObj [("b", VNum 2)]; VObj [("a", VNum 3)]]
  /\ displayData (executeDataTableNode replacing m)
                 (accumulatedRows (executeDataTableNode replacing m))
     = [VObj [("a", VNum 1)]; VObj [("b", VNum 2)]].
Proof.
  cbv zeta.
  match goal with
  | |- accumulatedRows (executeDataTableNode ?n ?m) = _ /\ _ =>
      exact (proj1 (proj2 (renderedTable_rows n m 2%Z eq_refl eq_refl)) eq_refl)
  end.
Defined.

(** ** Escaping of debug output *)

Lemma append_assoc_string (a b c : string) : a ++ b ++ c = (a ++ b) ++ c.
Proof. induction a as [|x a IH]; cbn [append]; [reflexivity | now rewrite IH]. Qed.

Lemma replaceAll_append (c : ascii) (by_ s t : string) :
  replaceAll c by_ (s ++ t) = replaceAll c by_ s ++ replaceAll c by_ t.
Proof.
  induction s as [|a s IH]; cbn [append replaceAll]; [reflexivity|].
  destruct (Ascii.eqb a c); rewrite IH; [apply append_assoc_string | reflexivity].
Qed.

Lemma escapeHtml_append (s t : string) :
  escapeHtml (s ++ t) = escapeHtml s ++ escapeHtml t.
Proof. unfold escapeHtml. now rewrite !replaceAll_append. Qed.

Ltac special_case a c :=
  let E := fresh "E" in
  destruct (Ascii.eqb a c) eqn:E; [apply Ascii.eqb_eq in E; subst a|].

Ltac special_cases a :=
  special_case a "&"%char;
  [|special_case a "<"%char;
    [|special_case a ">"%char;
      [|special_case a doubleQuote;
        [|special_case a "'"%char]]]].

Lemma escapeHtml_char (a : ascii) : escapeHtml (String a EmptyString) = escapeChar a.
Proof.
  unfold escapeHtml, escapeChar. cbn [replaceAll].
  special_cases a; try reflexivity.
  repeat (cbn [replaceAll];
          match goal with
          | Q : Ascii.eqb a ?c = false |- context [Ascii.eqb a ?c] => rewrite Q
          end).
  reflexivity.
Qed.

Lemma escapeHtml_cons (a : ascii) (s : string) :
  escapeHtml (String a s) = escapeChar a ++ escapeHtml s.
Proof.
  change (String a s) with (String a EmptyString ++ s).
  now rewrite escapeHtml_append, escapeHtml_char.
Qed.

Lemma occurs_append (c : ascii) (s t : string) :
  occurs c (s ++ t) = occurs c s || occurs c t.
Proof.
  induction s as [|a s IH]; cbn [append occurs]; [reflexivity|].
  now rewrite IH, orb_assoc.
Qed.

Lemma escapeChar_inj (c d : ascii) (s t : string) :
  escapeChar c ++ s = escapeChar d ++ t -> c = d /\ s = t.
Proof.
  unfold escapeChar.
  special_cases c; special_cases d; cbn [append]; intros H;
    try discriminate H;
    injection H; intros; subst;
    try match goal with
        | Q : Ascii.eqb ?u ?u = false |- _ => rewrite Ascii.eqb_refl in Q; discriminate Q
        end;
    auto.
Qed.

(** X12. [escapeHtml] replaces character by character: the five replacements
    in a row amount to mapping [&], [<], [>], the double quote and the single
    quote to their entities and every other character to itself, the
    ampersands of the entities not being escaped again.  The result holds no
    [<], [>], double quote or single quote; a text without the five
    characters is returned unchanged; different texts have different
    escapes. *)
Theorem escapeHtml_spec (unsafe : string) :
  (forall a s, escapeHtml (String a s) = escapeChar a ++ escapeHtml s)
  /\ occurs "<" (escapeHtml unsafe) = false
  /\ occurs ">" (escapeHtml unsafe) = false
  /\ occurs doubleQuote (escapeHtml unsafe) = false
  /\ occurs "'" (escapeHtml unsafe) = false
  /\ (occurs "&" unsafe = false -> occurs "<" unsafe = false -> occurs ">" unsafe = false ->
      occurs doubleQuote unsafe = false -> occurs "'" unsafe = false ->
      escapeHtml unsafe = unsafe)
  /\ (forall other, escapeHtml unsafe = escapeHtml other -> unsafe = other).
Proof.
  split; [exact escapeHtml_cons|].
  assert (O : forall c, c = "<"%char \/ c = ">"%char \/ c = doubleQuote \/ c = "'"%char ->
                        forall s, occurs c (escapeHtml s) = false).
  { intros c Hc. induction s as [|a s IH]; [reflexivity|].
    rewrite escapeHtml_cons, occurs_append, IH, orb_false_r.
    unfold escapeChar. special_cases a;
      try (destruct Hc as [->|[->|[->| ->]]]; reflexivity).
    cbn [occurs]. rewrite orb_false_r.
    destruct Hc as [->|[->|[->| ->]]]; assumption. }
  split; [apply O; auto|]. split; [apply O; auto|]. split; [apply O; auto|].
  split; [apply O; auto|]. split.
  - induction unsafe as [|a s IH]; [reflexivity|]. cbn [occurs].
    intros H1 H2 H3 H4 H5.
    apply orb_false_iff in H1 as (A1 & H1), H2 as (A2 & H2), H3 as (A3 & H3),
        H4 as (A4 & H4), H5 as (A5 & H5).
    rewrite escapeHtml_cons, IH by assumption.
    unfold escapeChar. now rewrite A1, A2, A3, A4, A5.
  - induction unsafe as [|a s IH]; intros [|b t] H.
    + reflexivity.
    + exfalso. rewrite escapeHtml_cons in H. change (escapeHtml "") with "" in H.
      unfold escapeChar in H. special_cases b; discriminate H.
    + exfalso. rewrite escapeHtml_cons in H. change (escapeHtml "") with "" in H.
      unfold escapeChar in H. special_cases a; discriminate H.
    + rewrite !escapeHtml_cons in H. apply escapeChar_inj in H as (-> & H).
      f_equal. now apply IH.
Qed.

(** ** The timers of the message engine *)

Lemma mapSet_same_image {A B : Type} (f : string * A -> B) (m : Map A) (k : string) (a a' : A) :
  mapGet m k = Some a -> (forall j, f (j, a') = f (j, a)) ->
  map f (mapSet m k a') = map f m.
Proof.
  unfold mapGet. intros G F. induction m as [|[j b] m IH]; cbn [mapSet assoc map] in *;
    [discriminate|].
  destruct (j =? k) eqn:E; cbn [map].
  - assert (Eb : b = a) by congruence. subst b. now rewrite F.
  - now rewrite IH.
Qed.

Lemma receiveMessage_deliveries (ed : editor) (n : node) (m : message) (now : string)
      (d : delivery) :
  In d (snd (receiveMessage ed n m now)) -> d_message d = m.
Proof.
  unfold receiveMessage.
  repeat (match goal with |- context [if ?b then _ else _] => destruct b end);
    cbn [snd]; try (intros []).
  unfold executeFunctionNode. rewrite message_eta. intros H.
  apply sendMessage_In in H as (l & t & _ & _ & _ & ->). reflexivity.
Qed.

Lemma deliver_frame (ed : editor) (d : delivery) (now : string) :
  let r := deliver ed d now in
  links (fst r) = links ed
  /\ map fst (nodes (fst r)) = map fst (nodes ed)
  /\ map nodeDataOf (mapValues (nodes (fst r))) = map nodeDataOf (mapValues (nodes ed))
  /\ nodeCounter (fst r) = nodeCounter ed /\ linkCounter (fst r) = linkCounter ed
  /\ selectedNode (fst r) = selectedNode ed /\ selectedLink (fst r) = selectedLink ed
  /\ forall d', In d' (snd r) -> d_message d' = d_message d.
Proof.
  cbv zeta. unfold deliver. destruct (mapGet (nodes ed) (d_target d)) as [n|] eqn:G;
    cbn [fst snd].
  - destruct (receiveMessage_frame ed n (d_message d) now) as (T & C & X & Y & _).
    pose proof (receiveMessage_node_id ed n (d_message d) now) as I.
    cbn [links nodes withNodes nodeCounter linkCounter selectedNode selectedLink].
    split; [reflexivity|]. split.
    { apply (mapSet_same_image fst _ _ n); auto. }
    split.
    { unfold mapValues. rewrite !map_map.
      apply (mapSet_same_image (fun kv => nodeDataOf (snd kv)) _ _ n); auto.
      intros j. cbn [snd]. unfold nodeDataOf. now rewrite T, C, X, Y, I. }
    repeat (split; [reflexivity|]).
    intros d'. apply receiveMessage_deliveries.
  - repeat (split; [reflexivity|]). intros d' [].
Qed.

(** X13. Message traffic leaves the flow as it is: after any number of timer
    firings, from any state and any queue of pending deliveries, the links,
    the node ids and their order, the types, positions and configurations,
    the counters and the selection are unchanged, so that [exportFlow] writes
    the same text; and every delivery still pending carries a message that
    was pending at the start (handlers forward messages, they never alter or
    create one). *)
Theorem runTimers_conserves (clock : nat -> string) (fuel : nat) :
  forall (tick : nat) (ed : editor) (pending : list delivery),
    let r := runTimers clock tick fuel ed pending in
    exportFlow (fst r) = exportFlow ed
    /\ links (fst r) = links ed
    /\ map fst (nodes (fst r)) = map fst (nodes ed)
    /\ nodeCounter (fst r) = nodeCounter ed /\ linkCounter (fst r) = linkCounter ed
    /\ selectedNode (fst r) = selectedNode ed /\ selectedLink (fst r) = selectedLink ed
    /\ forall d, In d (snd r) -> exists d0, In d0 pending /\ d_message d = d_message d0.
Proof.
  assert (G : forall tick ed pending,
             let r := runTimers clock tick fuel ed pending in
             map nodeDataOf (mapValues (nodes (fst r))) = map nodeDataOf (mapValues (nodes ed))
             /\ links (fst r) = links ed
             /\ map fst (nodes (fst r)) = map fst (nodes ed)
             /\ nodeCounter (fst r) = nodeCounter ed /\ linkCounter (fst r) = linkCounter ed
             /\ selectedNode (fst r) = selectedNode ed /\ selectedLink (fst r) = selectedLink ed
             /\ forall d, In d (snd r) -> exists d0, In d0 pending /\ d_message d = d_message d0).
  { induction fuel as [|fuel IH]; intros tick ed pending; cbn [runTimers].
    - cbn [fst snd]. repeat (split; [reflexivity|]). intros d H. now exists d.
    - destruct pending as [|d0 rest].
      + cbn [fst snd]. repeat (split; [reflexivity|]). intros d [].
      + cbv zeta.
        destruct (deliver_frame ed d0 (clock tick)) as (L & K & N & Cn & Cl & Sn & Sl & M).
        destruct (IH (S tick) (fst (deliver ed d0 (clock tick)))
                     (rest ++ snd (deliver ed d0 (clock tick)))%list)
          as (N' & L' & K' & Cn' & Cl' & Sn' & Sl' & M').
        split; [congruence|]. split; [congruence|]. split; [congruence|].
        split; [congruence|]. split; [congruence|]. split; [congruence|].
        split; [congruence|].
        intros d H. destruct (M' d H) as (d1 & H1 & E1). apply in_app_or in H1 as [H1|H1].
        * exists d1. split; [now right | exact E1].
        * exists d0. split; [now left|]. rewrite E1. now apply M. }
  intros tick ed pending. destruct (G tick ed pending) as (N & L & K & R). cbv zeta.
  split; [|split; [exact L|split; [exact K|exact R]]].
  unfold exportFlow, JSON_stringify.
  change (fun n : node => {| nd_id := node_id n; nd_type := type n; nd_x := x n;
                             nd_y := y n; nd_config := config n |}) with nodeDataOf.
  now rewrite N, L.
Qed.

Lemma withNodes_same (ed : editor) : withNodes ed (nodes ed) = ed.
Proof. destruct ed; reflexivity. Qed.

Lemma deliver_functionLoop (ed : editor) (d : delivery) (now : string) :
  functionLoop ed -> alongLinks ed [d] ->
  fst (deliver ed d now) = ed
  /\ snd (deliver ed d now) <> []
  /\ alongLinks ed (snd (deliver ed d now)).
Proof.
  intros F A. destruct (A d (or_introl eq_refl)) as (l & Hl & El).
  destruct (F l Hl) as (n & G & I & T & l' & Hl' & Sl').
  unfold deliver. rewrite El, G. unfold receiveMessage. rewrite T.
  cbn [String.eqb Ascii.eqb Bool.eqb fst snd].
  split; [|split].
  - rewrite (mapGet_mapSet_eq _ _ _ G). apply withNodes_same.
  - destruct (F l' Hl') as (t & Gt & _).
    assert (H : In {| d_target := node_id t;
                      d_message := {| payload := payload (d_message d);
                                      topic := topic (d_message d);
                                      timestamp := timestamp (d_message d);
                                      source := source (d_message d);
                                      _msgid := _msgid (d_message d) |};
                      d_link := link_id l' |}
                   (executeFunctionNode ed n (d_message d))).
    { unfold executeFunctionNode, sendMessage. apply in_flat_map. exists l'. split.
      - apply filter_In. split; [exact Hl'|]. rewrite Sl', I. apply String.eqb_refl.
      - rewrite Gt. now left. }
    intros E. rewrite E in H. destruct H.
  - intros d' H. unfold executeFunctionNode in H.
    apply sendMessage_In in H as (l2 & t & Hl2 & _ & Gt & ->). cbn [d_target].
    exists l2. split; [exact Hl2|].
    destruct (F l2 Hl2) as (t' & Gt' & It' & _). congruence.
Qed.

(** X14. A message caught in a circle of function nodes never stops: when
    every link ends at a stored function node that has an outgoing link and
    the pending deliveries travel along links, then after any number of timer
    firings the queue is at least as long as at the start and the store is
    unchanged.  There is no hop limit in [sendMessage] or [receiveMessage]. *)
Theorem function_loop_never_drains (clock : nat -> string) (fuel : nat) :
  forall (tick : nat) (ed : editor) (pending : list delivery),
    functionLoop ed -> alongLinks ed pending ->
    let r := runTimers clock tick fuel ed pending in
    fst r = ed
    /\ (List.length pending <= List.length (snd r))%nat
    /\ alongLinks ed (snd r).
Proof.
  induction fuel as [|fuel IH]; intros tick ed pending F A; cbn [runTimers].
  - cbn [fst snd]. auto.
  - destruct pending as [|d rest]; [cbn [fst snd List.length]; auto|]. cbv zeta.
    destruct (deliver_functionLoop ed d (clock tick) F) as (E & N & A').
    { intros d' [<-|[]]. apply A. now left. }
    rewrite E.
    destruct (IH (S tick) ed (rest ++ snd (deliver ed d (clock tick)))%list F)
      as (E' & L' & A'').
    { intros d' H. apply in_app_or in H as [H|H]; [apply A; now right | now apply A']. }
    split; [exact E'|]. split; [|exact A''].
    rewrite length_app in L'. cbn [List.length].
    destruct (snd (deliver ed d (clock tick))); [now destruct N | cbn [List.length] in L'; lia].
Qed.

Lemma function_loop_never_drains_witness :
  let pending := match mapGet (nodes loopFlow) "node_1" with
                 | Some n => executeExampleDataNode loopFlow n (Some (VStr "hello")) "now"
                 | None => []
                 end in
  (1 <= List.length (snd (runTimers (fun _ => "now") 0 1000 loopFlow pending)))%nat.
Proof.
  cbv zeta.
  match goal with
  | |- (_ <= List.length (snd (runTimers ?c 0 1000 loopFlow ?p)))%nat =>
      refine (proj1 (proj2 (function_loop_never_drains c 1000 0 loopFlow p _ _)))
  end.
  - intros l H. vm_compute in H.
    destruct H as [<-|[<-|[<-|[]]]]; cbn [link_target];
      (eexists; split; [vm_compute; reflexivity|]; split; [reflexivity|];
       split; [reflexivity|]).
    + eexists. split; [right; left; reflexivity | reflexivity].
    + eexists. split; [right; right; left; reflexivity | reflexivity].
    + eexists. split; [right; left; reflexivity | reflexivity].
  - intros d H. vm_compute in H. destruct H as [<-|[]]. cbn [d_target].
    eexists. split; [left; reflexivity | reflexivity].
Defined.

(** ** Executing a node by a click *)

Lemma sendMessage_fan_out (ed : editor) (n : node) (m : message) :
  wellFormed ed -> linkEndpointsPresent ed ->
  sendMessage ed n m = map (deliveryAlong m) (outgoingLinks ed n).
Proof.
  intros ((Nn & Hn) & _) P. unfold sendMessage, outgoingLinks.
  assert (G : forall ls, (forall l, In l ls -> In l (mapValues (links ed))) ->
              flat_map (fun l => match mapGet (nodes ed) (link_target l) with
                                 | Some targetNode =>
                                     [{| d_target := node_id targetNode; d_message := m;
                                         d_link := link_id l |}]
                                 | None => []
                                 end) ls
              = map (deliveryAlong m) ls).
  { induction ls as [|l ls IH]; intros H; cbn [flat_map map]; [reflexivity|].
    rewrite IH by (intros l' Hl'; apply H; now right).
    destruct (P l (H l (or_introl eq_refl))) as (_ & Pt).
    apply mapHas_In in Pt as (t & Ht).
    destruct (Hn _ _ Ht) as (I & _).
    assert (Gt : mapGet (nodes ed) (link_target l) = Some t).
    { destruct (mapGet (nodes ed) (link_target l)) as [t'|] eqn:Q.
      - apply mapGet_In in Q. f_equal.
        now apply (NoDup_keys_functional (nodes ed) (link_target l)).
      - exfalso. apply In_mapHas in Ht. unfold mapHas in Ht. now rewrite Q in Ht. }
    rewrite Gt. unfold deliveryAlong. now rewrite I. }
  apply G. intros l H. now apply filter_In in H.
Qed.

(** X15. A click on a node executes it only if it is an exampleData node: on
    a node of any other type, networkDataSim included, and after a drag,
    nothing is scheduled.  On an exampleData node of a session whose links
    all join stored nodes the click schedules, for each outgoing link in
    order, one delivery of the message built from the payload (topic: the
    configured name or 'exampleData', source: the node id), and after these,
    again for each outgoing link, one delivery of a network-simulation
    message; [sendMessage] in general schedules exactly one delivery per
    outgoing link, to the link's target. *)
Theorem click_executes_example_data_only (es : list event) (n : node)
        (p q : value) (now now' msgid : string) :
  let ed := handleAll newEditor es in
  linkEndpointsPresent ed ->
  (forall m, sendMessage ed n m = map (deliveryAlong m) (outgoingLinks ed n))
  /\ (type n = "exampleData" ->
      onCanvasMouseUp ed (Some (n, false)) (Some p) (Some q) now now' msgid
      = (map (deliveryAlong {| payload := p;
                               topic := js_or (cfg n "name") (VStr "exampleData");
                               timestamp := now; source := Some (node_id n);
                               _msgid := None |}) (outgoingLinks ed n)
           ++ map (deliveryAlong {| payload := q; topic := VStr "network-simulation";
                                    timestamp := now'; source := None;
                                    _msgid := Some msgid |}) (outgoingLinks ed n))%list)
  /\ (type n <> "exampleData" ->
      forall parsed networkData,
        onCanvasMouseUp ed (Some (n, false)) parsed networkData now now' msgid = [])
  /\ (forall parsed networkData,
        onCanvasMouseUp ed (Some (n, true)) parsed networkData now now' msgid = []).
Proof.
  intros ed P.
  assert (W : wellFormed ed) by apply handleAll_wellFormed, newEditor_wellFormed.
  split; [|split; [|split]].
  - intros m. now apply sendMessage_fan_out.
  - intros T. unfold onCanvasMouseUp, executeNode. rewrite T.
    cbn [negb andb orb String.eqb Ascii.eqb Bool.eqb].
    unfold executeExampleDataNode, executeNetworkDataSimNode.
    now rewrite !sendMessage_fan_out.
  - intros T parsed networkData. unfold onCanvasMouseUp, executeNode.
    destruct (type n =? "exampleData") eqn:E; [apply String.eqb_eq in E; contradiction|].
    now destruct (negb false && (false || (type n =? "networkDataSim"))).
  - reflexivity.
Qed.

Lemma click_executes_example_data_only_witness :
  let es := [ Store (CreateNode "exampleData" 0 0
                       [("dataType", VStr "string"); ("payload", VStr "hello")]);
              Store (CreateNode "function" 200 0 []);
              Store (CreateNode "debug" 400 0 []);
              Store (PortMouseDown "node_1" OutputPort 0);
              Store (ConnectionMouseUp (Some ("node_2", 0%nat)));
              Store (PortMouseDown "node_1" OutputPort 0);
              Store (ConnectionMouseUp (Some ("node_3", 0%nat))) ] in
  let source := {| node_id := "node_1"; type := "exampleData"; x := 0; y := 0;
                   width := 120; height := 40;
                   config := [("name", VStr ""); ("dataType", VStr "string");
                              ("payload", VStr "hello")];
                   inputs := Some 0; outputs := Some 1;
                   debugOutputs := None; accumulatedData := None; networkData := None |} in
  map d_target (onCanvasMouseUp (handleAll newEditor es) (Some (source, false))
                  (Some (VStr "hello")) (Some (VObj [])) "t1" "t2" "id")
  = ["node_2"; "node_3"; "node_2"; "node_3"].
Proof.
  cbv zeta.
  match goal with
  | |- map d_target (onCanvasMouseUp (handleAll newEditor ?es) (Some (?n, false))
                       (Some ?p) (Some ?q) ?a ?b ?c) = _ =>
      assert (P : linkEndpointsPresent (handleAll newEditor es));
      [ intros l Hl; vm_compute in Hl; destruct Hl as [<-|[<-|[]]]; vm_compute; auto
      | rewrite (proj1 (proj2 (click_executes_example_data_only es n p q a b c P)) eq_refl) ]
  end.
  vm_compute. reflexivity.
Defined.

(** ** Graph visualisation nodes: duplicates *)

Lemma ForallOrdPairs_snoc {A : Type} (R : A -> A -> Prop) (l : list A) (x : A) :
  ForallOrdPairs R l -> Forall (fun a => R a x) l -> ForallOrdPairs R (l ++ [x]).
Proof.
  induction 1 as [|a l Ha Hl IH]; intros F; cbn [app].
  - repeat constructor.
  - inversion F as [|? ? Fa Fl]; subst. constructor; [|auto].
    apply Forall_app. split; [exact Ha | repeat constructor; exact Fa].
Qed.

Lemma existsb_false_Forall {A : Type} (f : A -> bool) (l : list A) :
  existsb f l = false -> Forall (fun a => f a = false) l.
Proof.
  induction l as [|a l IH]; cbn [existsb]; [constructor|].
  intros H. apply orb_false_iff in H as (Ha & Hl). constructor; auto.
Qed.

Lemma pushNode_distinct (g : networkGraph) (gn : gvNode) :
  nodesDistinct g /\ edgesDistinct g -> hasNode g (gn_id gn) = false ->
  nodesDistinct (pushNode g gn) /\ edgesDistinct (pushNode g gn).
Proof.
  intros (N & E) H. split; [|exact E]. unfold nodesDistinct, pushNode. cbn [ng_nodes].
  apply ForallOrdPairs_snoc; [exact N|]. now apply existsb_false_Forall in H.
Qed.

Lemma pushEdge_distinct (g : networkGraph) (e : gvEdge) :
  nodesDistinct g /\ edgesDistinct g -> hasEdge g (ge_source e) (ge_target e) = false ->
  nodesDistinct (pushEdge g e) /\ edgesDistinct (pushEdge g e).
Proof.
  intros (N & E) H. split; [exact N|]. unfold edgesDistinct, pushEdge. cbn [ng_edges].
  apply ForallOrdPairs_snoc; [exact E|]. now apply existsb_false_Forall in H.
Qed.

Lemma ensureNode_distinct (f : string) (g : networkGraph) (id : value) :
  nodesDistinct g /\ edgesDistinct g ->
  nodesDistinct (ensureNode f g id) /\ edgesDistinct (ensureNode f g id).
Proof.
  intros D. unfold ensureNode. destruct (hasNode g id) eqn:H; [exact D|].
  now apply pushNode_distinct.
Qed.

Lemma arrayConnection_distinct (f key : string) (nodeId : value) (g : networkGraph) (v : value) :
  nodesDistinct g /\ edgesDistinct g ->
  nodesDistinct (arrayConnection f key nodeId g v)
  /\ edgesDistinct (arrayConnection f key nodeId g v).
Proof.
  intros D. unfold arrayConnection.
  destruct v; try exact D;
    (destruct (truthy nodeId && negb _); [|exact D]);
    (match goal with |- context [hasEdge ?a ?b ?c] => destruct (hasEdge a b c) eqn:H end;
     [exact D|]);
    apply ensureNode_distinct;
    (match goal with |- context [pushEdge _ ?e] => apply (pushEdge_distinct g e) end);
    assumption.
Qed.

Lemma processDataItem_distinct (g : networkGraph) (item : value) (fi fl fs ft : string) :
  nodesDistinct g /\ edgesDistinct g ->
  nodesDistinct (processDataItem g item fi fl fs ft)
  /\ edgesDistinct (processDataItem g item fi fl fs ft).
Proof.
  intros D. unfold processDataItem.
  set (nodeId := prop item fi). set (sourceId := prop item fs). set (targetId := prop item ft).
  set (g1 := if truthy nodeId then _ else g).
  assert (D1 : nodesDistinct g1 /\ edgesDistinct g1).
  { subst g1. destruct (truthy nodeId); [|exact D].
    destruct (hasNode g nodeId) eqn:H; [exact D|]. now apply pushNode_distinct. }
  set (g2 := if truthy sourceId && truthy targetId then _ else g1).
  assert (D2 : nodesDistinct g2 /\ edgesDistinct g2).
  { subst g2. destruct (truthy sourceId && truthy targetId); [|exact D1].
    destruct (hasEdge g1 sourceId targetId) eqn:H; [exact D1|].
    cbn [fold_left]. do 2 apply ensureNode_distinct.
    now apply (pushEdge_distinct g1
                 {| ge_source := sourceId; ge_target := targetId; ge_originalData := item |}). }
  clearbody g2. clear D1 g1 D.
  generalize (objectKeys item). intros keys. revert g2 D2.
  induction keys as [|key keys IH]; intros g' D'; cbn [fold_left]; [exact D'|].
  apply IH. destruct (prop item key); try exact D'.
  clear IH. revert g' D'. induction items as [|v vs IHv]; intros g' D'; cbn [fold_left];
    [exact D'|].
  apply IHv. now apply arrayConnection_distinct.
Qed.

(** X16. For a payload that is an array of items, or a single item (an object
    without both [nodes] and [edges]), or no object at all, the mini-graph a
    graphViz node builds holds no two nodes with the same id and no two edges
    with the same source and target: every push is guarded by a [find]. *)
Theorem graphViz_no_duplicates (n : node) (m : message) :
  isArray (payload m) = true
  \/ truthy (prop (payload m) "nodes") && truthy (prop (payload m) "edges") = false ->
  exists g, networkData (executeGraphVizNode n m) = Some g
            /\ nodesDistinct g /\ edgesDistinct g.
Proof.
  intros H. exists (processNetworkData n (payload m)).
  split; [apply executeGraphVizNode_networkData|].
  assert (D0 : nodesDistinct emptyGraph /\ edgesDistinct emptyGraph)
    by (split; constructor).
  unfold processNetworkData. destruct (payload m) as [ | |b|z|s|items|fields]; try exact D0.
  - generalize dependent emptyGraph. clear H.
    induction items as [|item items IH]; intros g D; cbn [fold_left]; [exact D|].
    apply IH. destruct (isObject item); [now apply processDataItem_distinct | exact D].
  - destruct H as [H|H]; [discriminate|]. rewrite H.
    now apply processDataItem_distinct.
Qed.

Lemma graphViz_no_duplicates_witness :
  let m := itemsMessage [ VObj [("id", VStr "a"); ("friends", VArr [VStr "b"; VStr "b"])];
                          VObj [("id", VStr "a"); ("source", VStr "a"); ("target", VStr "b")];
                          VObj [("id", VStr "b")] ] in
  exists g, networkData (executeGraphVizNode graphNode0 m) = Some g
            /\ map gn_id (ng_nodes g) = [VStr "a"; VStr "b"]
            /\ List.length (ng_edges g) = 1%nat
            /\ nodesDistinct g /\ edgesDistinct g.
Proof.
  cbv zeta.
  match goal with
  | |- exists g, networkData (executeGraphVizNode ?n ?m) = _ /\ _ =>
      destruct (graphViz_no_duplicates n m (or_introl eq_refl)) as (g & E & D)
  end.
  exists g. split; [exact E|].
  vm_compute in E. injection E as <-. cbn [ng_nodes ng_edges map List.length gn_id].
  split; [reflexivity|]. split; [reflexivity|]. exact D.
Defined.

Lemma getProp_defined (v : value) (key : string) :
  v <> VUndefined -> v <> VNull -> exists u, getProp v key = Some u.
Proof. destruct v; cbn [getProp]; intros A B; try congruence; eexists; reflexivity. Qed.

Lemma mapThrowing_total {A B : Type} (f : A -> option B) (l : list A) :
  (forall a, In a l -> exists b, f a = Some b) -> exists bs, mapThrowing f l = Some bs.
Proof.
  induction l as [|a l IH]; intros H; cbn [mapThrowing]; [now exists []|].
  destruct (H a (or_introl eq_refl)) as (b & ->).
  destruct IH as (bs & ->); [intros c Hc; apply H; now right|]. now exists (b :: bs).
Qed.

Lemma mapThrowing_fails {A B : Type} (f : A -> option B) (l : list A) (a : A) :
  In a l -> f a = None -> mapThrowing f l = None.
Proof.
  induction l as [|c l IH]; intros H E; [destruct H|]. cbn [mapThrowing].
  destruct H as [->|H].
  - now rewrite E.
  - destruct (f c); [|reflexivity]. now rewrite IH.
Qed.

Lemma Forall2_map_back {A B : Type} (f : A -> option B) (back : B -> A) (l : list A) (bs : list B) :
  (forall a b, f a = Some b -> back b = a) ->
  Forall2 (fun a b => f a = Some b) l bs -> map back bs = l.
Proof. intros H. induction 1; cbn [map]; [reflexivity|]. f_equal; auto. Qed.

(** X17. A payload object whose [nodes] and [edges] are arrays is copied
    into the mini-graph entry by entry, in order and without any check for
    duplicates, when no entry is [null] or [undefined].  A [null] or
    [undefined] entry among the nodes makes the handler throw and leaves the
    mini-graph empty; one among the edges leaves the nodes copied and no
    edge. *)
Theorem graphViz_prestructured (n : node) (m : message)
        (fields : list (string * value)) (ns es : list value) :
  payload m = VObj fields ->
  assoc "nodes" fields = Some (VArr ns) ->
  assoc "edges" fields = Some (VArr es) ->
  let g := processNetworkData n (payload m) in
  let absent (v : value) := v = VUndefined \/ v = VNull in
  networkData (executeGraphVizNode n m) = Some g
  /\ ((exists v, In v ns /\ absent v) -> g = emptyGraph)
  /\ ((forall v, In v ns -> ~ absent v) ->
      map gn_originalData (ng_nodes g) = ns
      /\ ((exists e, In e es /\ absent e) -> ng_edges g = [])
      /\ ((forall e, In e es -> ~ absent e) -> map ge_originalData (ng_edges g) = es)).
Proof.
  intros P Ns Es g absent. split; [apply executeGraphVizNode_networkData|].
  subst g. unfold processNetworkData. rewrite P. unfold prop. cbn [getProp].
  rewrite Ns, Es. cbn [truthy andb].
  set (mkNode := fun v : value => match getProp v _, getProp v _, getProp v "name", getProp v "id"
                                  with
                                  | Some byField, Some byLabel, Some name, Some id => _
                                  | _, _, _, _ => None
                                  end).
  set (mkEdge := fun e : value => match getProp e _, getProp e _, getProp e "source",
                                        getProp e "target" with
                                  | Some s, Some t, Some s', Some t' => _
                                  | _, _, _, _ => None
                                  end).
  assert (Fn : forall v, absent v -> mkNode v = None)
    by (intros v [-> | ->]; reflexivity).
  assert (Fe : forall v, absent v -> mkEdge v = None)
    by (intros v [-> | ->]; reflexivity).
  assert (Tn : forall v, ~ absent v -> exists b, mkNode v = Some b /\ gn_originalData b = v).
  { intros v A. subst mkNode. cbv beta.
    assert (U : v <> VUndefined) by (intros ->; apply A; now left).
    assert (N : v <> VNull) by (intros ->; apply A; now right).
    repeat match goal with
           | |- context [getProp v ?k] =>
               let u := fresh "u" in
               destruct (getProp_defined v k U N) as (u & ->)
           end.
    eexists. split; reflexivity. }
  assert (Te : forall v, ~ absent v -> exists b, mkEdge v = Some b /\ ge_originalData b = v).
  { intros v A. subst mkEdge. cbv beta.
    assert (U : v <> VUndefined) by (intros ->; apply A; now left).
    assert (N : v <> VNull) by (intros ->; apply A; now right).
    repeat match goal with
           | |- context [getProp v ?k] =>
               let u := fresh "u" in
               destruct (getProp_defined v k U N) as (u & ->)
           end.
    eexists. split; reflexivity. }
  assert (Kn : forall a b, mkNode a = Some b -> gn_originalData b = a).
  { intros a b. subst mkNode. cbv beta.
    repeat match goal with
           | |- context [getProp a ?k] => destruct (getProp a k)
           end; try discriminate; intros [= <-]; reflexivity. }
  assert (Ke : forall a b, mkEdge a = Some b -> ge_originalData b = a).
  { intros a b. subst mkEdge. cbv beta.
    repeat match goal with
           | |- context [getProp a ?k] => destruct (getProp a k)
           end; try discriminate; intros [= <-]; reflexivity. }
  split.
  - intros (v & Hv & A). now rewrite (mapThrowing_fails mkNode ns v Hv (Fn v A)).
  - intros A.
    destruct (mapThrowing_total mkNode ns) as (gns & Mn).
    { intros v Hv. destruct (Tn v (A v Hv)) as (b & E & _). now exists b. }
    rewrite Mn.
    assert (Bn : map gn_originalData gns = ns).
    { apply (Forall2_map_back mkNode); [exact Kn | now apply mapThrowing_Some]. }
    split; [|split].
    + destruct (mapThrowing mkEdge es); exact Bn.
    + intros (e & He & Ae). now rewrite (mapThrowing_fails mkEdge es e He (Fe e Ae)).
    + intros Ae.
      destruct (mapThrowing_total mkEdge es) as (ges & Me).
      { intros v Hv. destruct (Te v (Ae v Hv)) as (b & E & _). now exists b. }
      rewrite Me. cbn [ng_edges].
      apply (Forall2_map_back mkEdge); [exact Ke | now apply mapThrowing_Some].
Qed.

Lemma graphViz_prestructured_witness :
  let ns := [VObj [("id", VNum 1)]; VObj [("id", VNum 1)]] in
  let m := {| payload := VObj [("nodes", VArr ns); ("edges", VArr [VNull])];
              topic := VStr "network-simulation"; timestamp := "0";
              source := None; _msgid := Some "id" |} in
  map gn_originalData (ng_nodes (processNetworkData graphNode0 (payload m))) = ns
  /\ ng_edges (processNetworkData graphNode0 (payload m)) = [].
Proof.
  cbv zeta.
  match goal with
  | |- map _ (ng_nodes (processNetworkData ?n (payload ?m))) = ?ns /\ _ =>
      destruct (graphViz_prestructured n m
                  [("nodes", VArr ns); ("edges", VArr [VNull])] ns [VNull]
                  eq_refl eq_refl eq_refl) as (_ & _ & H)
  end.
  destruct H as (A & B & _).
  - intros v [<-|[<-|[]]] [Q|Q]; discriminate Q.
  - split; [exact A|]. apply B. exists VNull. split; [now left | now right].
Defined.

(** ** The generated network as a graph *)

Lemma simNodes_ids_NoDup (networkType : string) (nodeCount : nat) :
  NoDup (map sn_id (simNodes networkType nodeCount)).
Proof.
  unfold simNodes. rewrite map_map.
  generalize (seq_NoDup nodeCount 0). generalize (seq 0 nodeCount). intros l N.
  induction N as [|i l Hi N IH]; cbn [map]; constructor; [|exact IH].
  intros H. apply in_map_iff in H as (j & E & Hj). apply sn_id_inj in E. now subst j.
Qed.

Lemma simNodes_id_In (networkType : string) (nodeCount i : nat) :
  (i < nodeCount)%nat ->
  In (sn_id (simNodeAt networkType i)) (map sn_id (simNodes networkType nodeCount)).
Proof.
  intros H. apply in_map. unfold simNodes. apply in_map. apply in_seq. lia.
Qed.

(** X18. With draws in range and a target number of links in the range of
    the loop counters, the generated network is a graph on its own nodes:
    the node ids are pairwise distinct, both ends of every edge are ids of
    generated nodes, and the metadata count the nodes and the edges; with
    fewer than two nodes or a connectivity of 0 there is no edge. *)
Theorem generateNetworkData_graph (rnd : nat -> nat) (networkType : string)
        (nodeCount : nat) (connectivity : spec_float) (target : nat) :
  (forall k, (0 < nodeCount)%nat -> (rnd k < nodeCount)%nat) ->
  rounds (targetLinkCount nodeCount connectivity) = Some target ->
  exists d,
    generateNetworkData rnd networkType nodeCount connectivity = Some d
    /\ NoDup (map sn_id (sim_nodes d))
    /\ (forall e, In e (sim_edges d) ->
          In (se_source e) (map sn_id (sim_nodes d))
          /\ In (se_target e) (map sn_id (sim_nodes d)))
    /\ md_nodeCount (sim_metadata d) = List.length (sim_nodes d)
    /\ md_linkCount (sim_metadata d) = List.length (sim_edges d)
    /\ ((nodeCount <= 1)%nat \/ (exists s, connectivity = S754_zero s) -> sim_edges d = []).
Proof.
  intros Rng T.
  destruct (generateNetworkDataLog_run rnd networkType nodeCount connectivity target Rng T)
    as (edges & used' & logged & E & [R N] & L & _).
  eexists. split; [unfold generateNetworkData; rewrite E; reflexivity|].
  cbn [sim_nodes sim_edges sim_metadata md_nodeCount md_linkCount].
  split; [apply simNodes_ids_NoDup|]. split; [|split; [|split]].
  - intros e Hin. destruct (R e Hin) as (s & t & Hs & Ht & _ & -> & _).
    cbn [edgeBetween se_source se_target]. split; now apply simNodes_id_In.
  - symmetry. apply simNodes_length.
  - reflexivity.
  - intros Z0.
    assert (T0 : rounds (targetLinkCount nodeCount connectivity) = Some 0%nat).
    { destruct Z0 as [Z0|[s ->]];
        [now apply rounds_few_nodes | apply rounds_zero_connectivity]. }
    rewrite T0 in T. injection T as <-.
    destruct edges; [reflexivity | cbn in L; lia].
Qed.

Lemma generateNetworkData_graph_witness :
  exists d,
    generateNetworkData sampleDraws "technical" 8 (ratio 3 10) = Some d
    /\ NoDup (map sn_id (sim_nodes d))
    /\ (forall e, In e (sim_edges d) ->
          In (se_source e) (map sn_id (sim_nodes d))
          /\ In (se_target e) (map sn_id (sim_nodes d)))
    /\ md_linkCount (sim_metadata d) = List.length (sim_edges d).
Proof.
  destruct (generateNetworkData_graph sampleDraws "technical" 8 (ratio 3 10) 8
              sampleDraws_in_range eq_refl)
    as (d & G & Nd & C & _ & Lc & _).
  exists d. repeat split; try assumption; now apply C.
Defined.

(** ** The clear buttons *)

Lemma updateNode_frame (ed : editor) (k : string) (n n' : node) :
  mapGet (nodes ed) k = Some n -> nodeDataOf n' = nodeDataOf n ->
  let ed' := withNodes ed (mapSet (nodes ed) k n') in
  exportFlow ed' = exportFlow ed
  /\ links ed' = links ed
  /\ (forall j, j <> k -> mapGet (nodes ed') j = mapGet (nodes ed) j)
  /\ mapGet (nodes ed') k = Some n'.
Proof.
  intros G D. cbv zeta. cbn [nodes links withNodes]. split; [|split; [reflexivity|split]].
  - unfold exportFlow, JSON_stringify. cbn [nodes links withNodes].
    change (fun n : node => {| nd_id := node_id n; nd_type := type n; nd_x := x n;
                               nd_y := y n; nd_config := config n |}) with nodeDataOf.
    unfold mapValues. rewrite !(map_map snd nodeDataOf).
    now rewrite (mapSet_same_image (fun kv => nodeDataOf (snd kv)) _ _ n n' G).
  - intros j N. now apply mapGet_mapSet_other.
  - apply mapGet_mapSet_same.
Qed.

(** X19. The three clear buttons.  Each leaves the links, the other nodes and
    the exported flow as they are, and does nothing for an id that is not
    stored.  [clearDebugOutput] does nothing on a node that has not recorded
    anything yet; otherwise it empties the entries, and a debug node then
    holds the entries of the messages that follow, newest first, at most 10.
    [clearTableData] empties the accumulator of any stored node, and an
    append-mode table then holds the last rows of the messages that follow
    only.  [clearNetworkData] resets the mini-graph to the empty graph. *)
Theorem clear_buttons (ed : editor) (nodeId : string)
        (ms : list (message * string)) (mt : message * string) :
  let afterDebug := clearDebugOutput ed nodeId in
  let afterTable := clearTableData ed nodeId in
  let afterNetwork := clearNetworkData ed nodeId in
  (forall ed', In ed' [afterDebug; afterTable; afterNetwork] ->
     exportFlow ed' = exportFlow ed /\ links ed' = links ed
     /\ (forall j, j <> nodeId -> mapGet (nodes ed') j = mapGet (nodes ed) j))
  /\ match mapGet (nodes ed) nodeId with
     | None => afterDebug = ed /\ afterTable = ed /\ afterNetwork = ed
     | Some n =>
         (debugOutputs n = None -> afterDebug = ed)
         /\ (debugOutputs n <> None ->
             exists n', mapGet (nodes afterDebug) nodeId = Some n'
                        /\ debugOutputs n' = Some []
                        /\ (type n = "debug" ->
                            debugOutputs (receiveAll afterDebug n' (mt :: ms))
                            = Some (firstn 10 (rev (map (entryFor n) (mt :: ms))))))
         /\ (exists n', mapGet (nodes afterTable) nodeId = Some n'
                        /\ accumulatedData n' = Some []
                        /\ (type n = "dataTable" -> truthy (cfg n "appendData") = true ->
                            forall cap, parseIntOr (cfg n "maxRows") 10 = cap -> (0 < cap)%Z ->
                            accumulatedData (receiveAll afterTable n' (mt :: ms))
                            = Some (lastn (Z.to_nat cap)
                                      (flat_map (fun mt => normalizeRows (payload (fst mt)))
                                                (mt :: ms)))))
         /\ (exists n', mapGet (nodes afterNetwork) nodeId = Some n'
                        /\ networkData n' = Some emptyGraph
                        /\ debugOutputs n' = debugOutputs n
                        /\ accumulatedData n' = accumulatedData n)
     end.
Proof.
  cbv zeta. unfold clearDebugOutput, clearTableData, clearNetworkData.
  destruct (mapGet (nodes ed) nodeId) as [n|] eqn:G.
  - pose proof (updateNode_frame ed nodeId n (setDebugOutputs n (Some [])) G eq_refl) as Fd.
    pose proof (updateNode_frame ed nodeId n (setAccumulatedData n (Some [])) G eq_refl) as Ft.
    pose proof (updateNode_frame ed nodeId n (setNetworkData n (Some emptyGraph)) G eq_refl)
      as Fn.
    cbv zeta in Fd, Ft, Fn.
    destruct Fd as (Fd1 & Fd2 & Fd3 & Fd4), Ft as (Ft1 & Ft2 & Ft3 & Ft4),
        Fn as (Fn1 & Fn2 & Fn3 & Fn4).
    split; [|split; [|split; [|split]]].
    + intros ed' [<-|[<-|[<-|[]]]]; auto.
      destruct (debugOutputs n); auto.
    + intros ->. reflexivity.
    + intros H. destruct (debugOutputs n) as [outs|] eqn:O; [|congruence].
      exists (setDebugOutputs n (Some [])). split; [exact Fd4|]. split; [reflexivity|].
      intros T.
      destruct (receiveAll_debug (withNodes ed (mapSet (nodes ed) nodeId
                                                  (setDebugOutputs n (Some []))))
                                 ms (setDebugOutputs n (Some [])) mt T) as (_ & _ & R).
      rewrite R. unfold retainedEntries. cbn [debugOutputs setDebugOutputs].
      rewrite app_nil_r. reflexivity.
    + exists (setAccumulatedData n (Some [])). split; [exact Ft4|]. split; [reflexivity|].
      intros T Ap cap E P.
      rewrite (receiveAll_dataTable_cap _ cap ms (setAccumulatedData n (Some [])) mt T Ap E P).
      reflexivity.
    + exists (setNetworkData n (Some emptyGraph)). split; [exact Fn4|]. auto.
  - split; [|auto]. intros ed' [<-|[<-|[<-|[]]]]; auto.
Qed.

(** ** Which nodes forward, and what a key or a stale listener does *)

(** X20. Only function nodes forward: a node of any other type schedules no
    delivery when it receives a message, so a message that reaches a filter,
    transform, output or sink node stops there and the timer queue drains;
    and a node whose type is none of debug, dataTable, chartNode and graphViz
    (the four types whose handlers record what they receive) is left as it
    is. *)
Theorem only_function_nodes_forward (ed : editor) (n : node) (m : message) (now : string) :
  (type n <> "function" -> snd (receiveMessage ed n m now) = [])
  /\ (type n <> "debug" -> type n <> "dataTable" -> type n <> "chartNode" ->
      type n <> "graphViz" ->
      fst (receiveMessage ed n m now) = n)
  /\ (forall clock tick fuel d,
        mapGet (nodes ed) (d_target d) = Some n -> type n <> "function" ->
        snd (runTimers clock tick (S fuel) ed [d]) = []).
Proof.
  assert (A : type n <> "function" -> forall t, snd (receiveMessage ed n m t) = []).
  { intros T t. unfold receiveMessage.
    repeat match goal with
           | |- context [type n =? ?s] =>
               let E := fresh "E" in
               destruct (type n =? s) eqn:E;
               [apply String.eqb_eq in E; try contradiction; try reflexivity|]
           end.
    reflexivity. }
  split; [intros T; now apply A|]. split.
  - intros T1 T2 T3 T4. unfold receiveMessage.
    repeat match goal with
           | |- context [type n =? ?s] =>
               let E := fresh "E" in
               destruct (type n =? s) eqn:E;
               [apply String.eqb_eq in E; try contradiction; try reflexivity|]
           end.
    reflexivity.
  - intros clock tick fuel d G T. cbn [runTimers]. cbv zeta. unfold deliver at 2.
    rewrite G. cbn [snd app].
    assert (Q : forall mm t, snd (receiveMessage ed n mm t) = []).
    { intros mm t. unfold receiveMessage.
      repeat match goal with
             | |- context [type n =? ?s] =>
                 let E := fresh "E" in
                 destruct (type n =? s) eqn:E;
                 [apply String.eqb_eq in E; try contradiction; try reflexivity|]
             end.
      reflexivity. }
    rewrite Q. destruct fuel; reflexivity.
Qed.

(** X21. A key other than Delete, Backspace and Escape changes nothing.
    Escape keeps the nodes and the links, clears the selection and ends a
    connect gesture, so that a mouse release after it creates no link.  Once
    a release has been handled by [onConnectionMouseUp], a further call of
    the handler changes nothing. *)
Theorem escape_and_stale_listeners (ed : editor) (key : string)
        (target target' : option (string * nat)) :
  (key <> "Delete" -> key <> "Backspace" -> key <> "Escape" -> onKeyDown ed key = ed)
  /\ (let ed' := onKeyDown ed "Escape" in
      nodes ed' = nodes ed /\ links ed' = links ed
      /\ selectedNode ed' = None /\ selectedLink ed' = None
      /\ isConnecting ed' = false
      /\ onConnectionMouseUp ed' target = ed')
  /\ ((isConnecting ed = true ->
       exists sourceNode port, connectionStart ed = Some (Some sourceNode, port)) ->
      onConnectionMouseUp (onConnectionMouseUp ed target) target'
      = onConnectionMouseUp ed target).
Proof.
  split; [|split].
  - intros D B E. unfold onKeyDown.
    apply String.eqb_neq in D, B, E. now rewrite D, B, E.
  - unfold onKeyDown. cbn [String.eqb Ascii.eqb Bool.eqb orb]. cbv zeta.
    destruct (isConnecting (clearSelection ed)) eqn:C.
    + repeat (split; [reflexivity|]). reflexivity.
    + repeat (split; [reflexivity|]). split; [exact C|].
      unfold onConnectionMouseUp. now rewrite C.
  - intros S.
    assert (Q : forall e, isConnecting e = false -> onConnectionMouseUp e target' = e).
    { intros e C. unfold onConnectionMouseUp. now rewrite C. }
    unfold onConnectionMouseUp at 2 3.
    destruct (isConnecting ed) eqn:C; [|now apply Q].
    destruct (S eq_refl) as (sn & sp & ->).
    destruct target as [[tid tp]|]; [|now apply Q].
    destruct (mapGet (nodes ed) tid) as [tn|]; [|now apply Q].
    destruct (negb _); now apply Q.
Qed.

(** ** Saving to and loading from the local storage *)

(** X22. Saving a flow, reloading the page and calling [loadFlow] gives an
    editor that exports the saved text again, when the node ids of the saved
    flow are node_1, node_2, ... in order and every link joins stored nodes.
    [loadFlow] does nothing when nothing is saved; when something is saved it
    reports success whatever [importFlow] did with it, also for a text that
    does not parse and leaves the editor as it was. *)
Theorem save_reload_load (es : list event) (a : appState) :
  flowEditor a = handleAll newEditor es ->
  numberedFrom 0 (map fst (nodes (flowEditor a))) ->
  linkEndpointsPresent (flowEditor a) ->
  let reloaded := loadFlow (onDOMContentLoaded (onSaveClick a)) in
  exportFlow (flowEditor reloaded) = exportFlow (flowEditor a)
  /\ savedFlow reloaded = Some (exportFlow (flowEditor a))
  /\ notifications reloaded = [("Flow loaded from local storage!", "success")]
  /\ (forall b, savedFlow b = None -> loadFlow b = b)
  /\ (forall b, savedFlow b = Some Unparsable ->
        flowEditor (loadFlow b) = flowEditor b
        /\ notifications (loadFlow b)
           = (notifications b ++ [("Flow loaded from local storage!", "success")])%list).
Proof.
  intros E Num P. cbv zeta.
  unfold loadFlow, onDOMContentLoaded, onSaveClick, showNotification, withEditor.
  cbn [savedFlow flowEditor notifications].
  split; [|split; [reflexivity|split; [reflexivity|split]]].
  - apply importFlow_of_exportFlow; auto; rewrite E.
    + apply handleAll_wellFormed, newEditor_wellFormed.
    + apply handleAll_configsClosed. intros k n [].
  - intros b ->. reflexivity.
  - intros b ->. cbn [flowEditor notifications]. split; reflexivity.
Qed.

Lemma save_reload_load_witness :
  let es := [ Store (CreateNode "exampleData" 0 0 []);
              Store (CreateNode "dataTable" 200 0 [("appendData", VBool true)]);
              Store (PortMouseDown "node_1" OutputPort 0);
              Store (ConnectionMouseUp (Some ("node_2", 0%nat)));
              Store (MoveNode "node_2" 300 40) ] in
  let a := {| flowEditor := handleAll newEditor es; savedFlow := None; notifications := [] |} in
  exportFlow (flowEditor (loadFlow (onDOMContentLoaded (onSaveClick a))))
  = exportFlow (flowEditor a).
Proof.
  cbv zeta.
  match goal with
  | |- exportFlow (flowEditor (loadFlow (onDOMContentLoaded (onSaveClick ?a)))) = _ =>
      match a with
      | {| flowEditor := handleAll newEditor ?es |} =>
          refine (proj1 (save_reload_load es a eq_refl _ _))
      end
  end.
  - vm_compute. reflexivity.
  - intros l H. vm_compute in H. destruct H as [<-|[]]. vm_compute. auto.
Defined.

(** ** Moving a node and dropping a palette entry *)

Lemma mapSet_mapSet {A : Type} (m : Map A) (k : string) (a b : A) :
  mapSet (mapSet m k a) k b = mapSet m k b.
Proof.
  induction m as [|[j c] m IH]; cbn [mapSet].
  - now rewrite String.eqb_refl.
  - destruct (j =? k) eqn:E; cbn [mapSet]; rewrite E; [reflexivity | now rewrite IH].
Qed.

(** X23. Moving a stored node changes its position and nothing else: the
    links, the keys, the other nodes, the counters and the selection stay,
    the moved node keeps its id, type, configuration and buffers, and moving
    it back to where it was gives the state before the move.  Moving a node
    that is not stored changes nothing. *)
Theorem moveNode_frame (ed : editor) (nodeId : string) (px py : Z) :
  let ed' := moveNode ed nodeId px py in
  links ed' = links ed
  /\ map fst (nodes ed') = map fst (nodes ed)
  /\ (forall j, j <> nodeId -> mapGet (nodes ed') j = mapGet (nodes ed) j)
  /\ nodeCounter ed' = nodeCounter ed /\ linkCounter ed' = linkCounter ed
  /\ selectedNode ed' = selectedNode ed /\ selectedLink ed' = selectedLink ed
  /\ match mapGet (nodes ed) nodeId with
     | None => ed' = ed
     | Some n =>
         (exists n', mapGet (nodes ed') nodeId = Some n'
                     /\ x n' = px /\ y n' = py
                     /\ node_id n' = node_id n /\ type n' = type n /\ config n' = config n
                     /\ debugOutputs n' = debugOutputs n
                     /\ accumulatedData n' = accumulatedData n
                     /\ networkData n' = networkData n)
         /\ moveNode ed' nodeId (x n) (y n) = ed
     end.
Proof.
  cbv zeta. destruct (mapGet (nodes ed) nodeId) as [n|] eqn:G.
  - set (n' := {| node_id := node_id n; type := type n; x := px; y := py;
                  width := width n; height := height n; config := config n;
                  inputs := inputs n; outputs := outputs n;
                  debugOutputs := debugOutputs n; accumulatedData := accumulatedData n;
                  networkData := networkData n |}).
    assert (E : moveNode ed nodeId px py = withNodes ed (mapSet (nodes ed) nodeId n'))
      by (unfold moveNode; now rewrite G).
    rewrite E.
    cbn [links nodes withNodes nodeCounter linkCounter selectedNode selectedLink].
    split; [reflexivity|]. split.
    { apply mapSet_keys_present. unfold mapHas. now rewrite G. }
    split; [intros j N; now apply mapGet_mapSet_other|].
    repeat (split; [reflexivity|]).
    split.
    + exists n'. split; [apply mapGet_mapSet_same|]. repeat split; reflexivity.
    + unfold moveNode. cbn [nodes withNodes]. rewrite mapGet_mapSet_same.
      cbn [n' node_id type x y width height config inputs outputs debugOutputs
           accumulatedData networkData].
      rewrite mapSet_mapSet.
      replace {| node_id := node_id n; type := type n; x := x n; y := y n;
                 width := width n; height := height n; config := config n;
                 inputs := inputs n; outputs := outputs n;
                 debugOutputs := debugOutputs n; accumulatedData := accumulatedData n;
                 networkData := networkData n |} with n by (destruct n; reflexivity).
      rewrite (mapGet_mapSet_eq _ _ _ G). destruct ed; reflexivity.
  - assert (E : moveNode ed nodeId px py = ed) by (unfold moveNode; now rewrite G).
    rewrite E. repeat (split; [reflexivity|]). reflexivity.
Qed.

(** X24. A drop on the canvas consumes a counter value only when it creates a
    node: with no type text or a type that [NODE_TYPES] does not know the
    editor is left as it is, counter included (while [createNode] called with
    such a type advances the counter and stores nothing); otherwise exactly
    one node is appended, under the next id, at the drop position, with the
    defaults of its type as configuration. *)
Theorem onCanvasDrop_creates_or_ignores (es : list event) (ty : string) (px py : Z) :
  let ed := handleAll newEditor es in
  let ed' := onCanvasDrop ed ty px py in
  match lookupType ty with
  | None =>
      ed' = ed
      /\ nodes (snd (createNode ed ty px py [])) = nodes ed
      /\ nodeCounter (snd (createNode ed ty px py [])) = S (nodeCounter ed)
  | Some d =>
      ty <> "" ->
      exists n,
        nodes ed' = (nodes ed ++ [(("node_" ++ decimal (S (nodeCounter ed)))%string, n)])%list
        /\ node_id n = "node_" ++ decimal (S (nodeCounter ed))
        /\ type n = ty /\ x n = px /\ y n = py
        /\ config n = objectAssign [] (defaults d)
        /\ nodeCounter ed' = S (nodeCounter ed)
        /\ links ed' = links ed
  end.
Proof.
  intros ed ed'. subst ed'. unfold onCanvasDrop.
  assert (W : wellFormed ed) by apply handleAll_wellFormed, newEditor_wellFormed.
  destruct (lookupType ty) as [d|] eqn:L.
  - intros N. apply String.eqb_neq in N. rewrite N. cbn [negb andb].
    unfold createNode. rewrite L. cbn [snd nodes withNodes withNodeCounter nodeCounter links].
    rewrite mapSet_absent by now apply fresh_nodeId.
    eexists. split; [reflexivity|]. cbn [node_id type x y config].
    do 4 (split; [reflexivity|]). split; [|split; reflexivity].
    rewrite spread_objectAssign. reflexivity.
  - rewrite andb_false_r. unfold createNode. rewrite L. auto.
Qed.

Lemma onCanvasDrop_creates_or_ignores_witness :
  let ed := handleAll newEditor [Store (CreateNode "debug" 0 0 [])] in
  exists n,
    nodes (onCanvasDrop ed "function" 30 40)
    = (nodes ed ++ [("node_2", n)])%list
    /\ config n = [("name", VStr ""); ("func", VStr "return msg;")].
Proof.
  cbv zeta.
  pose proof (onCanvasDrop_creates_or_ignores [Store (CreateNode "debug" 0 0 [])]
                "function" 30 40) as H.
  cbv zeta in H.
  change (lookupType "function")
    with (Some (descriptor 1 1 [("name", VStr ""); ("func", VStr "return msg;")])) in H.
  destruct H as (n & En & _ & _ & _ & _ & Ec & _); [discriminate|].
  exists n. split; [exact En | exact Ec].
Defined.
